(** * The DEX state-transition core (pkg/dex/transition.go) and the
      consensus validator, embedded in Rocq.

    Unsigned 64-bit integers are [Z] with the wrap-around written out
    ([wrap64]); Go maps are [gmap]s; a Go [panic] (explicit, or raised by
    the runtime on a nil dereference, an index out of range or a division
    by zero in [math/big]) is the [Panic] outcome. *)

From Stdlib Require Import ZArith Lia.
From stdpp Require Import base option list gmap strings fin_maps.

#[local] Open Scope Z_scope.

(** ** Outcomes of a Go call: it returns, or it panics *)

Inductive outcome (A : Type) : Type :=
| Ok (a : A)
| Panic.
Arguments Ok {A} a.
Arguments Panic {A}.

#[global] Instance outcome_ret : MRet outcome := fun A a => Ok a.
#[global] Instance outcome_bind : MBind outcome := fun A B f m =>
  match m with
  | Ok a => f a
  | Panic => Panic
  end.

(** ** Machine integers *)

Definition two64 : Z := 2 ^ 64.

(** The value kept by a [uint64] after an arithmetic operation. *)
Definition wrap64 (z : Z) : Z := z mod two64.

Definition is_uint64 (z : Z) : Prop := 0 <= z < two64.

(** ** The ambient constants and library functions

    [OrderPriceDecimals] is a package constant declared in another file;
    it is a parameter here (the end-to-end scenarios use 8).
    [pow10_out_of_range d] is what [uint64(math.Pow10(d))] yields when
    [10^d] does not fit 64 bits: Go leaves that conversion
    implementation-dependent. [ToUpper] is [strings.ToUpper]; [pk_addr] is
    [PK.Addr()], the hash of a public key. *)

Class Ambient := {
  OrderPriceDecimals : Z;
  pow10_out_of_range : Z -> Z;
  ToUpper : string -> string;
  pk_addr : Z -> Z;
}.

Section Arithmetic.
Context `{Ambient}.

(** [uint64(math.Pow10(int(d)))]: exact up to [10^19 < 2^64]. *)
Definition Pow10U64 (d : Z) : Z :=
  if (0 <=? d) && (d <=? 19) then 10 ^ d else pow10_out_of_range d.

(** [big.Int.Div]: Euclidean division, a run-time panic on a zero divisor.
    All operands here are non-negative. *)
Definition bigDiv (x y : Z) : outcome Z :=
  if y =? 0 then Panic else Ok (x / y).

(** [big.Int.Uint64]: the low 64 bits of a non-negative value. *)
Definition bigUint64 (x : Z) : Z := x mod two64.

(** [calcQuoteQuant]. As in the source, the [priceDecimals] argument is
    not read: the price denominator is taken from [OrderPriceDecimals]. *)
Definition calcQuoteQuant (baseQuantUnit quoteDecimals priceQuantUnit
                           priceDecimals baseDecimals : Z) : outcome Z :=
  let quantUnit := baseQuantUnit in
  let quoteDenominator := Pow10U64 quoteDecimals in
  let priceU := priceQuantUnit in
  let priceDenominator := Pow10U64 OrderPriceDecimals in
  let baseDenominator := Pow10U64 baseDecimals in
  let result := quantUnit * quoteDenominator in
  let result := result * priceU in
  result ← bigDiv result baseDenominator;
  result ← bigDiv result priceDenominator;
  Ok (bigUint64 result).

(** The conversion formula of the balance arithmetic, in unbounded
    integers: the quotient of the scaled product, truncated toward zero. *)
Definition quoteFormula (base quoteDecimals price priceDecimals baseDecimals : Z) : Z :=
  (base * 10 ^ quoteDecimals * price) ÷ (10 ^ baseDecimals * 10 ^ priceDecimals).

End Arithmetic.

(** ** Data model

    Identifiers ([TokenID], round numbers, quantities, prices) are
    [uint64]; addresses and public keys are opaque values, kept as [Z]. *)

Record TokenInfo := {
  ti_Symbol : string;
  ti_Decimals : Z;
  ti_TotalUnits : Z;
}.

Record Token := {
  tk_ID : Z;
  tk_Info : TokenInfo;
}.

Record Frozen := {
  fz_AvailableRound : Z;
  fz_Quant : Z;
}.

Record Balance := {
  bal_Available : Z;
  bal_Pending : Z;
  bal_Frozen : list Frozen;
}.

Record MarketSymbol := {
  Base : Z;
  Quote : Z;
}.

Record OrderID := {
  oid_ID : Z;
  oid_Market : MarketSymbol;
}.

Record Order := {
  ord_Owner : Z;
  ord_SellSide : bool;
  ord_Quant : Z;
  ord_Price : Z;
  ord_ExpireRound : Z;
}.

(** [PendingOrder] embeds [Order]. *)
Record PendingOrder := {
  po_ID : OrderID;
  po_Order : Order;
  po_Executed : Z;
}.

Record Execution := {
  ex_ID : Z;
  ex_Owner : Z;
  ex_SellSide : bool;
  ex_Price : Z;
  ex_Quant : Z;
  ex_Taker : bool;
}.

Record ExecutionReport := {
  er_Round : Z;
  er_ID : OrderID;
  er_SellSide : bool;
  er_TradePrice : Z;
  er_Quant : Z;
  er_Fee : Z;
}.

Record orderExpiration := {
  oe_ID : OrderID;
  oe_Owner : Z;
}.

(** The freeze-schedule entry (the struct the source calls [freezeToken],
    like the method below). *)
Record freezeTokenEntry := {
  ft_Addr : Z;
  ft_TokenID : Z;
  ft_Quant : Z;
}.

#[global] Instance MarketSymbol_eq_dec : EqDecision MarketSymbol.
Proof. solve_decision. Defined.
#[global] Instance MarketSymbol_countable : Countable MarketSymbol.
Proof.
  refine (inj_countable' (fun m => (Base m, Quote m))
            (fun p => {| Base := p.1; Quote := p.2 |}) _).
  by intros [].
Defined.
#[global] Instance OrderID_eq_dec : EqDecision OrderID.
Proof. solve_decision. Defined.
#[global] Instance OrderID_countable : Countable OrderID.
Proof.
  refine (inj_countable' (fun o => (oid_ID o, oid_Market o))
            (fun p => {| oid_ID := p.1; oid_Market := p.2 |}) _).
  by intros [].
Defined.

(** *** Transactions *)

Record PlaceOrderTxn := {
  pot_SellSide : bool;
  pot_Quant : Z;
  pot_Price : Z;
  pot_ExpireRound : Z;
  pot_Market : MarketSymbol;
}.

Record CancelOrderTxn := { cot_ID : OrderID }.

Record IssueTokenTxn := { itt_Info : TokenInfo }.

Record SendTokenTxn := {
  stt_TokenID : Z;
  stt_To : Z;
  stt_Quant : Z;
}.

Record FreezeTokenTxn := {
  ftt_TokenID : Z;
  ftt_AvailableRound : Z;
  ftt_Quant : Z;
}.

(** The dynamic type of [txn.Decoded]. *)
Inductive Decoded :=
| IsPlaceOrderTxn (tx : PlaceOrderTxn)
| IsCancelOrderTxn (tx : CancelOrderTxn)
| IsIssueTokenTxn (tx : IssueTokenTxn)
| IsSendTokenTxn (tx : SendTokenTxn)
| IsFreezeTokenTxn (tx : FreezeTokenTxn)
| IsOtherType.

Record Txn := {
  txn_Raw : list Z;
  txn_Sender : Z;
  txn_Nonce : Z;
  txn_Decoded : Decoded;
}.

(** *** Accounts *)

(** Modelled from the spec: the [Account] type and its methods
    ([Balance], [UpdateBalance], [PendingOrder], [UpdatePendingOrder],
    [RemovePendingOrder], [AddExecutionReport], [PK]) are declared in
    another file of the package. An account is a mutable record of
    balances per token, pending orders and execution reports; a token the
    account never held reads as the zero balance. *)

Record Account := {
  acc_PK : Z;
  acc_balances : gmap Z Balance;
  acc_pendingOrders : gmap OrderID PendingOrder;
  acc_executionReports : list ExecutionReport;
}.

Definition zeroBalance : Balance :=
  {| bal_Available := 0; bal_Pending := 0; bal_Frozen := [] |}.

Definition Account_Balance (a : Account) (id : Z) : Balance :=
  default zeroBalance (acc_balances a !! id).

Definition Account_UpdateBalance (a : Account) (id : Z) (b : Balance) : Account :=
  {| acc_PK := acc_PK a;
     acc_balances := <[id := b]> (acc_balances a);
     acc_pendingOrders := acc_pendingOrders a;
     acc_executionReports := acc_executionReports a |}.

Definition Account_PendingOrder (a : Account) (id : OrderID) : option PendingOrder :=
  acc_pendingOrders a !! id.

Definition Account_UpdatePendingOrder (a : Account) (p : PendingOrder) : Account :=
  {| acc_PK := acc_PK a;
     acc_balances := acc_balances a;
     acc_pendingOrders := <[po_ID p := p]> (acc_pendingOrders a);
     acc_executionReports := acc_executionReports a |}.

Definition Account_RemovePendingOrder (a : Account) (id : OrderID) : Account :=
  {| acc_PK := acc_PK a;
     acc_balances := acc_balances a;
     acc_pendingOrders := delete id (acc_pendingOrders a);
     acc_executionReports := acc_executionReports a |}.

Definition Account_AddExecutionReport (a : Account) (r : ExecutionReport) : Account :=
  {| acc_PK := acc_PK a;
     acc_balances := acc_balances a;
     acc_pendingOrders := acc_pendingOrders a;
     acc_executionReports := acc_executionReports a ++ [r] |}.

Definition newAccount (pk : Z) : Account :=
  {| acc_PK := pk; acc_balances := ∅; acc_pendingOrders := ∅;
     acc_executionReports := [] |}.

(** Modelled from the spec: [MarketSymbol.Valid], declared in another
    file of the package, requires base and quote to differ. *)
Definition MarketSymbol_Valid (m : MarketSymbol) : bool :=
  negb (Base m =? Quote m).

(** *** The order book

    The matching engine lives in another file of the package; the transition
    only consumes [Limit] and [Cancel], which are parameters here. A book
    is handled by value: the book a call leaves behind is stored back into
    the transition's map. *)

Class OrderBookOps := {
  orderBook : Type;
  newOrderBook : orderBook;
  Limit : orderBook -> Order -> Z * list Execution * orderBook;
  Cancel : orderBook -> Z -> orderBook;
}.

Section Dex.
Context `{Ambient} `{OrderBookOps}.

(** *** The token cache *)

(** Modelled from the spec: [TokenCache] is declared in another file of
    the package. It indexes the persisted tokens by id; [Exists] looks a
    symbol up in its symbol set, compared case-insensitively; [Size] is
    the number of tokens it knows. *)
Record TokenCache := {
  idToInfo : gmap Z TokenInfo;
}.

Definition sameSymbol (a b : string) : bool :=
  bool_decide (ToUpper a = ToUpper b).

Definition TokenCache_Exists (c : TokenCache) (s : string) : bool :=
  existsb (fun e => sameSymbol s (ti_Symbol e.2)) (map_to_list (idToInfo c)).

Definition TokenCache_Size (c : TokenCache) : Z :=
  Z.of_nat (size (idToInfo c)).

Definition TokenCache_Info (c : TokenCache) (id : Z) : option TokenInfo :=
  idToInfo c !! id.

(** *** The state *)

(** Modelled from the spec: [State] is declared in another file of the
    package. It is kept by its content: the accounts by address, the
    tokens, the saved order book of each market, the order-expiration
    schedule and the freeze schedule, both from round to list. The write
    cache and the store behind it are one content here. An [*Account]
    handed out by [State.Account] is a view of the stored account: it is
    represented by the address under which the state holds the account,
    and a method called through it acts on the stored account. *)
Record State := {
  st_accounts : gmap Z Account;
  st_tokens : gmap Z TokenInfo;
  st_orderBooks : gmap MarketSymbol orderBook;
  st_orderExpirations : gmap Z (list orderExpiration);
  st_freezeTokens : gmap Z (list freezeTokenEntry);
}.

Definition set_st_accounts (s : State) (a : gmap Z Account) : State :=
  {| st_accounts := a; st_tokens := st_tokens s;
     st_orderBooks := st_orderBooks s;
     st_orderExpirations := st_orderExpirations s;
     st_freezeTokens := st_freezeTokens s |}.

(** [State.Account]: the account at an address, [None] for [nil]. *)
Definition State_Account (s : State) (addr : Z) : option Account :=
  st_accounts s !! addr.

(** [State.NewAccount]: a fresh account for the key, held at its address. *)
Definition State_NewAccount (s : State) (pk : Z) : State :=
  set_st_accounts s (<[pk_addr pk := newAccount pk]> (st_accounts s)).

Definition State_UpdateToken (s : State) (tok : Token) : State :=
  {| st_accounts := st_accounts s;
     st_tokens := <[tk_ID tok := tk_Info tok]> (st_tokens s);
     st_orderBooks := st_orderBooks s;
     st_orderExpirations := st_orderExpirations s;
     st_freezeTokens := st_freezeTokens s |}.

Definition State_loadOrderBook (s : State) (m : MarketSymbol) : option orderBook :=
  st_orderBooks s !! m.

Definition State_saveOrderBook (s : State) (m : MarketSymbol) (b : orderBook) : State :=
  {| st_accounts := st_accounts s; st_tokens := st_tokens s;
     st_orderBooks := <[m := b]> (st_orderBooks s);
     st_orderExpirations := st_orderExpirations s;
     st_freezeTokens := st_freezeTokens s |}.

Definition set_st_orderExpirations (s : State) (e : gmap Z (list orderExpiration)) : State :=
  {| st_accounts := st_accounts s; st_tokens := st_tokens s;
     st_orderBooks := st_orderBooks s;
     st_orderExpirations := e;
     st_freezeTokens := st_freezeTokens s |}.

Definition State_GetOrderExpirations (s : State) (round : Z) : list orderExpiration :=
  default [] (st_orderExpirations s !! round).

(** Appends the entries to the schedule of the round. *)
Definition State_AddOrderExpirations (s : State) (round : Z)
    (ids : list orderExpiration) : State :=
  set_st_orderExpirations s
    (<[round := State_GetOrderExpirations s round ++ ids]> (st_orderExpirations s)).

Definition isFilled (filled : gmap OrderID bool) (id : OrderID) : bool :=
  default false (filled !! id).

(** Purges the entries of filled orders from the schedule of the round. *)
Definition State_RemoveOrderExpirations (s : State) (round : Z)
    (filled : gmap OrderID bool) : State :=
  set_st_orderExpirations s
    (<[round := List.filter (fun e => negb (isFilled filled (oe_ID e)))
                  (State_GetOrderExpirations s round)]> (st_orderExpirations s)).

Definition State_GetFreezeTokens (s : State) (round : Z) : list freezeTokenEntry :=
  default [] (st_freezeTokens s !! round).

Definition State_FreezeToken (s : State) (round : Z) (e : freezeTokenEntry) : State :=
  {| st_accounts := st_accounts s; st_tokens := st_tokens s;
     st_orderBooks := st_orderBooks s;
     st_orderExpirations := st_orderExpirations s;
     st_freezeTokens := <[round := State_GetFreezeTokens s round ++ [e]]> (st_freezeTokens s) |}.

(** The cache and the store are one content: flushing leaves it as it is. *)
Definition State_CommitCache (s : State) : State := s.

(** *** The transition *)

Record Transition := {
  round : Z;
  finalized : bool;
  tokenCreations : list Token;
  txns : list Txn;
  expirations : gmap Z (list orderExpiration);
  filledOrders : list PendingOrder;
  state : State;
  orderBooks : gmap MarketSymbol orderBook;
  dirtyOrderBooks : gmap MarketSymbol bool;
  tokenCache : TokenCache;
}.

Definition newTokenCache (s : State) : TokenCache :=
  {| idToInfo := st_tokens s |}.

Definition newTransition (s : State) (round : Z) : Transition :=
  {| state := s;
     round := round;
     finalized := false;
     tokenCreations := [];
     txns := [];
     expirations := ∅;
     orderBooks := ∅;
     dirtyOrderBooks := ∅;
     tokenCache := newTokenCache s;
     filledOrders := [] |}.

Definition set_finalized (t : Transition) (b : bool) : Transition :=
  {| round := round t; finalized := b; tokenCreations := tokenCreations t;
     txns := txns t; expirations := expirations t;
     filledOrders := filledOrders t; state := state t;
     orderBooks := orderBooks t; dirtyOrderBooks := dirtyOrderBooks t;
     tokenCache := tokenCache t |}.

Definition set_tokenCreations (t : Transition) (l : list Token) : Transition :=
  {| round := round t; finalized := finalized t; tokenCreations := l;
     txns := txns t; expirations := expirations t;
     filledOrders := filledOrders t; state := state t;
     orderBooks := orderBooks t; dirtyOrderBooks := dirtyOrderBooks t;
     tokenCache := tokenCache t |}.

Definition set_txns (t : Transition) (l : list Txn) : Transition :=
  {| round := round t; finalized := finalized t;
     tokenCreations := tokenCreations t;
     txns := l; expirations := expirations t;
     filledOrders := filledOrders t; state := state t;
     orderBooks := orderBooks t; dirtyOrderBooks := dirtyOrderBooks t;
     tokenCache := tokenCache t |}.

Definition set_expirations (t : Transition) (e : gmap Z (list orderExpiration)) : Transition :=
  {| round := round t; finalized := finalized t;
     tokenCreations := tokenCreations t;
     txns := txns t; expirations := e;
     filledOrders := filledOrders t; state := state t;
     orderBooks := orderBooks t; dirtyOrderBooks := dirtyOrderBooks t;
     tokenCache := tokenCache t |}.

Definition set_filledOrders (t : Transition) (l : list PendingOrder) : Transition :=
  {| round := round t; finalized := finalized t;
     tokenCreations := tokenCreations t;
     txns := txns t; expirations := expirations t;
     filledOrders := l; state := state t;
     orderBooks := orderBooks t; dirtyOrderBooks := dirtyOrderBooks t;
     tokenCache := tokenCache t |}.

Definition set_state (t : Transition) (s : State) : Transition :=
  {| round := round t; finalized := finalized t;
     tokenCreations := tokenCreations t;
     txns := txns t; expirations := expirations t;
     filledOrders := filledOrders t; state := s;
     orderBooks := orderBooks t; dirtyOrderBooks := dirtyOrderBooks t;
     tokenCache := tokenCache t |}.

Definition set_orderBooks (t : Transition) (m : gmap MarketSymbol orderBook) : Transition :=
  {| round := round t; finalized := finalized t;
     tokenCreations := tokenCreations t;
     txns := txns t; expirations := expirations t;
     filledOrders := filledOrders t; state := state t;
     orderBooks := m; dirtyOrderBooks := dirtyOrderBooks t;
     tokenCache := tokenCache t |}.

Definition set_dirtyOrderBooks (t : Transition) (m : gmap MarketSymbol bool) : Transition :=
  {| round := round t; finalized := finalized t;
     tokenCreations := tokenCreations t;
     txns := txns t; expirations := expirations t;
     filledOrders := filledOrders t; state := state t;
     orderBooks := orderBooks t; dirtyOrderBooks := m;
     tokenCache := tokenCache t |}.

(** Reading through an [*Account]: a [nil] or dangling pointer panics. *)
Definition deref (t : Transition) (p : Z) : outcome Account :=
  match State_Account (state t) p with
  | Some a => Ok a
  | None => Panic
  end.

(** Writing through an [*Account]. *)
Definition store (t : Transition) (p : Z) (a : Account) : Transition :=
  set_state t (set_st_accounts (state t) (<[p := a]> (st_accounts (state t)))).

(** A [for _, x := range slice] loop whose body may panic. *)
Fixpoint forEach {A S : Type} (body : S -> A -> outcome S) (l : list A) (s : S)
    : outcome S :=
  match l with
  | [] => Ok s
  | x :: rest => s' ← body s x; forEach body rest s'
  end.

Definition set_bal_Available (b : Balance) (v : Z) : Balance :=
  {| bal_Available := v; bal_Pending := bal_Pending b; bal_Frozen := bal_Frozen b |}.

Definition set_bal_Pending (b : Balance) (v : Z) : Balance :=
  {| bal_Available := bal_Available b; bal_Pending := v; bal_Frozen := bal_Frozen b |}.

Definition set_bal_Frozen (b : Balance) (l : list Frozen) : Balance :=
  {| bal_Available := bal_Available b; bal_Pending := bal_Pending b; bal_Frozen := l |}.

Definition set_po_Executed (p : PendingOrder) (v : Z) : PendingOrder :=
  {| po_ID := po_ID p; po_Order := po_Order p; po_Executed := v |}.

(** [getOrderBook]: the book of the market, loaded into the transition's
    map on first use. *)
Definition getOrderBook (t : Transition) (m : MarketSymbol) : Transition * orderBook :=
  match orderBooks t !! m with
  | Some book => (t, book)
  | None =>
      let book := match State_loadOrderBook (state t) m with
                  | Some b => b
                  | None => newOrderBook
                  end in
      (set_orderBooks t (<[m := book]> (orderBooks t)), book)
  end.

(** [refundAfterCancel]. The debugging [fmt.Println] of the buy branch
    has no effect on the state and is left out. *)
Definition refundAfterCancel (t : Transition) (owner : Z) (cancel : PendingOrder)
    (market : MarketSymbol) : outcome Transition :=
  if ord_Quant (po_Order cancel) <=? po_Executed cancel then Panic else
  let refund := wrap64 (ord_Quant (po_Order cancel) - po_Executed cancel) in
  if ord_SellSide (po_Order cancel) then
    acc ← deref t owner;
    let baseBalance := Account_Balance acc (Base market) in
    if bal_Pending baseBalance <? refund then Panic else
    let baseBalance := set_bal_Pending baseBalance (wrap64 (bal_Pending baseBalance - refund)) in
    let baseBalance := set_bal_Available baseBalance (wrap64 (bal_Available baseBalance + refund)) in
    Ok (store t owner (Account_UpdateBalance acc (Base market) baseBalance))
  else
    acc ← deref t owner;
    let quoteBalance := Account_Balance acc (Quote market) in
    match idToInfo (tokenCache t) !! Quote market, idToInfo (tokenCache t) !! Base market with
    | Some quoteInfo, Some baseInfo =>
        pendingQuant ← calcQuoteQuant refund (ti_Decimals quoteInfo)
                         (ord_Price (po_Order cancel)) OrderPriceDecimals
                         (ti_Decimals baseInfo);
        if bal_Pending quoteBalance <? pendingQuant then Panic else
        let quoteBalance := set_bal_Pending quoteBalance (wrap64 (bal_Pending quoteBalance - pendingQuant)) in
        let quoteBalance := set_bal_Available quoteBalance (wrap64 (bal_Available quoteBalance + pendingQuant)) in
        Ok (store t owner (Account_UpdateBalance acc (Quote market) quoteBalance))
    | _, _ => Panic
    end.

(** [cancelOrder]. *)
Definition cancelOrder (t : Transition) (owner : Z) (txn : CancelOrderTxn)
    : outcome (Transition * bool) :=
  acc ← deref t owner;
  match Account_PendingOrder acc (cot_ID txn) with
  | None => Ok (t, false)
  | Some cancel =>
      let market := oid_Market (cot_ID txn) in
      let '(t, book) := getOrderBook t market in
      let book := Cancel book (oid_ID (cot_ID txn)) in
      let t := set_orderBooks t (<[market := book]> (orderBooks t)) in
      let t := set_dirtyOrderBooks t (<[market := true]> (dirtyOrderBooks t)) in
      acc ← deref t owner;
      let t := store t owner (Account_RemovePendingOrder acc (cot_ID txn)) in
      t ← refundAfterCancel t owner cancel market;
      Ok (t, true)
  end.

(** The body of the loop of [placeOrder] over the executions. *)
Definition placeOrder_execution (market : MarketSymbol) (baseInfo quoteInfo : TokenInfo)
    (round : Z) (t : Transition) (exec : Execution) : outcome Transition :=
  acc ← deref t (ex_Owner exec);
  let orderID := {| oid_ID := ex_ID exec; oid_Market := market |} in
  let report := {| er_Round := round; er_ID := orderID;
                   er_SellSide := ex_SellSide exec;
                   er_TradePrice := ex_Price exec;
                   er_Quant := ex_Quant exec; er_Fee := 0 |} in
  let acc := Account_AddExecutionReport acc report in
  match Account_PendingOrder acc orderID with
  | None => Panic
  | Some executedOrder =>
      let executedOrder :=
        set_po_Executed executedOrder (wrap64 (po_Executed executedOrder + ex_Quant exec)) in
      let '(acc, t) :=
        if po_Executed executedOrder =? ord_Quant (po_Order executedOrder) then
          (Account_RemovePendingOrder acc orderID,
           set_filledOrders t (filledOrders t ++ [executedOrder]))
        else
          (Account_UpdatePendingOrder acc executedOrder, t) in
      let baseBalance := Account_Balance acc (Base market) in
      let quoteBalance := Account_Balance acc (Quote market) in
      if ex_SellSide exec then
        if bal_Pending baseBalance <? ex_Quant exec then Panic else
        let baseBalance := set_bal_Pending baseBalance (wrap64 (bal_Pending baseBalance - ex_Quant exec)) in
        recvQuant ← calcQuoteQuant (ex_Quant exec) (ti_Decimals quoteInfo)
                      (ex_Price exec) OrderPriceDecimals (ti_Decimals baseInfo);
        let quoteBalance := set_bal_Available quoteBalance (wrap64 (bal_Available quoteBalance + recvQuant)) in
        let acc := Account_UpdateBalance acc (Base market) baseBalance in
        let acc := Account_UpdateBalance acc (Quote market) quoteBalance in
        Ok (store t (ex_Owner exec) acc)
      else
        let recvQuant := ex_Quant exec in
        pendingQuant ← calcQuoteQuant (ex_Quant exec) (ti_Decimals quoteInfo)
                         (ord_Price (po_Order executedOrder)) OrderPriceDecimals
                         (ti_Decimals baseInfo);
        givenQuant ← calcQuoteQuant (ex_Quant exec) (ti_Decimals quoteInfo)
                       (ex_Price exec) OrderPriceDecimals (ti_Decimals baseInfo);
        if bal_Pending quoteBalance <? pendingQuant then Panic else
        let quoteBalance := set_bal_Pending quoteBalance (wrap64 (bal_Pending quoteBalance - pendingQuant)) in
        let quoteBalance := set_bal_Available quoteBalance (wrap64 (bal_Available quoteBalance + pendingQuant)) in
        let quoteBalance := set_bal_Available quoteBalance (wrap64 (bal_Available quoteBalance - givenQuant)) in
        let baseBalance := set_bal_Available baseBalance (wrap64 (bal_Available baseBalance + recvQuant)) in
        let acc := Account_UpdateBalance acc (Base market) baseBalance in
        let acc := Account_UpdateBalance acc (Quote market) quoteBalance in
        Ok (store t (ex_Owner exec) acc)
  end.

(** The reservation step of [placeOrder]: [None] where the source
    returns [false] before anything is written. *)
Definition placeOrder_reserve (t : Transition) (owner : Z) (txn : PlaceOrderTxn)
    (baseInfo quoteInfo : TokenInfo) : outcome (option Transition) :=
  let market := pot_Market txn in
  if pot_SellSide txn then
    if pot_Quant txn =? 0 then Ok None else
    acc ← deref t owner;
    let baseBalance := Account_Balance acc (Base market) in
    if bal_Available baseBalance <? pot_Quant txn then Ok None else
    let baseBalance := set_bal_Available baseBalance (wrap64 (bal_Available baseBalance - pot_Quant txn)) in
    let baseBalance := set_bal_Pending baseBalance (wrap64 (bal_Pending baseBalance + pot_Quant txn)) in
    Ok (Some (store t owner (Account_UpdateBalance acc (Base market) baseBalance)))
  else
    if pot_Quant txn =? 0 then Ok None else
    pendingQuant ← calcQuoteQuant (pot_Quant txn) (ti_Decimals quoteInfo)
                     (pot_Price txn) OrderPriceDecimals (ti_Decimals baseInfo);
    if pendingQuant =? 0 then Ok None else
    acc ← deref t owner;
    let quoteBalance := Account_Balance acc (Quote market) in
    if bal_Available quoteBalance <? pendingQuant then Ok None else
    let quoteBalance := set_bal_Available quoteBalance (wrap64 (bal_Available quoteBalance - pendingQuant)) in
    let quoteBalance := set_bal_Pending quoteBalance (wrap64 (bal_Pending quoteBalance + pendingQuant)) in
    Ok (Some (store t owner (Account_UpdateBalance acc (Quote market) quoteBalance))).

(** [placeOrder]. *)
Definition placeOrder (t : Transition) (owner : Z) (txn : PlaceOrderTxn) (round : Z)
    : outcome (Transition * bool) :=
  let market := pot_Market txn in
  if negb (MarketSymbol_Valid market) then Ok (t, false) else
  if (0 <? pot_ExpireRound txn) && (pot_ExpireRound txn <=? round) then Ok (t, false) else
  match TokenCache_Info (tokenCache t) (Base market) with
  | None => Ok (t, false)
  | Some baseInfo =>
  match TokenCache_Info (tokenCache t) (Quote market) with
  | None => Ok (t, false)
  | Some quoteInfo =>
      reserved ← placeOrder_reserve t owner txn baseInfo quoteInfo;
      match reserved with
      | None => Ok (t, false)
      | Some t =>
          acc ← deref t owner;
          let order := {| ord_Owner := pk_addr (acc_PK acc);
                          ord_SellSide := pot_SellSide txn;
                          ord_Quant := pot_Quant txn;
                          ord_Price := pot_Price txn;
                          ord_ExpireRound := pot_ExpireRound txn |} in
          let '(t, book) := getOrderBook t market in
          let '(orderID, executions, book) := Limit book order in
          let t := set_orderBooks t (<[market := book]> (orderBooks t)) in
          let t := set_dirtyOrderBooks t (<[market := true]> (dirtyOrderBooks t)) in
          let id := {| oid_ID := orderID; oid_Market := market |} in
          let pendingOrder := {| po_ID := id; po_Order := order; po_Executed := 0 |} in
          let t := store t owner (Account_UpdatePendingOrder acc pendingOrder) in
          let t :=
            if 0 <? ord_ExpireRound order then
              set_expirations t
                (<[ord_ExpireRound order :=
                     default [] (expirations t !! ord_ExpireRound order)
                       ++ [{| oe_ID := id; oe_Owner := pk_addr (acc_PK acc) |}]]>
                   (expirations t))
            else t in
          t ← forEach (placeOrder_execution market baseInfo quoteInfo round) executions t;
          Ok (t, true)
      end
  end
  end.

(** [issueToken]. *)
Definition issueToken (t : Transition) (owner : Z) (txn : IssueTokenTxn)
    : outcome (Transition * bool) :=
  if TokenCache_Exists (tokenCache t) (ti_Symbol (itt_Info txn)) then Ok (t, false) else
  if existsb (fun v => sameSymbol (ti_Symbol (itt_Info txn)) (ti_Symbol (tk_Info v)))
       (tokenCreations t) then Ok (t, false) else
  let id := TokenCache_Size (tokenCache t) + Z.of_nat (length (tokenCreations t)) in
  let token := {| tk_ID := id; tk_Info := itt_Info txn |} in
  let t := set_tokenCreations t (tokenCreations t ++ [token]) in
  let t := set_state t (State_UpdateToken (state t) token) in
  acc ← deref t owner;
  let t := store t owner
             (Account_UpdateBalance acc id
                {| bal_Available := ti_TotalUnits (itt_Info txn);
                   bal_Pending := 0; bal_Frozen := [] |}) in
  Ok (t, true).

(** [sendToken]. *)
Definition sendToken (t : Transition) (owner : Z) (txn : SendTokenTxn)
    : outcome (Transition * bool) :=
  if stt_Quant txn =? 0 then Ok (t, false) else
  acc ← deref t owner;
  let b := Account_Balance acc (stt_TokenID txn) in
  if bal_Available b <? stt_Quant txn then Ok (t, false) else
  let toAddr := pk_addr (stt_To txn) in
  let '(t, toAcc) :=
    match State_Account (state t) toAddr with
    | Some _ => (t, toAddr)
    | None => (set_state t (State_NewAccount (state t) (stt_To txn)), pk_addr (stt_To txn))
    end in
  let b := set_bal_Available b (wrap64 (bal_Available b - stt_Quant txn)) in
  acc ← deref t owner;
  let t := store t owner (Account_UpdateBalance acc (stt_TokenID txn) b) in
  toA ← deref t toAcc;
  let toAccBalance := Account_Balance toA (stt_TokenID txn) in
  let toAccBalance :=
    set_bal_Available toAccBalance (wrap64 (bal_Available toAccBalance + stt_Quant txn)) in
  let t := store t toAcc (Account_UpdateBalance toA (stt_TokenID txn) toAccBalance) in
  Ok (t, true).

(** [freezeToken] (the method). *)
Definition freezeToken (t : Transition) (acc : Z) (txn : FreezeTokenTxn)
    : outcome (Transition * bool) :=
  if ftt_Quant txn =? 0 then Ok (t, false) else
  if ftt_AvailableRound txn <=? round t then Ok (t, false) else
  a ← deref t acc;
  let b := Account_Balance a (ftt_TokenID txn) in
  if bal_Available b <? ftt_Quant txn then Ok (t, false) else
  let frozen := {| fz_AvailableRound := ftt_AvailableRound txn;
                   fz_Quant := ftt_Quant txn |} in
  let b := set_bal_Available b (wrap64 (bal_Available b - ftt_Quant txn)) in
  let b := set_bal_Frozen b (bal_Frozen b ++ [frozen]) in
  let t := store t acc (Account_UpdateBalance a (ftt_TokenID txn) b) in
  let t := set_state t
             (State_FreezeToken (state t) (ftt_AvailableRound txn)
                {| ft_Addr := pk_addr (acc_PK a); ft_TokenID := ftt_TokenID txn;
                   ft_Quant := ftt_Quant txn |}) in
  Ok (t, true).

(** Modelled from the spec: [validateNonce] and [State.Hash] are declared
    in other files. The nonce check reads the state and the transaction
    and returns (account, ready, valid) without writing anything; the
    hash is a function of the content of the state. *)
Context (validateNonce : State -> Txn -> Z * bool * bool)
        (State_Hash : State -> list Z).

(** [Transition.Record] ([Record] alone is a keyword of the vernacular):
    the pair returned is (valid, success). *)
Definition Transition_Record (t : Transition) (txn : Txn) : outcome (Transition * (bool * bool)) :=
  if finalized t then Panic else
  let '(acc, ready, nonceValid) := validateNonce (state t) txn in
  if negb nonceValid then Ok (t, (false, false)) else
  if negb ready then Ok (t, (true, false)) else
  '(t', done) ←
    match txn_Decoded txn with
    | IsPlaceOrderTxn tx => placeOrder t acc tx (round t)
    | IsCancelOrderTxn tx => cancelOrder t acc tx
    | IsIssueTokenTxn tx => issueToken t acc tx
    | IsSendTokenTxn tx => sendToken t acc tx
    | IsFreezeTokenTxn tx => freezeToken t acc tx
    | IsOtherType => Ok (t, false)
    end;
  if negb done then Ok (t', (false, false)) else
  Ok (set_txns t' (txns t' ++ [txn]), (true, true)).

(** The loop of [RecordSerialized] over the transactions of a batch, once
    decoded (the RLP decoding and the pool are left out): it stops at the
    first transaction that is not recorded. *)
Fixpoint RecordTxns (t : Transition) (batch : list Txn) (count : Z)
    : outcome (Transition * (Z * bool * bool)) :=
  match batch with
  | [] => Ok (t, (count, true, true))
  | txn :: rest =>
      '(t', (valid, success)) ← Transition_Record t txn;
      if negb valid || negb success then Ok (t', (0, valid, success))
      else RecordTxns t' rest (count + 1)
  end.

(** *** Ranging over a Go map

    The order in which [range] visits the entries of a map is not
    specified and differs from run to run. A [RangeOrder] picks the order
    of one run; it is lawful when it visits every entry exactly once. *)

Record RangeOrder := {
  range_order : forall K A : Type, list (K * A) -> list (K * A);
}.

Definition RangeOrder_lawful (ro : RangeOrder) : Prop :=
  forall (K A : Type) (l : list (K * A)), range_order ro K A l ≡ₚ l.

Definition rangeMap {K} `{Countable K} {A S : Type} (ro : RangeOrder)
    (m : gmap K A) (body : S -> K * A -> S) (s : S) : S :=
  fold_left body (range_order ro K A (map_to_list m)) s.

(** The first loop of [removeFilledOrderFromExpiration]: the number of
    filled orders per expire round, and the set of their ids. *)
Definition countFilled (orders : list PendingOrder) : gmap Z Z * gmap OrderID bool :=
  fold_left
    (fun '(rounds, filled) o =>
       if ord_ExpireRound (po_Order o) =? 0 then (rounds, filled)
       else (<[ord_ExpireRound (po_Order o) :=
                 default 0 (rounds !! ord_ExpireRound (po_Order o)) + 1]> rounds,
             <[po_ID o := true]> filled))
    orders (∅, ∅).

(** The entries of a staged list that survive the purge of filled orders. *)
Definition keepUnfilled (filled : gmap OrderID bool) (l : list orderExpiration)
    : list orderExpiration :=
  List.filter (fun exp => negb (isFilled filled (oe_ID exp))) l.

(** The test [removed == toRemove] under which the loop body goes on to
    the next round without calling [State.RemoveOrderExpirations]. *)
Definition skipsPersisted (expirations newExpirations : list orderExpiration)
    (toRemove : Z) : bool :=
  let removed := Z.of_nat (length newExpirations) - Z.of_nat (length expirations) in
  removed =? toRemove.

(** The body of the second loop of [removeFilledOrderFromExpiration]. *)
Definition removeFilled_round (filled : gmap OrderID bool) (t : Transition)
    (e : Z * Z) : Transition :=
  let '(round, toRemove) := e in
  let staged := default [] (expirations t !! round) in
  let newExpirations := keepUnfilled filled staged in
  let t := set_expirations t (<[round := newExpirations]> (expirations t)) in
  if skipsPersisted staged newExpirations toRemove then t
  else set_state t (State_RemoveOrderExpirations (state t) round filled).

(** [removeFilledOrderFromExpiration]. *)
Definition removeFilledOrderFromExpiration (ro : RangeOrder) (t : Transition)
    : Transition :=
  let '(rounds, filled) := countFilled (filledOrders t) in
  rangeMap ro rounds (removeFilled_round filled) t.

(** [recordOrderExpirations]. *)
Definition recordOrderExpirations (ro : RangeOrder) (t : Transition) : Transition :=
  rangeMap ro (expirations t)
    (fun t '(expireRound, ids) =>
       set_state t (State_AddOrderExpirations (state t) expireRound ids))
    t.

(** [saveDirtyOrderBooks]. *)
Definition saveDirtyOrderBooks (ro : RangeOrder) (t : Transition) : Transition :=
  rangeMap ro (orderBooks t)
    (fun t '(m, b) =>
       if default false (dirtyOrderBooks t !! m)
       then set_state t (State_saveOrderBook (state t) m b)
       else t)
    t.

(** The position of the first element of [frozen[]] with the quantity:
    the search loop of [releaseTokens], [None] for the index [-1]. *)
Fixpoint indexOfQuant (q : Z) (l : list Frozen) : option nat :=
  match l with
  | [] => None
  | f :: rest =>
      if fz_Quant f =? q then Some 0%nat else S <$> indexOfQuant q rest
  end.

(** The body of the loop of [releaseTokens]. The map [addrToAcc] only
    remembers the accounts [State.Account] already returned. *)
Definition releaseTokens_entry (t : Transition) (token : freezeTokenEntry)
    : outcome Transition :=
  acc ← deref t (ft_Addr token);
  let b := Account_Balance acc (ft_TokenID token) in
  match indexOfQuant (ft_Quant token) (bal_Frozen b) with
  | None => Panic
  | Some removeIdx =>
      match bal_Frozen b !! removeIdx with
      | None => Panic
      | Some f =>
          let b := set_bal_Frozen b
                     (take removeIdx (bal_Frozen b) ++ drop (S removeIdx) (bal_Frozen b)) in
          let b := set_bal_Available b (wrap64 (bal_Available b + fz_Quant f)) in
          Ok (store t (ft_Addr token) (Account_UpdateBalance acc (ft_TokenID token) b))
      end
  end.

(** [releaseTokens]. *)
Definition releaseTokens (t : Transition) : outcome Transition :=
  let tokens := State_GetFreezeTokens (state t) (wrap64 (round t + 1)) in
  forEach releaseTokens_entry tokens t.

(** The body of the loop of [expireOrders]. *)
Definition expireOrders_entry (t : Transition) (o : orderExpiration)
    : outcome Transition :=
  let market := oid_Market (oe_ID o) in
  let '(t, book) := getOrderBook t market in
  let t := set_orderBooks t (<[market := Cancel book (oid_ID (oe_ID o))]> (orderBooks t)) in
  let t := set_dirtyOrderBooks t (<[market := true]> (dirtyOrderBooks t)) in
  acc ← deref t (oe_Owner o);
  match Account_PendingOrder acc (oe_ID o) with
  | None => Panic
  | Some order =>
      let t := store t (oe_Owner o) (Account_RemovePendingOrder acc (oe_ID o)) in
      refundAfterCancel t (oe_Owner o) order market
  end.

(** [expireOrders]. *)
Definition expireOrders (t : Transition) : outcome Transition :=
  let orders := State_GetOrderExpirations (state t) (wrap64 (round t + 1)) in
  forEach expireOrders_entry orders t.

(** [finalizeState]; its [round] argument is not read by the source. *)
Definition finalizeState (ro : RangeOrder) (t : Transition) (round : Z)
    : outcome Transition :=
  if finalized t then Ok t else
  let t := removeFilledOrderFromExpiration ro t in
  let t := recordOrderExpirations ro t in
  t ← expireOrders t;
  let t := saveDirtyOrderBooks ro t in
  t ← releaseTokens t;
  let t := set_state t (State_CommitCache (state t)) in
  Ok (set_finalized t true).

(** [StateHash]. *)
Definition StateHash (ro : RangeOrder) (t : Transition) : outcome (Transition * list Z) :=
  t ← finalizeState ro t (round t);
  Ok (t, State_Hash (state t)).

(** One round from a prior state: a fresh transition, the batch recorded
    in order, then the state hash. *)
Definition roundHash (ro : RangeOrder) (prior : State) (round : Z) (batch : list Txn)
    : outcome (list Z) :=
  '(t, _) ← RecordTxns (newTransition prior round) batch 0;
  '(_, h) ← StateHash ro t;
  Ok h.

End Dex.

(** ** The consensus validator (package consensus) *)

Module Consensus.

(** A [float64] weight: the literal [0], or [math.Pow(0.5, float64(rank))]
    kept by its exponent. *)
Inductive weight :=
| WeightZero
| WeightHalfPow (rank : Z).

Record Block := {
  blk_Round : Z;
  blk_Owner : Z;
  blk_NotarizationSig : list Z;
  blk_Payload : list Z;
}.

Record BlockProposal := { bp_Round : Z }.
Record NtShare := { nts_Round : Z }.
Record RandBeaconSig := { rbs_Round : Z }.
Record RandBeaconSigShare := { rbss_Round : Z }.

Record Group := { grp_PK : Z }.

(** Modelled from the spec: the random beacon and the chain are declared
    in other files of the package. The validator consumes [Depth],
    [Committees] (three group indices), [Rank] (a rank, and whether an
    error came with it) and the indexable collection [groups]. *)
Record RandomBeacon := {
  Depth : Z;
  Committees : Z -> Z * Z * Z;
  Rank : Z -> Z -> Z * bool;
  groups : list Group;
}.

Record Chain := {
  chain_Round : Z;
  chain_RandomBeacon : RandomBeacon;
}.

Record validator := { chain : Chain }.

(** The BLS primitives and the block encoding, taken as parameters:
    [Deserialize] yields [None] when it reports an error. *)
Class Crypto := {
  Sign : Type;
  Deserialize : list Z -> option Sign;
  Verify : Sign -> Z -> list Z -> bool;
  Encode : Block -> bool -> list Z;
}.

(** [groups[i]]: the run-time panics when the index is out of range. *)
Definition groupAt (rb : RandomBeacon) (i : Z) : outcome Group :=
  if i <? 0 then Panic
  else match groups rb !! Z.to_nat i with
       | Some g => Ok g
       | None => Panic
       end.

Definition rankToWeight (rank : Z) : outcome weight :=
  if rank <? 0 then Panic
  else Ok (WeightHalfPow rank).

(** The argument of a predicate is a pointer ([*Block], [*BlockProposal],
    ...): [None] stands for [nil]. Reading a field through it ([b.Round])
    panics on [nil]; no predicate tests its argument before the first
    read. The validator itself is the one [newValidator] builds over a
    chain, taken with its chain and random beacon in place. *)
Definition load {A : Type} (p : option A) : outcome A :=
  match p with
  | Some a => Ok a
  | None => Panic
  end.

Section Validators.
Context `{Crypto}.

Definition ValidateBlock (v : validator) (b : option Block) : outcome (weight * bool) :=
  let rb := chain_RandomBeacon (chain v) in
  let depth := Depth rb in
  b ← load b;
  if depth <? blk_Round b then Ok (WeightZero, false) else
  match Deserialize (blk_NotarizationSig b) with
  | None => Ok (WeightZero, false)
  | Some sign =>
      let msg := Encode b false in
      let '(_, _, nt) := Committees rb (blk_Round b) in
      g ← groupAt rb nt;
      let success := Verify sign (grp_PK g) msg in
      if negb success then Ok (WeightZero, false) else
      let '(rank, err) := Rank rb (blk_Owner b) (blk_Round b) in
      if err then Ok (WeightZero, false) else
      w ← rankToWeight rank;
      Ok (w, true)
  end.

Definition ValidateBlockProposal (v : validator) (bp : option BlockProposal)
    : outcome (weight * bool) :=
  let round := chain_Round (chain v) in
  bp ← load bp;
  if negb (bp_Round bp =? round) then Ok (WeightZero, false)
  else Ok (WeightZero, true).

Definition ValidateNtShare (v : validator) (n : option NtShare) : outcome (Z * bool) :=
  let round := chain_Round (chain v) in
  n ← load n;
  if negb (nts_Round n =? round) then Ok (0, false) else
  let '(_, _, nt) := Committees (chain_RandomBeacon (chain v)) round in
  Ok (nt, true).

Definition ValidateRandBeaconSig (v : validator) (r : option RandBeaconSig)
    : outcome bool :=
  let targetDepth := Depth (chain_RandomBeacon (chain v)) in
  r ← load r;
  if negb (rbs_Round r =? targetDepth) then Ok false
  else Ok true.

Definition ValidateRandBeaconSigShare (v : validator) (r : option RandBeaconSigShare)
    : outcome (Z * bool) :=
  let targetDepth := Depth (chain_RandomBeacon (chain v)) in
  r ← load r;
  if negb (rbss_Round r =? targetDepth) then Ok (0, false) else
  let '(rb, _, _) := Committees (chain_RandomBeacon (chain v)) targetDepth in
  Ok (rb, true).

(** The interface assumptions on the beacon. *)
Definition rank_nonneg (rb : RandomBeacon) : Prop :=
  forall owner round rank, Rank rb owner round = (rank, false) -> 0 <= rank.

Definition committees_in_range (rb : RandomBeacon) : Prop :=
  forall round a b nt, Committees rb round = (a, b, nt) ->
    0 <= nt < Z.of_nat (length (groups rb)).

End Validators.

End Consensus.

(** ** Vocabulary of the statements *)

(** [b'] is [b] after a refund of [amount] from pending to available. *)
Definition refunded (b : Balance) (amount : Z) (b' : Balance) : Prop :=
  bal_Pending b' = bal_Pending b - amount
  /\ bal_Available b' = wrap64 (bal_Available b + amount)
  /\ bal_Frozen b' = bal_Frozen b.

(** What is left of a pending order: quant - executed. *)
Definition remaining (p : PendingOrder) : Z :=
  ord_Quant (po_Order p) - po_Executed p.

(** ** A concrete setting, to run the operations *)

(** [strings.ToUpper] on ASCII text. *)
Definition upperAscii (c : Ascii.ascii) : Ascii.ascii :=
  let n := Ascii.nat_of_ascii c in
  if ((97 <=? n) && (n <=? 122))%nat then Ascii.ascii_of_nat (n - 32) else c.

Fixpoint asciiToUpper (s : string) : string :=
  match s with
  | EmptyString => EmptyString
  | String c rest => String (upperAscii c) (asciiToUpper rest)
  end.

(** The constants of the end-to-end scenarios: [OrderPriceDecimals = 8];
    an address is the key itself; the out-of-range conversion is the one
    of the amd64 back end. *)
Definition ambient8 : Ambient :=
  {| OrderPriceDecimals := 8;
     pow10_out_of_range := fun _ => 2 ^ 63;
     ToUpper := asciiToUpper;
     pk_addr := fun pk => pk |}.

(** Modelled from the spec: the order book is declared in another file of
    the package. A price-time priority limit book: [Limit] assigns the
    next id of the book and crosses the incoming order with the best
    resting orders of the other side while their price is acceptable, at
    the maker's price, for the smaller of the two remaining quantities,
    emitting one execution for the maker and one for the taker; the rest
    of the incoming order is inserted on its own side after the resting
    orders of equal or better price. [Cancel] removes the id. *)
Module SimpleBook.

Record resting := {
  r_ID : Z;
  r_Owner : Z;
  r_Price : Z;
  r_Quant : Z;
}.

Record book := {
  nextID : Z;
  bids : list resting;
  asks : list resting;
}.

Definition crossing (makerID makerOwner takerID takerOwner : Z) (takerSells : bool)
    (price quant : Z) : list Execution :=
  [ {| ex_ID := makerID; ex_Owner := makerOwner; ex_SellSide := negb takerSells;
       ex_Price := price; ex_Quant := quant; ex_Taker := false |};
    {| ex_ID := takerID; ex_Owner := takerOwner; ex_SellSide := takerSells;
       ex_Price := price; ex_Quant := quant; ex_Taker := true |} ].

(** Crosses a taker with the resting orders of the other side, best
    first; returns the executions, what stays of that side, and what is
    left of the taker. *)
Fixpoint cross (takerID takerOwner : Z) (takerSells : bool) (limit remaining : Z)
    (side : list resting) : list Execution * list resting * Z :=
  match side with
  | [] => ([], [], remaining)
  | m :: rest =>
      let acceptable := if takerSells then limit <=? r_Price m else r_Price m <=? limit in
      if (remaining =? 0) || negb acceptable then ([], side, remaining)
      else
        let q := Z.min remaining (r_Quant m) in
        let es := crossing (r_ID m) (r_Owner m) takerID takerOwner takerSells (r_Price m) q in
        if q =? r_Quant m then
          let '(es', side', remain) :=
            cross takerID takerOwner takerSells limit (remaining - q) rest in
          (es ++ es', side', remain)
        else
          (es, {| r_ID := r_ID m; r_Owner := r_Owner m; r_Price := r_Price m;
                  r_Quant := r_Quant m - q |} :: rest, remaining - q)
  end.

(** Inserts after the resting orders that come first: higher prices
    first among bids, lower prices first among asks, earlier first at the
    same price. *)
Fixpoint insertResting (isBid : bool) (o : resting) (side : list resting) : list resting :=
  match side with
  | [] => [o]
  | m :: rest =>
      let before := if isBid then r_Price o <=? r_Price m else r_Price m <=? r_Price o in
      if before then m :: insertResting isBid o rest else o :: side
  end.

Definition limit (b : book) (o : Order) : Z * list Execution * book :=
  let id := nextID b in
  let other := if ord_SellSide o then bids b else asks b in
  let '(es, other', remain) :=
    cross id (ord_Owner o) (ord_SellSide o) (ord_Price o) (ord_Quant o) other in
  let own := if ord_SellSide o then asks b else bids b in
  let own' :=
    if remain =? 0 then own
    else insertResting (negb (ord_SellSide o))
           {| r_ID := id; r_Owner := ord_Owner o; r_Price := ord_Price o; r_Quant := remain |}
           own in
  (id, es,
   if ord_SellSide o
   then {| nextID := id + 1; bids := other'; asks := own' |}
   else {| nextID := id + 1; bids := own'; asks := other' |}).

Definition cancel (b : book) (id : Z) : book :=
  {| nextID := nextID b;
     bids := List.filter (fun m => negb (r_ID m =? id)) (bids b);
     asks := List.filter (fun m => negb (r_ID m =? id)) (asks b) |}.

Definition ops : OrderBookOps :=
  {| orderBook := book;
     newOrderBook := {| nextID := 0; bids := []; asks := [] |};
     Limit := limit;
     Cancel := cancel |}.

End SimpleBook.

(** The nonce check of the scenarios: the sender's account, always ready
    and valid unless the nonce is negative; a nonce above 100 is a gap. *)
Definition validateNonce0 `{OrderBookOps} (s : State) (txn : Txn) : Z * bool * bool :=
  (txn_Sender txn, txn_Nonce txn <=? 100, 0 <=? txn_Nonce txn).

(** A stand-in for the state root: the available balances of the
    accounts in address order, then the lengths of the two schedules. *)
Definition stateHash0 `{OrderBookOps} (s : State) : list Z :=
  concat (map (fun e : Z * Account =>
                 e.1 :: map (fun b : Z * Balance => bal_Available b.2)
                          (map_to_list (acc_balances e.2)))
              (map_to_list (st_accounts s)))
  ++ [Z.of_nat (size (st_orderExpirations s)); Z.of_nat (size (st_freezeTokens s))].

(** Two ways of ranging over a map: in the order of the listing, and
    backwards. *)
Definition forwards : RangeOrder := {| range_order := fun K A l => l |}.
Definition backwards : RangeOrder := {| range_order := fun K A l => rev l |}.

(** ** The data of the end-to-end scenarios

    Market (base = token 0, quote = token 1), both with 0 decimals;
    account A at address 1 holds 10 base units, account B at address 2
    holds 10 quote units; the round is 7. *)

Module Scenario.
#[local] Existing Instance ambient8.
#[local] Existing Instance SimpleBook.ops.

Definition token (symbol : string) (decimals total : Z) : TokenInfo :=
  {| ti_Symbol := symbol; ti_Decimals := decimals; ti_TotalUnits := total |}.

Definition holding (pk id amount : Z) : Account :=
  Account_UpdateBalance (newAccount pk) id
    {| bal_Available := amount; bal_Pending := 0; bal_Frozen := [] |}.

Definition prior : State :=
  {| st_accounts := <[1 := holding 1 0 10]> (<[2 := holding 2 1 10]> ∅);
     st_tokens := <[0 := token "T1" 0 10]> (<[1 := token "T2" 0 10]> ∅);
     st_orderBooks := ∅;
     st_orderExpirations := ∅;
     st_freezeTokens := ∅ |}.

Definition market : MarketSymbol := {| Base := 0; Quote := 1 |}.

Definition from (sender : Z) (d : Decoded) : Txn :=
  {| txn_Raw := [sender]; txn_Sender := sender; txn_Nonce := 0; txn_Decoded := d |}.

Definition place (sender : Z) (sell : bool) (quant price expire : Z) : Txn :=
  from sender
    (IsPlaceOrderTxn {| pot_SellSide := sell; pot_Quant := quant; pot_Price := price;
                        pot_ExpireRound := expire; pot_Market := market |}).

(** The transition of round 7 once a batch is recorded. *)
Definition after (batch : list Txn) : Transition :=
  match RecordTxns validateNonce0 (newTransition prior 7) batch 0 with
  | Ok (t, _) => t
  | Panic => newTransition prior 7
  end.

Definition accountOf (t : Transition) (addr : Z) : Account :=
  default (newAccount addr) (State_Account (state t) addr).

(** B has placed BUY 5 at limit 2 * 10^8 (10 quote units reserved), order
    id 1, and is about to be filled at the maker's price 10^8. *)
Definition buyOrder : PendingOrder :=
  {| po_ID := {| oid_ID := 1; oid_Market := market |};
     po_Order := {| ord_Owner := 2; ord_SellSide := false; ord_Quant := 5;
                    ord_Price := 200000000; ord_ExpireRound := 0 |};
     po_Executed := 0 |}.

Definition buyerReserved : Account :=
  Account_UpdatePendingOrder
    (Account_UpdateBalance (newAccount 2) 1
       {| bal_Available := 0; bal_Pending := 10; bal_Frozen := [] |})
    buyOrder.

Definition beforeFill : Transition := store (newTransition prior 7) 2 buyerReserved.

Definition fill : Execution :=
  {| ex_ID := 1; ex_Owner := 2; ex_SellSide := false; ex_Price := 100000000;
     ex_Quant := 5; ex_Taker := true |}.

(** A holds three frozen entries of token 0, two of them of quant 100;
    one thaw of 100 is scheduled at round 10; the round is 9. *)
Definition frozenHolder : Account :=
  Account_UpdateBalance (newAccount 1) 0
    {| bal_Available := 0; bal_Pending := 0;
       bal_Frozen := [ {| fz_AvailableRound := 10; fz_Quant := 50 |};
                       {| fz_AvailableRound := 10; fz_Quant := 100 |};
                       {| fz_AvailableRound := 12; fz_Quant := 100 |} ] |}.

Definition thaw : freezeTokenEntry := {| ft_Addr := 1; ft_TokenID := 0; ft_Quant := 100 |}.

Definition beforeThaw : Transition :=
  newTransition
    {| st_accounts := <[1 := frozenHolder]> ∅;
       st_tokens := <[0 := token "T1" 0 250]> ∅;
       st_orderBooks := ∅;
       st_orderExpirations := ∅;
       st_freezeTokens := <[10 := [thaw]]> ∅ |}
    9.

(** The batches and transactions of the scenarios. *)
Definition cancelA : CancelOrderTxn :=
  {| cot_ID := {| oid_ID := 0; oid_Market := market |} |}.

Definition partlyFilled : Transition :=
  after [place 1 true 10 100000000 0; place 2 false 4 100000000 0].

Definition issueUpper : IssueTokenTxn := {| itt_Info := token "ABC" 2 1000 |}.
Definition issueLower : IssueTokenTxn := {| itt_Info := token "abc" 2 1000 |}.

Definition issued : Transition := after [from 1 (IsIssueTokenTxn issueUpper)].

Definition sendSelf : SendTokenTxn :=
  {| stt_TokenID := 0; stt_To := 1; stt_Quant := 3 |}.

(** A issues token T (id 2) and sends 300 units of it to B. *)
Definition issueAndSend : list Txn :=
  [from 1 (IsIssueTokenTxn {| itt_Info := token "T" 2 1000 |});
   from 1 (IsSendTokenTxn {| stt_TokenID := 2; stt_To := 2; stt_Quant := 300 |})].

(** A freezes 4 units of token 0 until round 10. *)
Definition freezeUntil10 : list Txn :=
  [from 1 (IsFreezeTokenTxn {| ftt_TokenID := 0; ftt_AvailableRound := 10;
                               ftt_Quant := 4 |})].

(** A sells 5 at 10^8 with expire round 9; B buys 5 at limit 2 * 10^8:
    both orders are filled within the round. *)
Definition crossed : list Txn :=
  [place 1 true 5 100000000 9; place 2 false 5 200000000 0].

(** Orders that rest, in two markets and with two expire rounds. *)
Definition resting : list Txn :=
  [place 1 true 2 300000000 9; place 1 true 3 400000000 12;
   from 2 (IsPlaceOrderTxn {| pot_SellSide := true; pot_Quant := 4;
                              pot_Price := 100000000; pot_ExpireRound := 9;
                              pot_Market := {| Base := 1; Quote := 0 |} |})].

(** *** Reservations narrowed to 64 bits

    A has a resting SELL 5 at 10^8. B places BUY 2^63 + 1 at 2 * 10^8:
    the quote amount to reserve is 2^64 + 2, of which [calcQuoteQuant]
    returns the low 64 bits, 2. The order crosses the ask of A for 5
    units at the trade price 10^8. *)
Definition askResting : Transition := after [place 1 true 5 100000000 0].

Definition hugeBuy : Txn := place 2 false 9223372036854775809 200000000 0.

Definition hugeOrder : PendingOrder :=
  {| po_ID := {| oid_ID := 1; oid_Market := market |};
     po_Order := {| ord_Owner := 2; ord_SellSide := false;
                    ord_Quant := 9223372036854775809;
                    ord_Price := 200000000; ord_ExpireRound := 0 |};
     po_Executed := 0 |}.

(** The account of B once [placeOrder] has reserved and registered the
    order: 2 quote units pending. *)
Definition underReserved : Account :=
  Account_UpdatePendingOrder
    (Account_UpdateBalance (newAccount 2) 1
       {| bal_Available := 8; bal_Pending := 2; bal_Frozen := [] |})
    hugeOrder.

Definition beforeHugeFill : Transition := store askResting 2 underReserved.

Definition hugeFill : Execution :=
  {| ex_ID := 1; ex_Owner := 2; ex_SellSide := false; ex_Price := 100000000;
     ex_Quant := 5; ex_Taker := true |}.

(** A has a resting SELL 1 at 3.5 * 10^8. B places BUY
    10540996613548315210 at 3.5 * 10^8: the amount to reserve is
    2^65 + 3, narrowed to 3. One unit is filled against A, which uses up
    the 3 units reserved; the order stays pending with one unit executed,
    and B cancels it (order id 1). *)
Definition narrowFilled : Transition :=
  after [place 1 true 1 350000000 0;
         place 2 false 10540996613548315210 350000000 0].

Definition cancelB : CancelOrderTxn :=
  {| cot_ID := {| oid_ID := 1; oid_Market := market |} |}.

Definition narrowOrder : PendingOrder :=
  {| po_ID := cot_ID cancelB;
     po_Order := {| ord_Owner := 2; ord_SellSide := false;
                    ord_Quant := 10540996613548315210;
                    ord_Price := 350000000; ord_ExpireRound := 0 |};
     po_Executed := 1 |}.

(** *** The validator *)

Definition crypto0 : Consensus.Crypto :=
  {| Consensus.Sign := list Z;
     Consensus.Deserialize := fun bytes => match bytes with [] => None | _ => Some bytes end;
     Consensus.Verify := fun sign pk msg => bool_decide (sign = pk :: msg);
     Consensus.Encode := fun b _ => Consensus.blk_Payload b |}.

(** A beacon at depth 10 that ranks every owner 0, with the given groups. *)
Definition beacon (gs : list Consensus.Group) : Consensus.RandomBeacon :=
  {| Consensus.Depth := 10;
     Consensus.Committees := fun _ => (0, 0, 0);
     Consensus.Rank := fun _ _ => (0, false);
     Consensus.groups := gs |}.

Definition validatorOf (gs : list Consensus.Group) : Consensus.validator :=
  {| Consensus.chain := {| Consensus.chain_Round := 11;
                           Consensus.chain_RandomBeacon := beacon gs |} |}.

Definition block3 : Consensus.Block :=
  {| Consensus.blk_Round := 3; Consensus.blk_Owner := 1;
     Consensus.blk_NotarizationSig := [5; 42]; Consensus.blk_Payload := [42] |}.

End Scenario.

(** ** Vocabulary of the further statements *)

Definition frozenTotal (l : list Frozen) : Z :=
  foldr (fun f total => fz_Quant f + total) 0 l.

(** What an account holds of a token, over the three buckets. *)
Definition holdings (b : Balance) : Z :=
  bal_Available b + bal_Pending b + frozenTotal (bal_Frozen b).

(** The buckets are non-negative and their sum fits a [uint64]. *)
Definition wellFormed (b : Balance) : Prop :=
  0 <= bal_Available b /\ 0 <= bal_Pending b
  /\ Forall (fun f => 0 <= fz_Quant f) (bal_Frozen b)
  /\ holdings b < two64.

(** Some order of the list has the id and an expire round. *)
Definition filledWithExpiry (orders : list PendingOrder) (id : OrderID) : bool :=
  existsb (fun o => bool_decide (po_ID o = id)
                    && negb (ord_ExpireRound (po_Order o) =? 0)) orders.

(** Some order of the list expires at the round, the round not being 0. *)
Definition expiresAt (orders : list PendingOrder) (r : Z) : bool :=
  existsb (fun o => (ord_ExpireRound (po_Order o) =? r) && negb (r =? 0)) orders.

Section FurtherVocabulary.
Context `{OrderBookOps}.

(** [t'] differs from [t] at most in the accounts of the state. *)
Definition onlyAccounts (t t' : Transition) : Prop :=
  t' = set_state t (set_st_accounts (state t) (st_accounts (state t'))).

(** [t'] differs from [t] at most in the accounts of the state and in the
    list of filled orders. *)
Definition onlyAccountsAndFilled (t t' : Transition) : Prop :=
  t' = set_filledOrders
         (set_state t (set_st_accounts (state t) (st_accounts (state t'))))
         (filledOrders t').

(** The order is not (or no longer) in the pending set of the account at
    the address, or there is no account there. *)
Definition notPending (t : Transition) (addr : Z) (id : OrderID) : Prop :=
  forall acc, State_Account (state t) addr = Some acc ->
              Account_PendingOrder acc id = None.

End FurtherVocabulary.

Section TokenVocabulary.
Context `{Ambient} `{OrderBookOps}.

(** The tokens staged in a transition are numbered from the size of the
    token cache on, in the order of their creation; the state holds each
    under its id; no two of them have the same symbol up to case, and
    none has the symbol of a token of the cache. *)
Definition stagedApart (t : Transition) : Prop :=
  (forall k v, tokenCreations t !! k = Some v ->
     tk_ID v = TokenCache_Size (tokenCache t) + Z.of_nat k
     /\ st_tokens (state t) !! tk_ID v = Some (tk_Info v))
  /\ (forall j k v w, tokenCreations t !! j = Some v -> tokenCreations t !! k = Some w ->
        ToUpper (ti_Symbol (tk_Info v)) = ToUpper (ti_Symbol (tk_Info w)) -> j = k)
  /\ (forall v, v ∈ tokenCreations t ->
        TokenCache_Exists (tokenCache t) (ti_Symbol (tk_Info v)) = false).

(** [t'] has the staged tokens, the token cache and the tokens of the
    state that [t] has. *)
Definition sameTokens (t t' : Transition) : Prop :=
  tokenCreations t' = tokenCreations t
  /\ tokenCache t' = tokenCache t
  /\ st_tokens (state t') = st_tokens (state t).

End TokenVocabulary.

(** ** The data of the further scenarios

    The market, the tokens and the accounts of [Scenario], at round 7. *)

Module Cases.
Import Scenario.
#[local] Existing Instance ambient8.
#[local] Existing Instance SimpleBook.ops.

Definition start : Transition := newTransition prior 7.

(** The transition an operation returns, [start] if it panics. *)
Definition ran {A : Type} (o : outcome (Transition * A)) : Transition :=
  match o with
  | Ok (t, _) => t
  | Panic => start
  end.

(** A has a resting SELL 5 at 10^8 (order id 0, 5 base units reserved)
    which is about to be filled at its price. *)
Definition sellOrder : PendingOrder :=
  {| po_ID := {| oid_ID := 0; oid_Market := market |};
     po_Order := {| ord_Owner := 1; ord_SellSide := true; ord_Quant := 5;
                    ord_Price := 100000000; ord_ExpireRound := 0 |};
     po_Executed := 0 |}.

Definition sellerReserved : Account :=
  Account_UpdatePendingOrder
    (Account_UpdateBalance (newAccount 1) 0
       {| bal_Available := 5; bal_Pending := 5; bal_Frozen := [] |})
    sellOrder.

Definition beforeSale : Transition := store start 1 sellerReserved.

Definition sale : Execution :=
  {| ex_ID := 0; ex_Owner := 1; ex_SellSide := true; ex_Price := 100000000;
     ex_Quant := 5; ex_Taker := false |}.

(** The buy order of [Scenario.beforeFill], filled. *)
Definition afterFill : Transition :=
  match placeOrder_execution market (token "T1" 0 10) (token "T2" 0 10) 7 beforeFill fill with
  | Ok t => t
  | Panic => beforeFill
  end.

(** A places SELL 2 at 3 * 10^8 with expire round 9 on the empty book. *)
Definition restTxn : PlaceOrderTxn :=
  {| pot_SellSide := true; pot_Quant := 2; pot_Price := 300000000;
     pot_ExpireRound := 9; pot_Market := market |}.

Definition rested : Transition := ran (placeOrder start 1 restTxn 7).

(** A sell order without quantity. *)
Definition emptyTxn : PlaceOrderTxn :=
  {| pot_SellSide := true; pot_Quant := 0; pot_Price := 300000000;
     pot_ExpireRound := 0; pot_Market := market |}.

(** The remainder of the partly filled order of A, as [cancelOrder] finds
    it, and the same order once nothing remains of it. *)
Definition remainder : PendingOrder :=
  {| po_ID := cot_ID cancelA;
     po_Order := {| ord_Owner := 1; ord_SellSide := true; ord_Quant := 10;
                    ord_Price := 100000000; ord_ExpireRound := 0 |};
     po_Executed := 4 |}.

Definition exhausted : PendingOrder := set_po_Executed remainder 10.

Definition cancelled : Transition := ran (cancelOrder partlyFilled 1 cancelA).

(** A places an order that expires at round 8 and cancels it in the same
    round. *)
Definition placedThenCancelled : Transition :=
  after [place 1 true 2 300000000 8; from 1 (IsCancelOrderTxn cancelA)].

Definition staleEntry : orderExpiration :=
  {| oe_ID := cot_ID cancelA; oe_Owner := 1 |}.

(** A sends 3 units of token 0 to B; A freezes 4 units of token 0 until
    round 10. *)
Definition sendToB : SendTokenTxn :=
  {| stt_TokenID := 0; stt_To := 2; stt_Quant := 3 |}.

Definition freeze4 : FreezeTokenTxn :=
  {| ftt_TokenID := 0; ftt_AvailableRound := 10; ftt_Quant := 4 |}.

Definition frozen4 : Transition := ran (freezeToken start 1 freeze4).

(** A thaw of 70 units is scheduled for the holder of [Scenario], none of
    whose frozen entries has that quantity. *)
Definition thaw70 : freezeTokenEntry := {| ft_Addr := 1; ft_TokenID := 0; ft_Quant := 70 |}.

Definition beforeBadThaw : Transition :=
  newTransition
    {| st_accounts := <[1 := frozenHolder]> ∅;
       st_tokens := <[0 := token "T1" 0 250]> ∅;
       st_orderBooks := ∅;
       st_orderExpirations := ∅;
       st_freezeTokens := <[10 := [thaw70]]> ∅ |}
    9.

(** The round of [Scenario.resting], finalized. *)
Definition finalizedRound : Transition :=
  match finalizeState forwards (after resting) 7 with
  | Ok t => t
  | Panic => after resting
  end.

(** A batch whose second transaction, a transfer of nothing, is refused. *)
Definition refused : Txn :=
  from 1 (IsSendTokenTxn {| stt_TokenID := 0; stt_To := 2; stt_Quant := 0 |}).

Definition brokenBatch : list Txn :=
  [place 1 true 2 300000000 9; refused; place 1 true 3 400000000 12].

End Cases.

(** * Properties *)

(** ** Conversion of base quantities to quote quantities *)

Section ArithmeticFacts.
Context `{Ambient}.

Lemma Pow10U64_exact (d : Z) : 0 <= d <= 19 -> Pow10U64 d = 10 ^ d.
Proof.
  intros Hd. unfold Pow10U64.
  destruct (Z.leb_spec 0 d), (Z.leb_spec d 19); simpl; lia.
Qed.

Lemma pow10_pos (d : Z) : 0 <= d -> 0 < 10 ^ d.
Proof. intros. apply Z.pow_pos_nonneg; lia. Qed.

Lemma bigUint64_small (x : Z) : 0 <= x < two64 -> bigUint64 x = x.
Proof. intros. unfold bigUint64. apply Z.mod_small. done. Qed.

(** With denominators that fit 64 bits, the call returns the low 64 bits
    of the formula. *)
Lemma calcQuoteQuant_low64 (base qd price pd bd : Z) :
  0 <= OrderPriceDecimals <= 19 -> 0 <= qd <= 19 -> 0 <= bd <= 19 ->
  0 <= base -> 0 <= price ->
  calcQuoteQuant base qd price pd bd
  = Ok (wrap64 (quoteFormula base qd price OrderPriceDecimals bd)).
Proof.
  intros Hopd Hqd Hbd Hb Hp. unfold calcQuoteQuant, bigDiv, quoteFormula.
  rewrite !Pow10U64_exact by lia.
  pose proof (pow10_pos bd ltac:(lia)) as Hbd'.
  assert (0 < 10 ^ OrderPriceDecimals) as Hopd' by (apply pow10_pos; lia).
  pose proof (pow10_pos qd ltac:(lia)) as Hqd'.
  destruct (Z.eqb_spec (10 ^ bd) 0); [lia|]. simpl.
  destruct (Z.eqb_spec (10 ^ OrderPriceDecimals) 0); [lia|]. simpl.
  f_equal. unfold bigUint64, wrap64. f_equal.
  rewrite Z.quot_div_nonneg by nia.
  rewrite Z.div_div by lia. done.
Qed.

Lemma calcQuoteQuant_range (base qd price pd bd r : Z) :
  calcQuoteQuant base qd price pd bd = Ok r -> 0 <= r < two64.
Proof.
  unfold calcQuoteQuant, bigDiv.
  destruct (Pow10U64 bd =? 0); simpl; [discriminate|].
  destruct (Pow10U64 OrderPriceDecimals =? 0); simpl; [discriminate|].
  intros [= <-]. unfold bigUint64. apply Z.mod_pos_bound. done.
Qed.

(** C2. When the token decimals are at most 18 and the quotient
    (base * 10^quoteDecimals * price) / (10^baseDecimals *
    10^OrderPriceDecimals), truncated toward zero and taken in unbounded
    integers, fits 64 bits, [calcQuoteQuant] returns exactly that quotient.
    [OrderPriceDecimals] is the package constant, whose power of ten fits
    a [uint64]. *)
Theorem calcQuoteQuant_exact (base quoteDecimals price baseDecimals : Z) :
  0 <= OrderPriceDecimals <= 19 ->
  0 <= quoteDecimals <= 18 -> 0 <= baseDecimals <= 18 ->
  is_uint64 base -> is_uint64 price ->
  quoteFormula base quoteDecimals price OrderPriceDecimals baseDecimals < two64 ->
  calcQuoteQuant base quoteDecimals price OrderPriceDecimals baseDecimals
  = Ok (quoteFormula base quoteDecimals price OrderPriceDecimals baseDecimals).
Proof.
  intros Hopd Hqd Hbd [Hb _] [Hp _] Hfit.
  rewrite calcQuoteQuant_low64 by lia. f_equal.
  apply Z.mod_small. split; [|done].
  unfold quoteFormula. apply Z.quot_pos.
  - pose proof (pow10_pos quoteDecimals ltac:(lia)). nia.
  - pose proof (pow10_pos baseDecimals ltac:(lia)).
    assert (0 < 10 ^ OrderPriceDecimals) by (apply pow10_pos; lia). nia.
Qed.

End ArithmeticFacts.

(** ** Accounts, pointers and balances *)

Section StoreFacts.
Context `{Ambient} `{OrderBookOps}.

Lemma wrap64_small (z : Z) : is_uint64 z -> wrap64 z = z.
Proof. intros. apply Z.mod_small. done. Qed.

Lemma wrap64_range (z : Z) : is_uint64 (wrap64 z).
Proof. apply Z.mod_pos_bound. done. Qed.

Lemma wrap64_add_l (a b : Z) : wrap64 (wrap64 a + b) = wrap64 (a + b).
Proof. unfold wrap64. by rewrite Zplus_mod_idemp_l. Qed.

Lemma wrap64_sub_l (a b : Z) : wrap64 (wrap64 a - b) = wrap64 (a - b).
Proof. unfold wrap64. by rewrite Zminus_mod_idemp_l. Qed.

Lemma deref_Some (t : Transition) (p : Z) (a : Account) :
  State_Account (state t) p = Some a -> deref t p = Ok a.
Proof. unfold deref. by intros ->. Qed.

Lemma deref_Ok (t : Transition) (p : Z) (a : Account) :
  deref t p = Ok a -> State_Account (state t) p = Some a.
Proof. unfold deref. destruct (State_Account _ _); [by intros [= ->]|done]. Qed.

Lemma Account_store_eq (t : Transition) (p : Z) (a : Account) :
  State_Account (state (store t p a)) p = Some a.
Proof. unfold State_Account, store. simpl. apply lookup_insert_eq. Qed.

Lemma Account_store_ne (t : Transition) (p q : Z) (a : Account) :
  p ≠ q -> State_Account (state (store t p a)) q = State_Account (state t) q.
Proof. intros. unfold State_Account, store. simpl. by apply lookup_insert_ne. Qed.

Lemma Balance_update_eq (a : Account) (id : Z) (b : Balance) :
  Account_Balance (Account_UpdateBalance a id b) id = b.
Proof. unfold Account_Balance. simpl. by rewrite lookup_insert_eq. Qed.

Lemma Balance_update_ne (a : Account) (id id' : Z) (b : Balance) :
  id ≠ id' ->
  Account_Balance (Account_UpdateBalance a id b) id' = Account_Balance a id'.
Proof. intros. unfold Account_Balance. simpl. by rewrite lookup_insert_ne. Qed.

End StoreFacts.

(** ** Settlement of an execution *)

Section PlaceOrderFacts.
Context `{Ambient} `{OrderBookOps}.

(** C1. An execution of quantity q at trade price P on a buy order of
    limit price L, in a valid market. When the owner's pending quote
    balance covers calcQuoteQuant(q, L), it goes down by that amount, the
    available quote balance goes up by calcQuoteQuant(q, L) -
    calcQuoteQuant(q, P) and the available base balance goes up by q, in
    [uint64] arithmetic; the last two are exact sums whenever the sums
    fit 64 bits. When the pending quote balance is below
    calcQuoteQuant(q, L), the code panics on its assertion and no balance
    is updated; a reservation that was narrowed to 64 bits leaves the
    pending balance that low. *)
Theorem placeOrder_execution_buy
    (market : MarketSymbol) (baseInfo quoteInfo : TokenInfo) (round : Z)
    (t : Transition) (exec : Execution) (acc : Account) (order : PendingOrder)
    (atLimit atTrade : Z) :
  let orderID := {| oid_ID := ex_ID exec; oid_Market := market |} in
  let quote := Account_Balance acc (Quote market) in
  let base := Account_Balance acc (Base market) in
  MarketSymbol_Valid market = true ->
  State_Account (state t) (ex_Owner exec) = Some acc ->
  Account_PendingOrder acc orderID = Some order ->
  ex_SellSide exec = false ->
  calcQuoteQuant (ex_Quant exec) (ti_Decimals quoteInfo) (ord_Price (po_Order order))
    OrderPriceDecimals (ti_Decimals baseInfo) = Ok atLimit ->
  calcQuoteQuant (ex_Quant exec) (ti_Decimals quoteInfo) (ex_Price exec)
    OrderPriceDecimals (ti_Decimals baseInfo) = Ok atTrade ->
  is_uint64 (bal_Pending quote) ->
  (bal_Pending quote < atLimit ->
   placeOrder_execution market baseInfo quoteInfo round t exec = Panic)
  /\ (atLimit <= bal_Pending quote ->
      exists t' acc',
        placeOrder_execution market baseInfo quoteInfo round t exec = Ok t'
        /\ State_Account (state t') (ex_Owner exec) = Some acc'
        /\ bal_Pending (Account_Balance acc' (Quote market)) = bal_Pending quote - atLimit
        /\ bal_Available (Account_Balance acc' (Quote market))
           = wrap64 (bal_Available quote + (atLimit - atTrade))
        /\ bal_Available (Account_Balance acc' (Base market))
           = wrap64 (bal_Available base + ex_Quant exec)
        /\ (is_uint64 (bal_Available quote + (atLimit - atTrade)) ->
            bal_Available (Account_Balance acc' (Quote market))
            = bal_Available quote + (atLimit - atTrade))
        /\ (is_uint64 (bal_Available base + ex_Quant exec) ->
            bal_Available (Account_Balance acc' (Base market))
            = bal_Available base + ex_Quant exec)).
Proof.
  intros orderID quote base Hvalid Hacc Hord Hbuy HL HP Hty.
  assert (Base market ≠ Quote market) as Hne.
  { unfold MarketSymbol_Valid in Hvalid. destruct (Z.eqb_spec (Base market) (Quote market)); done. }
  pose proof (calcQuoteQuant_range _ _ _ _ _ _ HL) as HLr.
  unfold placeOrder_execution.
  rewrite (deref_Some _ _ _ Hacc). simpl.
  unfold Account_PendingOrder in *. simpl. fold orderID. rewrite Hord. simpl.
  rewrite Hbuy, HL, HP. simpl.
  set (acc1 := if _ =? _ then _ else _).
  assert (Account_Balance acc1.1 (Quote market) = quote
          /\ Account_Balance acc1.1 (Base market) = base) as [Hq Hb].
  { unfold acc1. destruct (_ =? _); done. }
  destruct acc1 as [a1 t1]. simpl in Hq, Hb. rewrite Hq, Hb.
  split; intros Hcover.
  { by destruct (Z.ltb_spec (bal_Pending quote) atLimit); [|lia]. }
  destruct (Z.ltb_spec (bal_Pending quote) atLimit); [lia|].
  eexists _, _. split; [done|]. split; [apply Account_store_eq|].
  rewrite Balance_update_eq.
  rewrite Balance_update_ne, Balance_update_eq by (intros E; by apply Hne).
  simpl.
  assert (wrap64 (wrap64 (bal_Available quote + atLimit) - atTrade)
          = wrap64 (bal_Available quote + (atLimit - atTrade))) as ->.
  { rewrite wrap64_sub_l. f_equal. lia. }
  split; [apply wrap64_small; unfold is_uint64 in *; lia|].
  split; [done|]. split; [done|].
  split; intros; by apply wrap64_small.
Qed.

End PlaceOrderFacts.

(** ** Cancelling an order *)

Section CancelFacts.
Context `{Ambient} `{OrderBookOps}.

Lemma getOrderBook_state (t : Transition) (m : MarketSymbol) :
  state (getOrderBook t m).1 = state t
  /\ tokenCache (getOrderBook t m).1 = tokenCache t.
Proof. unfold getOrderBook. by destruct (orderBooks t !! m). Qed.

Lemma refundAfterCancel_sell (t : Transition) (owner : Z) (acc : Account)
    (cancel : PendingOrder) (market : MarketSymbol) :
  State_Account (state t) owner = Some acc ->
  ord_SellSide (po_Order cancel) = true ->
  is_uint64 (ord_Quant (po_Order cancel)) -> is_uint64 (po_Executed cancel) ->
  0 < remaining cancel ->
  is_uint64 (bal_Pending (Account_Balance acc (Base market))) ->
  remaining cancel <= bal_Pending (Account_Balance acc (Base market)) ->
  exists b',
    refundAfterCancel t owner cancel market
    = Ok (store t owner (Account_UpdateBalance acc (Base market) b'))
    /\ refunded (Account_Balance acc (Base market)) (remaining cancel) b'.
Proof.
  unfold remaining, is_uint64. intros Hacc Hsell Hq He Hr Hty Hcover.
  unfold refundAfterCancel.
  destruct (Z.leb_spec (ord_Quant (po_Order cancel)) (po_Executed cancel)); [lia|].
  rewrite Hsell, (deref_Some _ _ _ Hacc). simpl.
  rewrite (wrap64_small (_ - _)) by (unfold is_uint64; lia).
  destruct (Z.ltb_spec (bal_Pending (Account_Balance acc (Base market)))
              (ord_Quant (po_Order cancel) - po_Executed cancel)); [lia|].
  eexists. split; [done|]. unfold refunded. simpl.
  split; [apply wrap64_small; unfold is_uint64; lia|done].
Qed.

Lemma refundAfterCancel_buy (t : Transition) (owner : Z) (acc : Account)
    (cancel : PendingOrder) (market : MarketSymbol)
    (quoteInfo baseInfo : TokenInfo) (pendingQuant : Z) :
  State_Account (state t) owner = Some acc ->
  ord_SellSide (po_Order cancel) = false ->
  is_uint64 (ord_Quant (po_Order cancel)) -> is_uint64 (po_Executed cancel) ->
  0 < remaining cancel ->
  idToInfo (tokenCache t) !! Quote market = Some quoteInfo ->
  idToInfo (tokenCache t) !! Base market = Some baseInfo ->
  calcQuoteQuant (remaining cancel) (ti_Decimals quoteInfo)
    (ord_Price (po_Order cancel)) OrderPriceDecimals (ti_Decimals baseInfo)
  = Ok pendingQuant ->
  is_uint64 (bal_Pending (Account_Balance acc (Quote market))) ->
  pendingQuant <= bal_Pending (Account_Balance acc (Quote market)) ->
  exists b',
    refundAfterCancel t owner cancel market
    = Ok (store t owner (Account_UpdateBalance acc (Quote market) b'))
    /\ refunded (Account_Balance acc (Quote market)) pendingQuant b'.
Proof.
  unfold remaining, is_uint64. intros Hacc Hbuy Hq He Hr Hqi Hbi Hpq Hty Hcover.
  pose proof (calcQuoteQuant_range _ _ _ _ _ _ Hpq) as Hpqr.
  unfold refundAfterCancel.
  destruct (Z.leb_spec (ord_Quant (po_Order cancel)) (po_Executed cancel)); [lia|].
  rewrite Hbuy, (deref_Some _ _ _ Hacc). simpl.
  rewrite Hqi, Hbi.
  rewrite (wrap64_small (_ - _)) by (unfold is_uint64; lia).
  rewrite Hpq. simpl.
  destruct (Z.ltb_spec (bal_Pending (Account_Balance acc (Quote market))) pendingQuant); [lia|].
  eexists. split; [done|]. unfold refunded. simpl.
  split; [apply wrap64_small; unfold is_uint64; lia|done].
Qed.

Lemma refundAfterCancel_short (t : Transition) (owner : Z) (acc : Account)
    (cancel : PendingOrder) (market : MarketSymbol) (token amount : Z) :
  State_Account (state t) owner = Some acc ->
  is_uint64 (ord_Quant (po_Order cancel)) -> is_uint64 (po_Executed cancel) ->
  0 < remaining cancel ->
  (if ord_SellSide (po_Order cancel)
   then token = Base market /\ amount = remaining cancel
   else token = Quote market
        /\ exists quoteInfo baseInfo,
             idToInfo (tokenCache t) !! Quote market = Some quoteInfo
             /\ idToInfo (tokenCache t) !! Base market = Some baseInfo
             /\ calcQuoteQuant (remaining cancel) (ti_Decimals quoteInfo)
                  (ord_Price (po_Order cancel)) OrderPriceDecimals
                  (ti_Decimals baseInfo) = Ok amount) ->
  bal_Pending (Account_Balance acc token) < amount ->
  refundAfterCancel t owner cancel market = Panic.
Proof.
  unfold remaining, is_uint64. intros Hacc Hq He Hr Hside Hshort.
  unfold refundAfterCancel.
  destruct (Z.leb_spec (ord_Quant (po_Order cancel)) (po_Executed cancel)); [done|].
  rewrite (deref_Some _ _ _ Hacc).
  rewrite (wrap64_small (_ - _)) by (unfold is_uint64; lia).
  destruct (ord_SellSide (po_Order cancel)); simpl.
  - destruct Hside as [-> ->].
    by destruct (Z.ltb_spec (bal_Pending (Account_Balance acc (Base market)))
                   (ord_Quant (po_Order cancel) - po_Executed cancel)); [|lia].
  - destruct Hside as (-> & qi & bi & Hqi & Hbi & Hpq).
    rewrite Hqi, Hbi, Hpq. simpl.
    by destruct (Z.ltb_spec (bal_Pending (Account_Balance acc (Quote market))) amount);
      [|lia].
Qed.

(** C6. [cancelOrder] on an order absent from the owner's pending set
    returns false and leaves the transition as it was. On an order of the
    pending set with remaining r = quant - executed > 0 it returns true:
    the book of the market, after [Cancel] of the id, is stored and marked
    dirty, the order is gone from the pending set, and r base units (sell)
    or calcQuoteQuant(r, ..., order.price, ...) quote units (buy) move from
    pending to available, when the pending balance covers that amount.
    When the pending balance is below it, the code panics on its
    assertion and nothing is refunded; a buy order whose reservation or
    refund was narrowed to 64 bits is in that case. *)
Theorem cancelOrder_refund (t : Transition) (owner : Z) (txn : CancelOrderTxn)
    (acc : Account) :
  let id := cot_ID txn in
  let market := oid_Market id in
  State_Account (state t) owner = Some acc ->
  (Account_PendingOrder acc id = None -> cancelOrder t owner txn = Ok (t, false))
  /\ (forall cancel token amount,
        Account_PendingOrder acc id = Some cancel ->
        is_uint64 (ord_Quant (po_Order cancel)) -> is_uint64 (po_Executed cancel) ->
        0 < remaining cancel ->
        (if ord_SellSide (po_Order cancel)
         then token = Base market /\ amount = remaining cancel
         else token = Quote market
              /\ exists quoteInfo baseInfo,
                   idToInfo (tokenCache t) !! Quote market = Some quoteInfo
                   /\ idToInfo (tokenCache t) !! Base market = Some baseInfo
                   /\ calcQuoteQuant (remaining cancel) (ti_Decimals quoteInfo)
                        (ord_Price (po_Order cancel)) OrderPriceDecimals
                        (ti_Decimals baseInfo) = Ok amount) ->
        is_uint64 (bal_Pending (Account_Balance acc token)) ->
        (bal_Pending (Account_Balance acc token) < amount ->
         cancelOrder t owner txn = Panic)
        /\ (amount <= bal_Pending (Account_Balance acc token) ->
            exists t' acc',
              cancelOrder t owner txn = Ok (t', true)
              /\ orderBooks t' !! market
                 = Some (Cancel (getOrderBook t market).2 (oid_ID id))
              /\ dirtyOrderBooks t' !! market = Some true
              /\ State_Account (state t') owner = Some acc'
              /\ Account_PendingOrder acc' id = None
              /\ refunded (Account_Balance acc token) amount
                   (Account_Balance acc' token))).
Proof.
  intros id market Hacc. split.
  { intros Hpo. unfold cancelOrder. rewrite (deref_Some _ _ _ Hacc). simpl.
    fold id. by rewrite Hpo. }
  intros cancel token amount Hpo Hq He Hr Hside Hty.
  unfold cancelOrder. rewrite (deref_Some _ _ _ Hacc). simpl.
  fold id. rewrite Hpo. fold market.
  destruct (getOrderBook_state t market) as [Hst Htc].
  destruct (getOrderBook t market) as [t1 book] eqn:Hgb. simpl in Hst, Htc.
  set (t2 := set_dirtyOrderBooks _ _).
  assert (State_Account (state t2) owner = Some acc) as Hacc2
    by (unfold t2; simpl; by rewrite Hst).
  rewrite (deref_Some _ _ _ Hacc2). simpl.
  set (acc3 := Account_RemovePendingOrder acc id).
  set (t3 := store t2 owner acc3).
  assert (State_Account (state t3) owner = Some acc3) as Hacc3
    by apply Account_store_eq.
  split; intros Hcover.
  { rewrite (refundAfterCancel_short t3 owner acc3 cancel market token amount);
      try done.
    destruct (ord_SellSide (po_Order cancel)); [done|].
    destruct Hside as (-> & qi & bi & Hqi & Hbi & Hpq).
    split; [done|]. exists qi, bi. unfold t3, t2. simpl. by rewrite Htc. }
  assert (exists b',
    refundAfterCancel t3 owner cancel market
    = Ok (store t3 owner (Account_UpdateBalance acc3 token b'))
    /\ refunded (Account_Balance acc token) amount b') as (b' & Hrf & Hb').
  { destruct (ord_SellSide (po_Order cancel)) eqn:Hs.
    - destruct Hside as [-> ->].
      by apply (refundAfterCancel_sell t3 owner acc3 cancel market).
    - destruct Hside as (-> & qi & bi & Hqi & Hbi & Hpq).
      apply (refundAfterCancel_buy t3 owner acc3 cancel market qi bi); try done.
      + unfold t3, t2. simpl. by rewrite Htc.
      + unfold t3, t2. simpl. by rewrite Htc. }
  rewrite Hrf. simpl.
  eexists _, _. split; [done|].
  split; [unfold t3, t2; simpl; apply lookup_insert_eq|].
  split; [unfold t3, t2; simpl; apply lookup_insert_eq|].
  split; [apply Account_store_eq|].
  split; [unfold Account_PendingOrder, acc3; simpl; apply lookup_delete_eq|].
  by rewrite Balance_update_eq.
Qed.

End CancelFacts.

(** ** Issuing a token *)

Section IssueFacts.
Context `{Ambient} `{OrderBookOps}.

Lemma sameSymbol_true (a b : string) : sameSymbol a b = true <-> ToUpper a = ToUpper b.
Proof. unfold sameSymbol. apply bool_decide_eq_true. Qed.

Lemma TokenCache_Exists_true (c : TokenCache) (s : string) :
  TokenCache_Exists c s = true
  <-> exists id info, idToInfo c !! id = Some info /\ ToUpper s = ToUpper (ti_Symbol info).
Proof.
  unfold TokenCache_Exists. rewrite existsb_exists. split.
  - intros ([id info] & Hin & Hs). exists id, info.
    apply list_elem_of_In, elem_of_map_to_list in Hin.
    split; [done|]. by apply sameSymbol_true.
  - intros (id & info & Hl & Hs). exists (id, info). split.
    + by apply list_elem_of_In, elem_of_map_to_list.
    + by apply sameSymbol_true.
Qed.

Lemma staged_collision_true (s : string) (l : list Token) :
  existsb (fun v => sameSymbol s (ti_Symbol (tk_Info v))) l = true
  <-> exists v, v ∈ l /\ ToUpper s = ToUpper (ti_Symbol (tk_Info v)).
Proof.
  rewrite existsb_exists. split.
  - intros (v & Hin & Hs). exists v. split; [by apply list_elem_of_In|].
    by apply sameSymbol_true.
  - intros (v & Hin & Hs). exists v. split; [by apply list_elem_of_In|].
    by apply sameSymbol_true.
Qed.

(** C7. [issueToken] returns false and leaves the transition as it was
    when the symbol equals, up to case, the symbol of a token of the
    token cache or of a token staged earlier in the transition. Without
    such a collision it returns true: the new id is token_cache.size plus
    the number of staged creations, the token is staged at the end of the
    creations and handed to the state, and the issuer's balance of the
    new id is total_units available, nothing pending or frozen; that is
    total_units more than before for an id the issuer never held. *)
Theorem issueToken_unique_symbol (t : Transition) (owner : Z) (txn : IssueTokenTxn) :
  let symbol := ti_Symbol (itt_Info txn) in
  let id := TokenCache_Size (tokenCache t) + Z.of_nat (length (tokenCreations t)) in
  ((exists i info, idToInfo (tokenCache t) !! i = Some info
                   /\ ToUpper symbol = ToUpper (ti_Symbol info)) ->
   issueToken t owner txn = Ok (t, false))
  /\ ((exists v, v ∈ tokenCreations t
                 /\ ToUpper symbol = ToUpper (ti_Symbol (tk_Info v))) ->
      issueToken t owner txn = Ok (t, false))
  /\ (forall acc,
        (forall i info, idToInfo (tokenCache t) !! i = Some info ->
                        ToUpper symbol ≠ ToUpper (ti_Symbol info)) ->
        (forall v, v ∈ tokenCreations t ->
                   ToUpper symbol ≠ ToUpper (ti_Symbol (tk_Info v))) ->
        State_Account (state t) owner = Some acc ->
        exists t' acc',
          issueToken t owner txn = Ok (t', true)
          /\ tokenCreations t' = tokenCreations t ++ [{| tk_ID := id; tk_Info := itt_Info txn |}]
          /\ st_tokens (state t') !! id = Some (itt_Info txn)
          /\ State_Account (state t') owner = Some acc'
          /\ Account_Balance acc' id
             = {| bal_Available := ti_TotalUnits (itt_Info txn);
                  bal_Pending := 0; bal_Frozen := [] |}
          /\ (acc_balances acc !! id = None ->
              bal_Available (Account_Balance acc' id)
              = bal_Available (Account_Balance acc id) + ti_TotalUnits (itt_Info txn))).
Proof.
  intros symbol id. repeat split.
  - intros Hex. apply TokenCache_Exists_true in Hex.
    unfold issueToken. fold symbol. by rewrite Hex.
  - intros Hex. apply staged_collision_true in Hex.
    unfold issueToken. fold symbol. rewrite Hex. by destruct (TokenCache_Exists _ _).
  - intros acc Hcache Hstaged Hacc.
    unfold issueToken. fold symbol.
    destruct (TokenCache_Exists (tokenCache t) symbol) eqn:E1.
    { apply TokenCache_Exists_true in E1 as (i & info & Hi & Hs). by destruct (Hcache i info). }
    destruct (existsb _ (tokenCreations t)) eqn:E2.
    { apply staged_collision_true in E2 as (v & Hv & Hs). by destruct (Hstaged v). }
    fold id. set (t1 := set_state _ _).
    assert (State_Account (state t1) owner = Some acc) as Hacc1 by done.
    rewrite (deref_Some _ _ _ Hacc1). simpl.
    eexists _, _. split; [done|]. split; [done|].
    split; [apply lookup_insert_eq|].
    split; [apply Account_store_eq|].
    rewrite Balance_update_eq. split; [done|].
    intros Hnone. unfold Account_Balance. rewrite Hnone. simpl. lia.
Qed.

End IssueFacts.

(** ** Sending a token *)

Section SendFacts.
Context `{Ambient} `{OrderBookOps}.

Lemma store_same (t : Transition) (p : Z) (a : Account) :
  State_Account (state t) p = Some a -> store t p a = t.
Proof.
  unfold State_Account, store. intros Hl.
  destruct t as [? ? ? ? ? ? [accs ? ? ? ?] ? ? ?]. simpl in *.
  unfold set_state, set_st_accounts. simpl. by rewrite insert_id.
Qed.

Lemma store_store (t : Transition) (p : Z) (a a' : Account) :
  store (store t p a) p a' = store t p a'.
Proof.
  unfold store, set_state, set_st_accounts. simpl. by rewrite insert_insert_eq.
Qed.

Lemma UpdateBalance_twice (a : Account) (id : Z) (b b' : Balance) :
  Account_UpdateBalance (Account_UpdateBalance a id b) id b'
  = Account_UpdateBalance a id b'.
Proof. unfold Account_UpdateBalance. simpl. by rewrite insert_insert_eq. Qed.

Lemma UpdateBalance_same (a : Account) (id : Z) (b : Balance) :
  acc_balances a !! id = Some b -> Account_UpdateBalance a id b = a.
Proof.
  intros Hl. destruct a. unfold Account_UpdateBalance. simpl in *.
  by rewrite insert_id.
Qed.

(** C10. [sendToken] to a public key that hashes to the sender's own
    address, the state holding the sender's account under that address:
    with quant > 0 and an available balance of at least quant it returns
    true, and the sender's balance of the token, like the whole
    transition, is what it was before the call. *)
Theorem sendToken_to_self (t : Transition) (owner : Z) (txn : SendTokenTxn)
    (acc : Account) :
  State_Account (state t) owner = Some acc ->
  pk_addr (acc_PK acc) = owner ->
  pk_addr (stt_To txn) = pk_addr (acc_PK acc) ->
  is_uint64 (bal_Available (Account_Balance acc (stt_TokenID txn))) ->
  0 < stt_Quant txn ->
  stt_Quant txn <= bal_Available (Account_Balance acc (stt_TokenID txn)) ->
  exists t' acc',
    sendToken t owner txn = Ok (t', true)
    /\ State_Account (state t') owner = Some acc'
    /\ Account_Balance acc' (stt_TokenID txn) = Account_Balance acc (stt_TokenID txn)
    /\ t' = t.
Proof.
  intros Hacc Hown Hto Hty Hpos Hle.
  assert (acc_balances acc !! stt_TokenID txn
          = Some (Account_Balance acc (stt_TokenID txn))) as Hbal.
  { unfold Account_Balance in *.
    destruct (acc_balances acc !! stt_TokenID txn); [done|]. simpl in *. lia. }
  set (b := Account_Balance acc (stt_TokenID txn)) in *.
  assert (sendToken t owner txn = Ok (t, true)) as Hrun.
  { unfold sendToken.
    destruct (Z.eqb_spec (stt_Quant txn) 0); [lia|].
    rewrite (deref_Some _ _ _ Hacc). simpl. fold b.
    destruct (Z.ltb_spec (bal_Available b) (stt_Quant txn)); [lia|].
    rewrite Hto, Hown, Hacc, (deref_Some _ _ _ Hacc). simpl.
    unfold deref. rewrite Account_store_eq. simpl.
    rewrite Balance_update_eq, UpdateBalance_twice, store_store. simpl.
    rewrite wrap64_add_l.
    replace (bal_Available b - stt_Quant txn + stt_Quant txn) with (bal_Available b) by lia.
    rewrite (wrap64_small (bal_Available b)) by done.
    replace (set_bal_Available _ _) with b by (by destruct b).
    by rewrite UpdateBalance_same, store_same. }
  exists t, acc. by rewrite Hrun.
Qed.

End SendFacts.

(** ** Thawing frozen tokens *)

Section ReleaseFacts.
Context `{Ambient} `{OrderBookOps}.

Lemma indexOfQuant_first (q : Z) (l1 l2 : list Frozen) (f : Frozen) :
  Forall (fun g => fz_Quant g ≠ q) l1 -> fz_Quant f = q ->
  indexOfQuant q (l1 ++ f :: l2) = Some (length l1).
Proof.
  intros Hl1 Hf. induction Hl1 as [|g l1 Hg _ IH]; simpl.
  - by rewrite Hf, Z.eqb_refl.
  - destruct (Z.eqb_spec (fz_Quant g) q); [done|]. by rewrite IH.
Qed.

Lemma indexOfQuant_none (q : Z) (l : list Frozen) :
  Forall (fun g => fz_Quant g ≠ q) l -> indexOfQuant q l = None.
Proof.
  induction 1 as [|g l Hg _ IH]; simpl; [done|].
  destruct (Z.eqb_spec (fz_Quant g) q); [done|]. by rewrite IH.
Qed.

Lemma releaseTokens_entry_first (t : Transition) (token : freezeTokenEntry)
    (acc : Account) (l1 l2 : list Frozen) (f : Frozen) :
  let b := Account_Balance acc (ft_TokenID token) in
  State_Account (state t) (ft_Addr token) = Some acc ->
  bal_Frozen b = l1 ++ f :: l2 ->
  Forall (fun g => fz_Quant g ≠ ft_Quant token) l1 ->
  fz_Quant f = ft_Quant token ->
  releaseTokens_entry t token
  = Ok (store t (ft_Addr token)
          (Account_UpdateBalance acc (ft_TokenID token)
             {| bal_Available := wrap64 (bal_Available b + ft_Quant token);
                bal_Pending := bal_Pending b;
                bal_Frozen := l1 ++ l2 |})).
Proof.
  intros b Hacc Hfr Hl1 Hf. unfold releaseTokens_entry.
  rewrite (deref_Some _ _ _ Hacc). simpl. fold b. rewrite Hfr.
  rewrite (indexOfQuant_first _ _ _ _ Hl1 Hf).
  rewrite list_lookup_middle by done.
  rewrite take_app_length.
  rewrite (cons_middle f l1 l2), app_assoc, drop_app_length'
    by (rewrite length_app; simpl; lia).
  by rewrite Hf.
Qed.

(** An entry no element of [frozen[]] matches makes the source index the
    list at -1. *)
Lemma releaseTokens_entry_no_match (t : Transition) (token : freezeTokenEntry)
    (acc : Account) :
  State_Account (state t) (ft_Addr token) = Some acc ->
  Forall (fun g => fz_Quant g ≠ ft_Quant token)
    (bal_Frozen (Account_Balance acc (ft_TokenID token))) ->
  releaseTokens_entry t token = Panic.
Proof.
  intros Hacc Hno. unfold releaseTokens_entry.
  rewrite (deref_Some _ _ _ Hacc). simpl. by rewrite indexOfQuant_none.
Qed.

(** C8. [releaseTokens] takes the freeze entries scheduled at round + 1 in
    schedule order. For the entry at the head, the element of the
    account's frozen[] list removed is the first, by position, whose
    quant equals the entry's quant (no element before it has that quant),
    and that quant is added to the available balance; the loop then goes
    on with the rest of the schedule from there. *)
Theorem releaseTokens_first_fit (t : Transition) (token : freezeTokenEntry)
    (rest : list freezeTokenEntry) (acc : Account) (l1 l2 : list Frozen)
    (f : Frozen) :
  let b := Account_Balance acc (ft_TokenID token) in
  State_GetFreezeTokens (state t) (wrap64 (round t + 1)) = token :: rest ->
  State_Account (state t) (ft_Addr token) = Some acc ->
  bal_Frozen b = l1 ++ f :: l2 ->
  Forall (fun g => fz_Quant g ≠ ft_Quant token) l1 ->
  fz_Quant f = ft_Quant token ->
  releaseTokens t
  = forEach releaseTokens_entry rest
      (store t (ft_Addr token)
         (Account_UpdateBalance acc (ft_TokenID token)
            {| bal_Available := wrap64 (bal_Available b + ft_Quant token);
               bal_Pending := bal_Pending b;
               bal_Frozen := l1 ++ l2 |})).
Proof.
  intros b Hsched Hacc Hfr Hl1 Hf. unfold releaseTokens. rewrite Hsched. simpl.
  by rewrite (releaseTokens_entry_first t token acc l1 l2 f).
Qed.

End ReleaseFacts.

(** ** Recording a transaction *)

Section RecordFacts.
Context `{Ambient} `{OrderBookOps}.
Context (validateNonce : State -> Txn -> Z * bool * bool).

(** Case analysis along the control flow of an operation. *)
Ltac step_outcome :=
  match goal with
  | Hrun : context [mbind _ ?m] |- _ => destruct m eqn:?; simpl in Hrun
  | Hrun : context [let '(_, _) := ?p in _] |- _ => destruct p eqn:?; simpl in Hrun
  end.
Ltac walk := repeat first [progress simplify_eq/= | case_match | step_outcome].

Lemma placeOrder_false (t t' : Transition) (owner : Z) (txn : PlaceOrderTxn) (r : Z) :
  placeOrder t owner txn r = Ok (t', false) -> t' = t.
Proof. unfold placeOrder. intros Hrun. walk; done. Qed.

Lemma cancelOrder_false (t t' : Transition) (owner : Z) (txn : CancelOrderTxn) :
  cancelOrder t owner txn = Ok (t', false) -> t' = t.
Proof. unfold cancelOrder. intros Hrun. walk; done. Qed.

Lemma issueToken_false (t t' : Transition) (owner : Z) (txn : IssueTokenTxn) :
  issueToken t owner txn = Ok (t', false) -> t' = t.
Proof. unfold issueToken. intros Hrun. walk; done. Qed.

Lemma sendToken_false (t t' : Transition) (owner : Z) (txn : SendTokenTxn) :
  sendToken t owner txn = Ok (t', false) -> t' = t.
Proof. unfold sendToken. intros Hrun. walk; done. Qed.

Lemma freezeToken_false (t t' : Transition) (owner : Z) (txn : FreezeTokenTxn) :
  freezeToken t owner txn = Ok (t', false) -> t' = t.
Proof. unfold freezeToken. intros Hrun. walk; done. Qed.

Lemma getOrderBook_txns (t : Transition) (m : MarketSymbol) :
  txns (getOrderBook t m).1 = txns t.
Proof. unfold getOrderBook. by destruct (orderBooks t !! m). Qed.

Lemma refundAfterCancel_txns (t t' : Transition) (owner : Z) (c : PendingOrder)
    (m : MarketSymbol) :
  refundAfterCancel t owner c m = Ok t' -> txns t' = txns t.
Proof. unfold refundAfterCancel. intros Hrun. walk; done. Qed.

Lemma placeOrder_execution_txns (m : MarketSymbol) (bi qi : TokenInfo) (r : Z)
    (t t' : Transition) (e : Execution) :
  placeOrder_execution m bi qi r t e = Ok t' -> txns t' = txns t.
Proof. unfold placeOrder_execution. intros Hrun. walk; done. Qed.

Lemma forEach_txns {A : Type} (body : Transition -> A -> outcome Transition)
    (l : list A) :
  (forall t t' x, body t x = Ok t' -> txns t' = txns t) ->
  forall t t', forEach body l t = Ok t' -> txns t' = txns t.
Proof.
  intros Hbody. induction l as [|x l IH]; simpl; intros t t' Hrun.
  - by simplify_eq.
  - destruct (body t x) as [t1|] eqn:Hx; simpl in Hrun; [|done].
    rewrite (IH _ _ Hrun). by apply Hbody in Hx.
Qed.

Lemma placeOrder_reserve_txns (t t' : Transition) (owner : Z) (txn : PlaceOrderTxn)
    (bi qi : TokenInfo) :
  placeOrder_reserve t owner txn bi qi = Ok (Some t') -> txns t' = txns t.
Proof. unfold placeOrder_reserve. intros Hrun. walk; done. Qed.

Lemma placeOrder_txns (t t' : Transition) (owner : Z) (txn : PlaceOrderTxn) (r : Z)
    (b : bool) :
  placeOrder t owner txn r = Ok (t', b) -> txns t' = txns t.
Proof.
  unfold placeOrder. intros Hrun. walk; try done.
  all: match goal with
       | Hloop : forEach _ _ _ = Ok _ |- _ =>
           apply forEach_txns in Hloop;
             [|by intros; eapply placeOrder_execution_txns]
       end.
  all: match goal with
       | Hgb : getOrderBook ?t0 ?m = _ |- _ =>
           pose proof (getOrderBook_txns t0 m) as Hb; rewrite Hgb in Hb
       end.
  all: match goal with
       | Hres : placeOrder_reserve _ _ _ _ _ = Ok _ |- _ =>
           apply placeOrder_reserve_txns in Hres
       end.
  all: simpl in *; congruence.
Qed.

Lemma cancelOrder_txns (t t' : Transition) (owner : Z) (txn : CancelOrderTxn)
    (b : bool) :
  cancelOrder t owner txn = Ok (t', b) -> txns t' = txns t.
Proof.
  unfold cancelOrder. intros Hrun. walk; try done.
  match goal with
  | Hrf : refundAfterCancel _ _ _ _ = Ok _ |- _ =>
      apply refundAfterCancel_txns in Hrf; rewrite Hrf
  end.
  match goal with
  | Hgb : getOrderBook ?t0 ?m = _ |- _ =>
      pose proof (getOrderBook_txns t0 m) as Hb; by rewrite Hgb in Hb
  end.
Qed.

Lemma issueToken_txns (t t' : Transition) (owner : Z) (txn : IssueTokenTxn)
    (b : bool) :
  issueToken t owner txn = Ok (t', b) -> txns t' = txns t.
Proof. unfold issueToken. intros Hrun. walk; done. Qed.

Lemma sendToken_txns (t t' : Transition) (owner : Z) (txn : SendTokenTxn)
    (b : bool) :
  sendToken t owner txn = Ok (t', b) -> txns t' = txns t.
Proof. unfold sendToken. intros Hrun. walk; done. Qed.

Lemma freezeToken_txns (t t' : Transition) (owner : Z) (txn : FreezeTokenTxn)
    (b : bool) :
  freezeToken t owner txn = Ok (t', b) -> txns t' = txns t.
Proof. unfold freezeToken. intros Hrun. walk; done. Qed.

(** The dispatch of [Transition.Record] on the type of the decoded transaction. *)
Lemma dispatch_false (t t' : Transition) (acc : Z) (txn : Txn) :
  match txn_Decoded txn with
  | IsPlaceOrderTxn tx => placeOrder t acc tx (round t)
  | IsCancelOrderTxn tx => cancelOrder t acc tx
  | IsIssueTokenTxn tx => issueToken t acc tx
  | IsSendTokenTxn tx => sendToken t acc tx
  | IsFreezeTokenTxn tx => freezeToken t acc tx
  | IsOtherType => Ok (t, false)
  end = Ok (t', false) -> t' = t.
Proof.
  destruct (txn_Decoded txn); intros Hrun.
  - by eapply placeOrder_false.
  - by eapply cancelOrder_false.
  - by eapply issueToken_false.
  - by eapply sendToken_false.
  - by eapply freezeToken_false.
  - by simplify_eq.
Qed.

Lemma dispatch_txns (t t' : Transition) (acc : Z) (txn : Txn) (b : bool) :
  match txn_Decoded txn with
  | IsPlaceOrderTxn tx => placeOrder t acc tx (round t)
  | IsCancelOrderTxn tx => cancelOrder t acc tx
  | IsIssueTokenTxn tx => issueToken t acc tx
  | IsSendTokenTxn tx => sendToken t acc tx
  | IsFreezeTokenTxn tx => freezeToken t acc tx
  | IsOtherType => Ok (t, false)
  end = Ok (t', b) -> txns t' = txns t.
Proof.
  destruct (txn_Decoded txn); intros Hrun.
  - by eapply placeOrder_txns.
  - by eapply cancelOrder_txns.
  - by eapply issueToken_txns.
  - by eapply sendToken_txns.
  - by eapply freezeToken_txns.
  - by simplify_eq.
Qed.

Lemma not_own_extension {A : Type} (l : list A) (x : A) : l ≠ l ++ [x].
Proof.
  intros E. apply (f_equal length) in E. rewrite length_app in E. simpl in E. lia.
Qed.

(** C4. A call of [Transition.Record] that returns (valid, success) has
    appended the transaction at the end of the ordered list exactly when
    it returns (true, true). When it returns anything else the transition (accounts,
    tokens, order books, expirations, freezes, the list itself) is what
    it was before the call; (true, false) is returned exactly on a nonce
    that is valid but not ready, and an invalid nonce gives
    (false, false). *)
Theorem Record_appends_iff (t t' : Transition) (txn : Txn) (valid success : bool) :
  Transition_Record validateNonce t txn = Ok (t', (valid, success)) ->
  (txns t' = txns t ++ [txn] <-> valid = true /\ success = true)
  /\ (valid = false \/ success = false -> t' = t)
  /\ (valid = true /\ success = false
      <-> (validateNonce (state t) txn).2 = true
          /\ (validateNonce (state t) txn).1.2 = false)
  /\ ((validateNonce (state t) txn).2 = false -> valid = false /\ success = false).
Proof.
  unfold Transition_Record. intros Hrun.
  destruct (finalized t); [done|].
  destruct (validateNonce (state t) txn) as [[acc ready] nonceValid]. simpl.
  destruct nonceValid; simpl in Hrun.
  2:{ injection Hrun as <- <- <-.
      pose proof (not_own_extension (txns t) txn). intuition congruence. }
  destruct ready; simpl in Hrun.
  2:{ injection Hrun as <- <- <-.
      pose proof (not_own_extension (txns t) txn). intuition congruence. }
  match type of Hrun with
  | context [mbind _ ?m] => destruct m as [[t1 ok]|] eqn:Hop; simpl in Hrun
  end; [|done].
  destruct ok; simpl in Hrun; injection Hrun as <- <- <-.
  - apply dispatch_txns in Hop. simpl. rewrite Hop. intuition congruence.
  - apply dispatch_false in Hop. rewrite Hop.
    pose proof (not_own_extension (txns t) txn). intuition congruence.
Qed.

End RecordFacts.

(** ** Round finalization *)

Section FinalizeFacts.
Context `{Ambient} `{OrderBookOps}.

(** *** Loops over maps do not depend on the order of the visit *)

Lemma fold_left_keyed_perm {K A S : Type} (body : S -> K * A -> S)
    (l1 l2 : list (K * A)) :
  (forall s x y, x.1 ≠ y.1 -> body (body s x) y = body (body s y) x) ->
  l1 ≡ₚ l2 -> NoDup l1.*1 ->
  forall s, fold_left body l1 s = fold_left body l2 s.
Proof.
  intros Hcomm Hperm. induction Hperm as [|x l l' _ IH|x y l|l l' l'' Hp1 IH1 Hp2 IH2];
    intros Hnd s; simpl.
  - done.
  - apply IH. by inversion Hnd.
  - f_equal. apply Hcomm. inversion Hnd as [|? ? Hnotin _]; subst.
    intros E. apply Hnotin. rewrite E. simpl. left.
  - rewrite IH1 by done. apply IH2. by rewrite <- Hp1.
Qed.

Lemma rangeMap_any_order {K} `{Countable K} {A S : Type} (ro1 ro2 : RangeOrder)
    (m : gmap K A) (body : S -> K * A -> S) (s : S) :
  RangeOrder_lawful ro1 -> RangeOrder_lawful ro2 ->
  (forall s x y, x.1 ≠ y.1 -> body (body s x) y = body (body s y) x) ->
  rangeMap ro1 m body s = rangeMap ro2 m body s.
Proof.
  intros Hl1 Hl2 Hcomm. unfold rangeMap.
  apply fold_left_keyed_perm; [done| |].
  - by rewrite (Hl1 K A), (Hl2 K A).
  - rewrite (Hl1 K A). apply (NoDup_fst_map_to_list m).
Qed.

Lemma removeFilled_round_comm (filled : gmap OrderID bool) (t : Transition)
    (x y : Z * Z) :
  x.1 ≠ y.1 ->
  removeFilled_round filled (removeFilled_round filled t x) y
  = removeFilled_round filled (removeFilled_round filled t y) x.
Proof.
  destruct x as [r1 n1], y as [r2 n2]. simpl. intros Hne.
  unfold removeFilled_round.
  destruct (skipsPersisted (default [] (expirations t !! r1)) _ n1) eqn:E1;
    destruct (skipsPersisted (default [] (expirations t !! r2)) _ n2) eqn:E2;
    simpl; rewrite !lookup_insert_ne by done; rewrite ?E1, ?E2;
    unfold set_state, set_expirations; simpl;
    rewrite (insert_insert_ne (expirations t) r1 r2) by done; try done.
  f_equal. unfold State_RemoveOrderExpirations, set_st_orderExpirations,
    State_GetOrderExpirations. simpl.
  rewrite !lookup_insert_ne by done.
  by rewrite (insert_insert_ne (st_orderExpirations (state t)) r1 r2).
Qed.

Lemma removeFilledOrderFromExpiration_any_order (ro1 ro2 : RangeOrder) (t : Transition) :
  RangeOrder_lawful ro1 -> RangeOrder_lawful ro2 ->
  removeFilledOrderFromExpiration ro1 t = removeFilledOrderFromExpiration ro2 t.
Proof.
  intros Hl1 Hl2. unfold removeFilledOrderFromExpiration.
  destruct (countFilled (filledOrders t)) as [rounds filled].
  apply rangeMap_any_order; [done|done|].
  intros s x y Hne. by apply removeFilled_round_comm.
Qed.

Lemma recordOrderExpirations_any_order (ro1 ro2 : RangeOrder) (t : Transition) :
  RangeOrder_lawful ro1 -> RangeOrder_lawful ro2 ->
  recordOrderExpirations ro1 t = recordOrderExpirations ro2 t.
Proof.
  intros Hl1 Hl2. unfold recordOrderExpirations.
  apply rangeMap_any_order; [done|done|].
  intros s [r1 i1] [r2 i2] Hne. simpl in *.
  unfold set_state, State_AddOrderExpirations, set_st_orderExpirations,
    State_GetOrderExpirations. simpl.
  rewrite !lookup_insert_ne by done.
  by rewrite (insert_insert_ne (st_orderExpirations (state s)) r1 r2).
Qed.

Lemma saveDirtyOrderBooks_any_order (ro1 ro2 : RangeOrder) (t : Transition) :
  RangeOrder_lawful ro1 -> RangeOrder_lawful ro2 ->
  saveDirtyOrderBooks ro1 t = saveDirtyOrderBooks ro2 t.
Proof.
  intros Hl1 Hl2. unfold saveDirtyOrderBooks.
  apply rangeMap_any_order; [done|done|].
  intros s [m1 b1] [m2 b2] Hne. simpl in *.
  destruct (default false (dirtyOrderBooks s !! m1)) eqn:E1;
    destruct (default false (dirtyOrderBooks s !! m2)) eqn:E2;
    simpl; rewrite ?E1, ?E2; try done.
  unfold set_state, State_saveOrderBook. simpl.
  by rewrite (insert_insert_ne (st_orderBooks (state s)) m1 m2).
Qed.

Lemma finalizeState_any_order (ro1 ro2 : RangeOrder) (t : Transition) (r : Z) :
  RangeOrder_lawful ro1 -> RangeOrder_lawful ro2 ->
  finalizeState ro1 t r = finalizeState ro2 t r.
Proof.
  intros Hl1 Hl2. unfold finalizeState.
  destruct (finalized t); [done|].
  rewrite (removeFilledOrderFromExpiration_any_order ro1 ro2) by done.
  rewrite (recordOrderExpirations_any_order ro1 ro2) by done.
  destruct (expireOrders _) as [t1|]; simpl; [|done].
  by rewrite (saveDirtyOrderBooks_any_order ro1 ro2).
Qed.

(** *** Determinism of a round *)

Section Determinism.
Context (validateNonce : State -> Txn -> Z * bool * bool)
        (State_Hash : State -> list Z).

(** C5. Two runs of a round on the same prior state, the same ordered
    batch and the same round number, whatever the order in which each run
    happens to range over its maps: the state hashes agree (both runs
    return the same hash, or both panic); in particular [finalizeState]
    leaves the same transition, with the same committed state, in both. *)
Theorem roundHash_deterministic (ro1 ro2 : RangeOrder) (prior : State) (r : Z)
    (batch : list Txn) :
  RangeOrder_lawful ro1 -> RangeOrder_lawful ro2 ->
  roundHash validateNonce State_Hash ro1 prior r batch
  = roundHash validateNonce State_Hash ro2 prior r batch
  /\ (forall t, finalizeState ro1 t (round t) = finalizeState ro2 t (round t))
  /\ (forall t, StateHash State_Hash ro1 t = StateHash State_Hash ro2 t).
Proof.
  intros Hl1 Hl2.
  assert (forall t, StateHash State_Hash ro1 t = StateHash State_Hash ro2 t) as Hsh.
  { intros t. unfold StateHash. by rewrite (finalizeState_any_order ro1 ro2). }
  split; [|split; [intros t; by apply finalizeState_any_order|done]].
  unfold roundHash.
  destruct (RecordTxns _ _ _ _) as [[t res]|]; simpl; [|done].
  by rewrite Hsh.
Qed.

End Determinism.

(** *** Filled orders and the expiration schedule *)

Lemma countFilled_positive (orders : list PendingOrder) (r n : Z) :
  (countFilled orders).1 !! r = Some n -> 0 < n.
Proof.
  unfold countFilled.
  assert (forall (acc : gmap Z Z * gmap OrderID bool),
    (forall r n, acc.1 !! r = Some n -> 0 < n) ->
    forall r n,
      (fold_left
         (fun '(rounds, filled) o =>
            if ord_ExpireRound (po_Order o) =? 0 then (rounds, filled)
            else (<[ord_ExpireRound (po_Order o) :=
                      default 0 (rounds !! ord_ExpireRound (po_Order o)) + 1]> rounds,
                  <[po_ID o := true]> filled))
         orders acc).1 !! r = Some n -> 0 < n) as Hgen.
  { induction orders as [|o orders IH]; intros [rounds filled] Hacc r' n'; simpl.
    - apply Hacc.
    - apply IH. destruct (ord_ExpireRound (po_Order o) =? 0); [done|].
      simpl. intros r2 n2. rewrite lookup_insert.
      case_decide; [|apply Hacc].
      intros [= <-]. destruct (rounds !! _) as [k|] eqn:Hk; simpl; [|lia].
      apply Hacc in Hk. lia. }
  apply Hgen. simpl. intros ? ?. by rewrite lookup_empty.
Qed.

(** C3. The loop body of [removeFilledOrderFromExpiration], for a round
    that has filled orders with that expire round: the staged list of
    the round is left without the entries of filled orders, and
    [State.RemoveOrderExpirations] is called on the round whatever the
    number of entries dropped, also when every filled order of the round
    was dropped from the staged list: [removed] is never positive, the
    count of the round always is, so the test that skips the call never
    holds. *)
Theorem removeFilled_round_always_purges (t : Transition) (r toRemove : Z) :
  let filled := (countFilled (filledOrders t)).2 in
  let staged := default [] (expirations t !! r) in
  let t' := removeFilled_round filled t (r, toRemove) in
  (countFilled (filledOrders t)).1 !! r = Some toRemove ->
  expirations t' !! r = Some (keepUnfilled filled staged)
  /\ skipsPersisted staged (keepUnfilled filled staged) toRemove = false
  /\ state t' = State_RemoveOrderExpirations (state t) r filled.
Proof.
  intros filled staged t' Hcount. apply countFilled_positive in Hcount.
  assert (skipsPersisted staged (keepUnfilled filled staged) toRemove = false) as Hskip.
  { unfold skipsPersisted, keepUnfilled. apply Z.eqb_neq.
    pose proof (filter_length_le (fun exp => negb (isFilled filled (oe_ID exp))) staged).
    lia. }
  unfold t', removeFilled_round. fold staged. rewrite Hskip. simpl.
  split; [apply lookup_insert_eq|done].
Qed.

End FinalizeFacts.

(** ** The validator predicates *)

Section ValidatorFacts.
Import Consensus.
Context `{Crypto}.

Lemma groupAt_in_range (rb : RandomBeacon) (i : Z) :
  0 <= i < Z.of_nat (length (groups rb)) -> exists g, groupAt rb i = Ok g.
Proof.
  intros Hi. unfold groupAt. destruct (Z.ltb_spec i 0); [lia|].
  destruct (groups rb !! Z.to_nat i) as [g|] eqn:Hg; [by exists g|].
  apply lookup_ge_None in Hg. lia.
Qed.

Lemma rankToWeight_nonneg (rank : Z) :
  0 <= rank -> rankToWeight rank = Ok (WeightHalfPow rank).
Proof. intros. unfold rankToWeight. destruct (Z.ltb_spec rank 0); [lia|done]. Qed.

(** C9, as the code has it. When [Rank] returns a rank >= 0 whenever it
    returns no error and [Committees] returns the index of an existing
    group, no validator predicate panics on an argument that is not
    [nil]: each returns, with [false] on every mismatch (for
    [ValidateBlock]: a round above the depth, a signature that does not
    deserialize or does not verify, an error from [Rank], all with weight
    0), and [rankToWeight] is only reached from [ValidateBlock] with a
    rank >= 0. On a [nil] argument every predicate panics, at its first
    read of the round. *)
Theorem validators_return (v : validator) :
  let rb := chain_RandomBeacon (chain v) in
  rank_nonneg rb -> committees_in_range rb ->
  (forall b, exists w ok,
      ValidateBlock v (Some b) = Ok (w, ok)
      /\ (ok = false -> w = WeightZero)
      /\ (ok = true -> exists rank,
            Rank rb (blk_Owner b) (blk_Round b) = (rank, false)
            /\ 0 <= rank /\ rankToWeight rank = Ok w)
      /\ (Depth rb < blk_Round b -> ok = false)
      /\ (Deserialize (blk_NotarizationSig b) = None -> ok = false)
      /\ (forall sign g,
            Deserialize (blk_NotarizationSig b) = Some sign ->
            groupAt rb (Committees rb (blk_Round b)).2 = Ok g ->
            Verify sign (grp_PK g) (Encode b false) = false -> ok = false)
      /\ ((Rank rb (blk_Owner b) (blk_Round b)).2 = true -> ok = false))
  /\ (forall bp, ValidateBlockProposal v (Some bp)
                 = Ok (WeightZero, bp_Round bp =? chain_Round (chain v)))
  /\ (forall n, exists g,
        ValidateNtShare v (Some n) = Ok (g, nts_Round n =? chain_Round (chain v)))
  /\ (forall r, ValidateRandBeaconSig v (Some r) = Ok (rbs_Round r =? Depth rb))
  /\ (forall r, exists g,
        ValidateRandBeaconSigShare v (Some r) = Ok (g, rbss_Round r =? Depth rb))
  /\ (ValidateBlock v None = Panic
      /\ ValidateBlockProposal v None = Panic
      /\ ValidateNtShare v None = Panic
      /\ ValidateRandBeaconSig v None = Panic
      /\ ValidateRandBeaconSigShare v None = Panic).
Proof.
  intros rb Hrank Hcom.
  split; [|split; [|split; [|split; [|split; [|done]]]]].
  - intros b. unfold ValidateBlock. fold rb. cbn [load mbind outcome_bind].
    destruct (Z.ltb_spec (Depth rb) (blk_Round b)) as [Hd|Hd].
    { exists WeightZero, false. split; [done|]. split; [done|].
      split; [done|]. split; [done|]. split; [done|]. split; done. }
    destruct (Deserialize (blk_NotarizationSig b)) as [sign|] eqn:Hsig.
    2:{ exists WeightZero, false. split; [done|]. split; [done|].
        split; [done|]. split; [done|]. split; [done|]. split; done. }
    destruct (Committees rb (blk_Round b)) as [[c1 c2] nt] eqn:Hc.
    destruct (groupAt_in_range rb nt) as [g Hg]; [by eapply Hcom|].
    rewrite Hg. simpl.
    destruct (Verify sign (grp_PK g) (Encode b false)) eqn:Hv; simpl.
    2:{ exists WeightZero, false. split; [done|]. split; [done|].
        split; [done|]. split; [done|]. split; [done|]. split; done. }
    destruct (Rank rb (blk_Owner b) (blk_Round b)) as [rank err] eqn:Hr.
    destruct err.
    { exists WeightZero, false. split; [done|]. split; [done|].
      split; [done|]. split; [done|]. split; [done|]. split; done. }
    pose proof (Hrank _ _ _ Hr) as Hnn.
    rewrite (rankToWeight_nonneg _ Hnn). simpl.
    exists (WeightHalfPow rank), true. split; [done|]. split; [done|].
    split; [intros _; exists rank; by rewrite rankToWeight_nonneg|].
    split; [lia|]. split; [done|]. split; [|done].
    intros sign' g' [= <-] Hg'. simpl in Hg'. rewrite Hg in Hg'.
    injection Hg' as <-. congruence.
  - intros bp. unfold ValidateBlockProposal. cbn [load mbind outcome_bind].
    by destruct (_ =? _).
  - intros n. unfold ValidateNtShare. cbn [load mbind outcome_bind].
    destruct (_ =? _); simpl; [|by eexists].
    destruct (Committees _ _) as [[? ?] nt]. by eexists.
  - intros r. unfold ValidateRandBeaconSig. fold rb. cbn [load mbind outcome_bind].
    by destruct (_ =? _).
  - intros r. unfold ValidateRandBeaconSigShare. fold rb. cbn [load mbind outcome_bind].
    destruct (_ =? _); simpl; [|by eexists].
    destruct (Committees _ _) as [[g ?] ?]. by eexists.
Qed.

End ValidatorFacts.

(** * The scenarios, run *)

Section Scenarios.
Import Scenario.
#[local] Existing Instance ambient8.
#[local] Existing Instance SimpleBook.ops.

(** Closes a goal between concrete values by evaluation. *)
Ltac evaluate := vm_compute; first [reflexivity | discriminate].

(** Concludes from a fact of the same left-hand side, up to evaluation. *)
Ltac from_fact Hfact := etransitivity; [exact Hfact | evaluate].

Lemma is_uint64_dec (z : Z) : (0 <=? z) && (z <? two64) = true -> is_uint64 z.
Proof. unfold is_uint64. intros Hb. apply andb_true_iff in Hb as [? ?]. lia. Qed.

(** 5 base units at price 2 * 10^8, no decimals: 10 quote units. *)
Lemma calcQuoteQuant_exact_witness :
  calcQuoteQuant 5 0 200000000 OrderPriceDecimals 0 = Ok 10.
Proof.
  etransitivity.
  - apply (calcQuoteQuant_exact 5 0 200000000 0);
      first [apply is_uint64_dec; evaluate | evaluate | simpl; lia].
  - evaluate.
Defined.

(** Buy at a higher limit, maker at a lower price: of the 10 quote units
    reserved, 5 are spent and 5 come back. With the reservation narrowed
    to 2 units, the fill of 5 units at the trade price 10^8, below the
    limit, needs 10 pending units and panics; so does the transaction
    that places the order, recorded after the ask of A. *)
Lemma placeOrder_execution_buy_witness :
  (exists t' acc',
     placeOrder_execution market (token "T1" 0 10) (token "T2" 0 10) 7 beforeFill fill = Ok t'
     /\ State_Account (state t') 2 = Some acc'
     /\ bal_Pending (Account_Balance acc' 1) = 0
     /\ bal_Available (Account_Balance acc' 1) = 5
     /\ bal_Available (Account_Balance acc' 0) = 5)
  /\ calcQuoteQuant 9223372036854775809 0 200000000 OrderPriceDecimals 0 = Ok 2
  /\ placeOrder_execution market (token "T1" 0 10) (token "T2" 0 10) 7
       beforeHugeFill hugeFill = Panic
  /\ Transition_Record validateNonce0 askResting hugeBuy = Panic.
Proof.
  split; [|split; [evaluate|split; [|evaluate]]].
  - destruct (placeOrder_execution_buy market (token "T1" 0 10) (token "T2" 0 10) 7
                beforeFill fill buyerReserved buyOrder 10 5)
      as [_ Hfill];
      [evaluate | evaluate | evaluate | evaluate | evaluate | evaluate
      | apply is_uint64_dec; evaluate | ].
    destruct Hfill as (t' & acc' & Hrun & Hacc & Hp & Ha & Hb & _ & _); [evaluate|].
    exists t', acc'. split; [exact Hrun|]. split; [exact Hacc|].
    split; [from_fact Hp|]. split; [from_fact Ha|from_fact Hb].
  - apply (placeOrder_execution_buy market (token "T1" 0 10) (token "T2" 0 10) 7
             beforeHugeFill hugeFill underReserved hugeOrder 10 5);
      first [evaluate | apply is_uint64_dec; evaluate].
Defined.

(** The account of B in the run of [Transition.Record] is the one of the
    witness: the reservation of the order leaves 2 units pending. *)
Example scenario_narrowed_reservation :
  match placeOrder_reserve askResting 2
          {| pot_SellSide := false; pot_Quant := 9223372036854775809;
             pot_Price := 200000000; pot_ExpireRound := 0; pot_Market := market |}
          (token "T1" 0 10) (token "T2" 0 10) with
  | Ok (Some t) =>
      Account_UpdatePendingOrder (accountOf t 2) hugeOrder = underReserved
      /\ SimpleBook.limit (getOrderBook t market).2 (po_Order hugeOrder)
         = (1, [ {| ex_ID := 0; ex_Owner := 1; ex_SellSide := true;
                    ex_Price := 100000000; ex_Quant := 5; ex_Taker := false |};
                 hugeFill ],
            {| SimpleBook.nextID := 2;
               SimpleBook.bids := [ {| SimpleBook.r_ID := 1; SimpleBook.r_Owner := 2;
                                       SimpleBook.r_Price := 200000000;
                                       SimpleBook.r_Quant := 9223372036854775804 |} ];
               SimpleBook.asks := [] |})
  | _ => False
  end.
Proof. vm_compute. split; reflexivity. Qed.

(** The whole scenario through [Transition.Record]: B ends with 5 quote
    and 5 base units available and nothing pending, A with 5 quote units. *)
Example scenario_buy_at_higher_limit :
  let t := after [place 1 true 5 100000000 0; place 2 false 5 200000000 0] in
  Account_Balance (accountOf t 2) 1
  = {| bal_Available := 5; bal_Pending := 0; bal_Frozen := [] |}
  /\ Account_Balance (accountOf t 2) 0
     = {| bal_Available := 5; bal_Pending := 0; bal_Frozen := [] |}
  /\ Account_Balance (accountOf t 1) 1
     = {| bal_Available := 5; bal_Pending := 0; bal_Frozen := [] |}
  /\ Account_Balance (accountOf t 1) 0
     = {| bal_Available := 5; bal_Pending := 0; bal_Frozen := [] |}.
Proof. vm_compute. repeat split. Qed.

(** Issue and transfer: 700 units stay with A, 300 reach B. *)
Example scenario_issue_and_transfer :
  let t := after issueAndSend in
  bal_Available (Account_Balance (accountOf t 1) 2) = 700
  /\ bal_Available (Account_Balance (accountOf t 2) 2) = 300
  /\ length (txns t) = 2%nat.
Proof. vm_compute. repeat split. Qed.

(** Expiration: a sell of 5 placed at round 7 with expire round 8 is
    cancelled and refunded by the finalization of round 7. *)
Example scenario_expiration :
  match finalizeState forwards (after [place 1 true 5 100000000 8]) 7 with
  | Ok t =>
      Account_Balance (accountOf t 1) 0
      = {| bal_Available := 10; bal_Pending := 0; bal_Frozen := [] |}
      /\ Account_PendingOrder (accountOf t 1) {| oid_ID := 0; oid_Market := market |} = None
      /\ finalized t = true
  | Panic => False
  end.
Proof. vm_compute. repeat split. Qed.

(** Freeze and thaw: frozen at round 7 until round 10, released by the
    finalization of round 9. *)
Example scenario_freeze_and_thaw :
  match finalizeState forwards (after freezeUntil10) 7 with
  | Ok t =>
      Account_Balance (accountOf t 1) 0
      = {| bal_Available := 6; bal_Pending := 0;
           bal_Frozen := [{| fz_AvailableRound := 10; fz_Quant := 4 |}] |}
      /\ match finalizeState forwards (newTransition (state t) 9) 9 with
         | Ok t' =>
             Account_Balance (accountOf t' 1) 0
             = {| bal_Available := 10; bal_Pending := 0; bal_Frozen := [] |}
         | Panic => False
         end
  | Panic => False
  end.
Proof. vm_compute. repeat split. Qed.

(** Partial fill, then cancel of the remainder: 6 base units come back.
    The buy order of B whose reservation was narrowed to 3 units has one
    unit filled and nothing pending any more; the refund of what remains
    of it converts to 2^64 - 1, and the cancellation panics, alone and
    as a recorded transaction. *)
Lemma cancelOrder_refund_witness :
  (exists t' acc',
     cancelOrder partlyFilled 1 cancelA = Ok (t', true)
     /\ State_Account (state t') 1 = Some acc'
     /\ Account_PendingOrder acc' (cot_ID cancelA) = None
     /\ bal_Pending (Account_Balance acc' 0) = 0
     /\ bal_Available (Account_Balance acc' 0) = 6)
  /\ calcQuoteQuant 10540996613548315210 0 350000000 OrderPriceDecimals 0 = Ok 3
  /\ bal_Pending (Account_Balance (accountOf narrowFilled 2) 1) = 0
  /\ calcQuoteQuant (remaining narrowOrder) 0 350000000 OrderPriceDecimals 0
     = Ok 18446744073709551615
  /\ cancelOrder narrowFilled 2 cancelB = Panic
  /\ Transition_Record validateNonce0 narrowFilled (from 2 (IsCancelOrderTxn cancelB))
     = Panic.
Proof.
  split; [|split; [evaluate|split; [evaluate|split; [evaluate|split; [|evaluate]]]]].
  - destruct (cancelOrder_refund partlyFilled 1 cancelA (accountOf partlyFilled 1))
      as [_ Hpresent]; [evaluate|].
    destruct (Hpresent
                {| po_ID := cot_ID cancelA;
                   po_Order := {| ord_Owner := 1; ord_SellSide := true; ord_Quant := 10;
                                  ord_Price := 100000000; ord_ExpireRound := 0 |};
                   po_Executed := 4 |} 0 6)
      as [_ Hok];
      [evaluate | apply is_uint64_dec; evaluate | apply is_uint64_dec; evaluate
      | evaluate | split; evaluate | apply is_uint64_dec; evaluate | ].
    destruct Hok as (t' & acc' & Hrun & _ & _ & Hacc & Hgone & Hp & Ha & _); [evaluate|].
    exists t', acc'. split; [exact Hrun|]. split; [exact Hacc|].
    split; [exact Hgone|]. split; [from_fact Hp|from_fact Ha].
  - destruct (cancelOrder_refund narrowFilled 2 cancelB (accountOf narrowFilled 2))
      as [_ Hpresent]; [evaluate|].
    apply (Hpresent narrowOrder 1 18446744073709551615);
      [evaluate | apply is_uint64_dec; evaluate | apply is_uint64_dec; evaluate
      | evaluate | | apply is_uint64_dec; evaluate | evaluate ].
    split; [reflexivity|].
    exists (token "T2" 0 10), (token "T1" 0 10).
    split; [evaluate|split; evaluate].
Defined.

(** Double issue: "abc" after "ABC" in the same transition is rejected;
    the first issuance gets id 2 and credits the issuer. *)
Lemma issueToken_unique_symbol_witness :
  issueToken issued 2 issueLower = Ok (issued, false)
  /\ exists t' acc',
       issueToken (newTransition prior 7) 1 issueUpper = Ok (t', true)
       /\ tokenCreations t' = [{| tk_ID := 2; tk_Info := token "ABC" 2 1000 |}]
       /\ State_Account (state t') 1 = Some acc'
       /\ bal_Available (Account_Balance acc' 2) = 1000.
Proof.
  split.
  - apply (issueToken_unique_symbol issued 2 issueLower).
    exists {| tk_ID := 2; tk_Info := token "ABC" 2 1000 |}.
    split; [|evaluate]. vm_compute. left.
  - destruct (issueToken_unique_symbol (newTransition prior 7) 1 issueUpper)
      as (_ & _ & Hfresh).
    destruct (Hfresh (holding 1 0 10)) as (t' & acc' & Hrun & Hst & _ & Hacc & Hbal & _).
    + intros i info Hi. unfold newTransition, newTokenCache, prior in Hi. simpl in Hi.
      apply lookup_insert_Some in Hi as [[_ <-]|[_ Hi]]; [evaluate|].
      apply lookup_insert_Some in Hi as [[_ <-]|[_ Hi]]; [evaluate|].
      by rewrite lookup_empty in Hi.
    + intros v Hv. inversion Hv.
    + evaluate.
    + exists t', acc'. split; [exact Hrun|]. split; [from_fact Hst|].
      split; [exact Hacc|]. etransitivity; [exact (f_equal bal_Available Hbal)|evaluate].
Defined.

(** Thaw of 100: the second element goes, the later entry of the same
    quant stays. *)
Lemma releaseTokens_first_fit_witness :
  releaseTokens beforeThaw
  = Ok (store beforeThaw 1
          (Account_UpdateBalance frozenHolder 0
             {| bal_Available := 100; bal_Pending := 0;
                bal_Frozen := [ {| fz_AvailableRound := 10; fz_Quant := 50 |};
                                {| fz_AvailableRound := 12; fz_Quant := 100 |} ] |})).
Proof.
  etransitivity.
  - apply (releaseTokens_first_fit beforeThaw thaw [] frozenHolder
             [ {| fz_AvailableRound := 10; fz_Quant := 50 |} ]
             [ {| fz_AvailableRound := 12; fz_Quant := 100 |} ]
             {| fz_AvailableRound := 10; fz_Quant := 100 |});
      [evaluate | evaluate | evaluate | repeat constructor; evaluate | evaluate].
  - evaluate.
Defined.

Lemma sendToken_to_self_witness :
  sendToken (newTransition prior 7) 1 sendSelf = Ok (newTransition prior 7, true).
Proof.
  destruct (sendToken_to_self (newTransition prior 7) 1 sendSelf (holding 1 0 10))
    as (t' & acc' & Hrun & _ & _ & ->);
    [evaluate | evaluate | evaluate | apply is_uint64_dec; evaluate
    | evaluate | evaluate | exact Hrun].
Defined.

Lemma Record_appends_iff_witness :
  exists t',
    Transition_Record validateNonce0 (newTransition prior 7) (place 1 true 5 100000000 0)
    = Ok (t', (true, true))
    /\ txns t' = [place 1 true 5 100000000 0].
Proof.
  eexists. split; [vm_compute; reflexivity|].
  apply (Record_appends_iff validateNonce0 (newTransition prior 7) _
           (place 1 true 5 100000000 0) true true); [vm_compute; reflexivity|done].
Defined.

(** A sell of more than the balance is rejected and leaves no trace. *)
Example Record_rejected :
  Transition_Record validateNonce0 (newTransition prior 7) (place 1 true 11 100000000 0)
  = Ok (newTransition prior 7, (false, false)).
Proof. evaluate. Qed.

(** A nonce that is valid but not ready: deferred, nothing recorded. *)
Example Record_deferred :
  Transition_Record validateNonce0 (newTransition prior 7)
    {| txn_Raw := [1]; txn_Sender := 1; txn_Nonce := 101;
       txn_Decoded := IsSendTokenTxn sendSelf |}
  = Ok (newTransition prior 7, (true, false)).
Proof. evaluate. Qed.

Lemma forwards_lawful : RangeOrder_lawful forwards.
Proof. intros K A l. reflexivity. Defined.

Lemma backwards_lawful : RangeOrder_lawful backwards.
Proof. intros K A l. simpl. symmetry. apply Permutation_rev. Defined.

Lemma roundHash_deterministic_witness :
  roundHash validateNonce0 stateHash0 forwards prior 7 resting
  = roundHash validateNonce0 stateHash0 backwards prior 7 resting
  /\ finalizeState forwards (after resting) 7 = finalizeState backwards (after resting) 7.
Proof.
  destruct (roundHash_deterministic validateNonce0 stateHash0 forwards backwards
              prior 7 resting forwards_lawful backwards_lawful) as (Hh & Hf & _).
  split; [exact Hh|]. etransitivity; [exact (Hf (after resting))|].
  f_equal.
Defined.

(** The run of the witness does return a hash, with both schedules
    persisted. *)
Example roundHash_resting :
  match roundHash validateNonce0 stateHash0 backwards prior 7 resting with
  | Ok h => h = [2; 6; 1; 5; 2; 0]
  | Panic => False
  end.
Proof. vm_compute. reflexivity. Qed.

(** The filled order of A is the only staged expiration of round 9: it is
    dropped (one of one), and the persisted schedule is purged all the
    same. *)
Lemma removeFilled_round_always_purges_witness :
  let t := after crossed in
  let filled := (countFilled (filledOrders t)).2 in
  let staged := default [] (expirations t !! 9) in
  (countFilled (filledOrders t)).1 !! 9 = Some 1
  /\ Z.of_nat (length staged) - Z.of_nat (length (keepUnfilled filled staged)) = 1
  /\ skipsPersisted staged (keepUnfilled filled staged) 1 = false
  /\ state (removeFilled_round filled t (9, 1))
     = State_RemoveOrderExpirations (state t) 9 filled.
Proof.
  intros t filled staged.
  split; [evaluate|]. split; [evaluate|].
  destruct (removeFilled_round_always_purges t 9 1) as (_ & Hskip & Hcall); [evaluate|].
  split; [exact Hskip|exact Hcall].
Defined.

Import Consensus.
#[local] Existing Instance crypto0.

(** C9, as stated, fails: a beacon whose ranks are never negative, whose
    committee index names no group: [ValidateBlock] panics on a block
    with a well-formed signature. So does, over a beacon with its group,
    every predicate on a [nil] argument. *)
Lemma ValidateBlock_panics_without_group :
  rank_nonneg (beacon [])
  /\ ValidateBlock (validatorOf []) (Some block3) = Panic
  /\ rank_nonneg (beacon [{| grp_PK := 5 |}])
  /\ committees_in_range (beacon [{| grp_PK := 5 |}])
  /\ ValidateBlock (validatorOf [{| grp_PK := 5 |}]) None = Panic
  /\ ValidateBlockProposal (validatorOf [{| grp_PK := 5 |}]) None = Panic.
Proof.
  split; [|split; [evaluate|split; [|split; [|split; evaluate]]]].
  - intros owner round rank Hr. injection Hr as <-. lia.
  - intros owner round rank Hr. injection Hr as <-. lia.
  - intros round a b nt Hc. injection Hc as <- <- <-. simpl. lia.
Qed.

Lemma validators_return_witness :
  ValidateBlock (validatorOf [{| grp_PK := 5 |}]) (Some block3)
  = Ok (WeightHalfPow 0, true)
  /\ ValidateRandBeaconSig (validatorOf [{| grp_PK := 5 |}]) (Some {| rbs_Round := 3 |})
     = Ok false.
Proof.
  destruct (validators_return (validatorOf [{| grp_PK := 5 |}])) as (Hb & _ & _ & Hs & _).
  - intros owner round rank Hr. injection Hr as <-. lia.
  - intros round a b nt Hc. injection Hc as <- <- <-. simpl. lia.
  - split; [|apply Hs].
    destruct (Hb block3) as (w & ok & Hrun & _).
    etransitivity; [exact Hrun|]. rewrite <- Hrun. evaluate.
Defined.

End Scenarios.

(** * Further properties of the code *)

(** ** More on the conversion *)

Section ConversionFacts.
Context `{Ambient}.

Lemma quoteFormula_nonneg (base qd price bd : Z) :
  0 <= OrderPriceDecimals -> 0 <= qd -> 0 <= bd -> 0 <= base -> 0 <= price ->
  0 <= quoteFormula base qd price OrderPriceDecimals bd.
Proof.
  intros. unfold quoteFormula. apply Z.quot_pos.
  - pose proof (pow10_pos qd ltac:(lia)). nia.
  - pose proof (pow10_pos bd ltac:(lia)).
    assert (0 < 10 ^ OrderPriceDecimals) by (apply pow10_pos; lia). nia.
Qed.

Lemma quoteFormula_mono (base base' qd price price' bd : Z) :
  0 <= OrderPriceDecimals -> 0 <= qd -> 0 <= bd ->
  0 <= base <= base' -> 0 <= price <= price' ->
  quoteFormula base qd price OrderPriceDecimals bd
  <= quoteFormula base' qd price' OrderPriceDecimals bd.
Proof.
  intros. unfold quoteFormula.
  pose proof (pow10_pos qd ltac:(lia)).
  pose proof (pow10_pos bd ltac:(lia)).
  assert (0 < 10 ^ OrderPriceDecimals) by (apply pow10_pos; lia).
  assert (0 <= base * 10 ^ qd * price) by nia.
  assert (0 <= base' * 10 ^ qd) by nia.
  assert (0 <= base' * 10 ^ qd * price') by nia.
  assert (0 < 10 ^ bd * 10 ^ OrderPriceDecimals) by nia.
  rewrite !Z.quot_div_nonneg by done.
  apply Z.div_le_mono; [done|].
  apply Z.mul_le_mono_nonneg; nia.
Qed.

(** X1. [calcQuoteQuant] grows with the base quantity and with the price
    (and does not read its [priceDecimals] argument): for decimals whose
    powers of ten fit a [uint64] and a larger result that fits 64 bits, a
    smaller quantity at a lower price never converts to more. In
    particular a fill at a trade price below the limit price costs no
    more than what was reserved for it. *)
Theorem calcQuoteQuant_monotone (base base' qd price price' pd pd' bd r r' : Z) :
  0 <= OrderPriceDecimals <= 19 -> 0 <= qd <= 19 -> 0 <= bd <= 19 ->
  0 <= base <= base' -> 0 <= price <= price' ->
  quoteFormula base' qd price' OrderPriceDecimals bd < two64 ->
  calcQuoteQuant base qd price pd bd = Ok r ->
  calcQuoteQuant base' qd price' pd' bd = Ok r' ->
  r <= r'.
Proof.
  intros Hopd Hqd Hbd Hb Hp Hfit Hr Hr'.
  rewrite calcQuoteQuant_low64 in Hr by lia.
  rewrite calcQuoteQuant_low64 in Hr' by lia.
  injection Hr as <-. injection Hr' as <-.
  pose proof (quoteFormula_mono base base' qd price price' bd
                ltac:(lia) ltac:(lia) ltac:(lia) Hb Hp) as Hmono.
  pose proof (quoteFormula_nonneg base qd price bd
                ltac:(lia) ltac:(lia) ltac:(lia) ltac:(lia) ltac:(lia)) as Hnn.
  unfold wrap64. rewrite !Z.mod_small by (unfold two64 in *; lia). done.
Qed.

(** X2. Splitting a quantity never converts to more: for a total that
    fits 64 bits, the conversions of two parts at one price add up to at
    most the conversion of the whole, so what was reserved for an order
    covers the releases of its partial fills. *)
Theorem calcQuoteQuant_split (q1 q2 qd price pd bd r1 r2 r : Z) :
  0 <= OrderPriceDecimals <= 19 -> 0 <= qd <= 19 -> 0 <= bd <= 19 ->
  0 <= q1 -> 0 <= q2 -> 0 <= price ->
  quoteFormula (q1 + q2) qd price OrderPriceDecimals bd < two64 ->
  calcQuoteQuant q1 qd price pd bd = Ok r1 ->
  calcQuoteQuant q2 qd price pd bd = Ok r2 ->
  calcQuoteQuant (q1 + q2) qd price pd bd = Ok r ->
  r1 + r2 <= r.
Proof.
  intros Hopd Hqd Hbd H1 H2 Hp Hfit Hr1 Hr2 Hr.
  rewrite calcQuoteQuant_low64 in Hr1, Hr2, Hr by lia.
  injection Hr1 as <-. injection Hr2 as <-. injection Hr as <-.
  pose proof (quoteFormula_mono q1 (q1 + q2) qd price price bd
                ltac:(lia) ltac:(lia) ltac:(lia) ltac:(lia) ltac:(lia)) as Hm1.
  pose proof (quoteFormula_mono q2 (q1 + q2) qd price price bd
                ltac:(lia) ltac:(lia) ltac:(lia) ltac:(lia) ltac:(lia)) as Hm2.
  pose proof (quoteFormula_nonneg q1 qd price bd
                ltac:(lia) ltac:(lia) ltac:(lia) ltac:(lia) ltac:(lia)) as Hn1.
  pose proof (quoteFormula_nonneg q2 qd price bd
                ltac:(lia) ltac:(lia) ltac:(lia) ltac:(lia) ltac:(lia)) as Hn2.
  unfold wrap64. rewrite !Z.mod_small by (unfold two64 in *; lia).
  unfold quoteFormula in *.
  pose proof (pow10_pos qd ltac:(lia)).
  pose proof (pow10_pos bd ltac:(lia)).
  assert (0 < 10 ^ OrderPriceDecimals) by (apply pow10_pos; lia).
  assert (0 < 10 ^ bd * 10 ^ OrderPriceDecimals) by nia.
  assert (0 <= q1 * 10 ^ qd * price) by nia.
  assert (0 <= q2 * 10 ^ qd * price) by nia.
  assert (0 <= (q1 + q2) * 10 ^ qd * price) by nia.
  rewrite !Z.quot_div_nonneg by done.
  set (d := 10 ^ bd * 10 ^ OrderPriceDecimals) in *.
  apply Z.div_le_lower_bound; [done|].
  pose proof (Z.mul_div_le (q1 * 10 ^ qd * price) d ltac:(done)).
  pose proof (Z.mul_div_le (q2 * 10 ^ qd * price) d ltac:(done)).
  nia.
Qed.

End ConversionFacts.

(** ** More on the settlement of executions *)

Section ExecutionFacts.
Context `{Ambient} `{OrderBookOps}.

Lemma onlyAccounts_refl (t : Transition) : onlyAccounts t t.
Proof. unfold onlyAccounts. by destruct t as [? ? ? ? ? ? [? ? ? ? ?] ? ? ?]. Qed.

Lemma onlyAccounts_store (t t' : Transition) (p : Z) (a : Account) :
  onlyAccounts t t' -> onlyAccounts t (store t' p a).
Proof. unfold onlyAccounts. intros ->. done. Qed.

Lemma onlyAccountsAndFilled_store (t t' : Transition) (p : Z) (a : Account) :
  onlyAccountsAndFilled t t' -> onlyAccountsAndFilled t (store t' p a).
Proof. unfold onlyAccountsAndFilled. intros ->. done. Qed.

Lemma onlyAccountsAndFilled_refl (t : Transition) : onlyAccountsAndFilled t t.
Proof.
  unfold onlyAccountsAndFilled. by destruct t as [? ? ? ? ? ? [? ? ? ? ?] ? ? ?].
Qed.

(** X3. An execution on a sell order, in a valid market: when the
    owner's pending base balance is below the executed quantity the code
    panics; otherwise the pending base balance goes down by the quantity
    and the available quote balance goes up by calcQuoteQuant of the
    quantity at the trade price ([uint64] addition), the available base
    and pending quote balances staying as they were. *)
Theorem placeOrder_execution_sell
    (market : MarketSymbol) (baseInfo quoteInfo : TokenInfo) (round : Z)
    (t : Transition) (exec : Execution) (acc : Account) (order : PendingOrder)
    (recvQuant : Z) :
  let orderID := {| oid_ID := ex_ID exec; oid_Market := market |} in
  let quote := Account_Balance acc (Quote market) in
  let base := Account_Balance acc (Base market) in
  MarketSymbol_Valid market = true ->
  State_Account (state t) (ex_Owner exec) = Some acc ->
  Account_PendingOrder acc orderID = Some order ->
  ex_SellSide exec = true ->
  calcQuoteQuant (ex_Quant exec) (ti_Decimals quoteInfo) (ex_Price exec)
    OrderPriceDecimals (ti_Decimals baseInfo) = Ok recvQuant ->
  is_uint64 (bal_Pending base) -> 0 <= ex_Quant exec ->
  (bal_Pending base < ex_Quant exec ->
   placeOrder_execution market baseInfo quoteInfo round t exec = Panic)
  /\ (ex_Quant exec <= bal_Pending base ->
      exists t' acc',
        placeOrder_execution market baseInfo quoteInfo round t exec = Ok t'
        /\ State_Account (state t') (ex_Owner exec) = Some acc'
        /\ Account_Balance acc' (Base market)
           = set_bal_Pending base (bal_Pending base - ex_Quant exec)
        /\ Account_Balance acc' (Quote market)
           = set_bal_Available quote (wrap64 (bal_Available quote + recvQuant))).
Proof.
  intros orderID quote base Hvalid Hacc Hord Hsell Hrecv Hty Hq.
  assert (Base market ≠ Quote market) as Hne.
  { unfold MarketSymbol_Valid in Hvalid.
    destruct (Z.eqb_spec (Base market) (Quote market)); done. }
  unfold placeOrder_execution.
  rewrite (deref_Some _ _ _ Hacc). simpl.
  unfold Account_PendingOrder in *. simpl. fold orderID. rewrite Hord. simpl.
  rewrite Hsell.
  set (acc1 := if _ =? _ then _ else _).
  assert (Account_Balance acc1.1 (Quote market) = quote
          /\ Account_Balance acc1.1 (Base market) = base) as [Hqb Hbb].
  { unfold acc1. destruct (_ =? _); done. }
  destruct acc1 as [a1 t1]. simpl in Hqb, Hbb. rewrite Hqb, Hbb.
  split.
  - intros Hlow. by destruct (Z.ltb_spec (bal_Pending base) (ex_Quant exec)); [|lia].
  - intros Hcover.
    destruct (Z.ltb_spec (bal_Pending base) (ex_Quant exec)); [lia|].
    rewrite Hrecv. simpl.
    eexists _, _. split; [done|]. split; [apply Account_store_eq|].
    rewrite Balance_update_eq.
    rewrite Balance_update_ne, Balance_update_eq by (intros E; by apply Hne).
    split; [|done]. f_equal. apply wrap64_small. unfold is_uint64 in *. lia.
Qed.

(** X4. The bookkeeping of an execution that returns, on either side:
    the execution report is appended to the owner's reports; the executed
    count of the order grows by the quantity; an order whose count
    reaches its quant leaves the pending set and is appended to the
    filled orders, any other stays pending with the new count; the other
    pending orders, the other accounts and the rest of the transition
    are not touched. *)
Theorem placeOrder_execution_bookkeeping
    (market : MarketSymbol) (baseInfo quoteInfo : TokenInfo) (round : Z)
    (t t' : Transition) (exec : Execution) (acc : Account) (order : PendingOrder) :
  let orderID := {| oid_ID := ex_ID exec; oid_Market := market |} in
  let order' := set_po_Executed order (wrap64 (po_Executed order + ex_Quant exec)) in
  State_Account (state t) (ex_Owner exec) = Some acc ->
  Account_PendingOrder acc orderID = Some order ->
  po_ID order = orderID ->
  placeOrder_execution market baseInfo quoteInfo round t exec = Ok t' ->
  exists acc',
    State_Account (state t') (ex_Owner exec) = Some acc'
    /\ acc_executionReports acc'
       = acc_executionReports acc
         ++ [{| er_Round := round; er_ID := orderID; er_SellSide := ex_SellSide exec;
                er_TradePrice := ex_Price exec; er_Quant := ex_Quant exec;
                er_Fee := 0 |}]
    /\ (if po_Executed order' =? ord_Quant (po_Order order)
        then Account_PendingOrder acc' orderID = None
             /\ filledOrders t' = filledOrders t ++ [order']
        else Account_PendingOrder acc' orderID = Some order'
             /\ filledOrders t' = filledOrders t)
    /\ (forall id, id ≠ orderID ->
          Account_PendingOrder acc' id = Account_PendingOrder acc id)
    /\ (forall p, p ≠ ex_Owner exec ->
          State_Account (state t') p = State_Account (state t) p)
    /\ onlyAccountsAndFilled t t'.
Proof.
  intros orderID order' Hacc Hord Hid Hrun.
  unfold placeOrder_execution in Hrun.
  rewrite (deref_Some _ _ _ Hacc) in Hrun. simpl in Hrun.
  unfold Account_PendingOrder in *. simpl in Hrun. fold orderID in Hrun.
  rewrite Hord in Hrun. simpl in Hrun. fold order' in Hrun.
  revert Hrun. unfold order'. simpl.
  destruct (wrap64 (po_Executed order + ex_Quant exec) =? ord_Quant (po_Order order));
    simpl; destruct (ex_SellSide exec); intros Hrun.
  all: repeat match type of Hrun with
           | context [if ?c then _ else _] => destruct c; [try done|]
           | context [mbind _ ?m] => destruct m; simpl in Hrun; [|try done]
           end.
  all: simpl in Hrun; try discriminate Hrun.
  all: injection Hrun as <-.
  all: eexists; split; [apply Account_store_eq|]; simpl.
  all: split; [done|].
  all: split;
         [split; [rewrite ?Hid; first [apply lookup_delete_eq | apply lookup_insert_eq]|done]|].
  all: split; [intros id Hne; rewrite ?Hid;
               first [by apply lookup_delete_ne | by apply lookup_insert_ne]|].
  all: split; [intros p Hne; unfold State_Account; simpl; by apply lookup_insert_ne|].
  all: unfold onlyAccountsAndFilled.
  all: by destruct t as [? ? ? ? ? ? [? ? ? ? ?] ? ? ?].
Qed.

End ExecutionFacts.

(** ** More on placing an order *)

Section PlaceFacts.
Context `{Ambient} `{OrderBookOps}.

Lemma onlyAccountsAndFilled_trans (t t' t'' : Transition) :
  onlyAccountsAndFilled t t' -> onlyAccountsAndFilled t' t'' ->
  onlyAccountsAndFilled t t''.
Proof.
  unfold onlyAccountsAndFilled.
  destruct t as [? ? ? ? ? ? [? ? ? ? ?] ? ? ?],
           t' as [? ? ? ? ? ? [? ? ? ? ?] ? ? ?],
           t'' as [? ? ? ? ? ? [? ? ? ? ?] ? ? ?].
  unfold set_filledOrders, set_state, set_st_accounts. simpl.
  intros E1 E2. injection E1 as -> -> -> -> -> -> -> -> -> -> -> ->.
  by injection E2 as -> -> -> -> -> -> -> -> -> -> -> ->.
Qed.

Lemma placeOrder_execution_frame (market : MarketSymbol) (bi qi : TokenInfo) (r : Z)
    (t t' : Transition) (e : Execution) :
  placeOrder_execution market bi qi r t e = Ok t' -> onlyAccountsAndFilled t t'.
Proof.
  unfold placeOrder_execution. intros Hrun.
  repeat match type of Hrun with
         | context [mbind _ ?m] => destruct m; simpl in Hrun; [|try done]
         | context [match ?o with Some _ => _ | None => _ end] => destruct o; [|try done]
         | context [if ?c then _ else _] => destruct c; simpl in Hrun; try done
         end.
  all: simpl in Hrun; try discriminate Hrun.
  all: injection Hrun as <-.
  all: unfold onlyAccountsAndFilled.
  all: by destruct t as [? ? ? ? ? ? [? ? ? ? ?] ? ? ?].
Qed.

Lemma forEach_frame {A : Type} (body : Transition -> A -> outcome Transition)
    (l : list A) :
  (forall t t' x, body t x = Ok t' -> onlyAccountsAndFilled t t') ->
  forall t t', forEach body l t = Ok t' -> onlyAccountsAndFilled t t'.
Proof.
  intros Hbody. induction l as [|x l IH]; simpl; intros t t' Hrun.
  - injection Hrun as <-. apply onlyAccountsAndFilled_refl.
  - destruct (body t x) as [t1|] eqn:Hx; simpl in Hrun; [|done].
    eapply onlyAccountsAndFilled_trans; [by eapply Hbody|by apply IH].
Qed.

(** X5. [placeOrder] on an existing owner account returns false, with
    the transition as it was, exactly in these cases: the market is not
    valid; the expire round is set and not above the current round; the
    base or the quote token is unknown to the token cache; the quant is
    0; for a sell, the available base balance is below the quant; for a
    buy, the quote amount to reserve converts to 0 or exceeds the
    available quote balance. *)
Theorem placeOrder_rejects (t : Transition) (owner : Z) (txn : PlaceOrderTxn)
    (round : Z) (acc : Account) :
  let market := pot_Market txn in
  State_Account (state t) owner = Some acc ->
  placeOrder t owner txn round = Ok (t, false)
  <-> (MarketSymbol_Valid market = false
       \/ (0 < pot_ExpireRound txn /\ pot_ExpireRound txn <= round)
       \/ TokenCache_Info (tokenCache t) (Base market) = None
       \/ TokenCache_Info (tokenCache t) (Quote market) = None
       \/ pot_Quant txn = 0
       \/ (pot_SellSide txn = true
           /\ bal_Available (Account_Balance acc (Base market)) < pot_Quant txn)
       \/ (pot_SellSide txn = false
           /\ exists baseInfo quoteInfo pendingQuant,
                TokenCache_Info (tokenCache t) (Base market) = Some baseInfo
                /\ TokenCache_Info (tokenCache t) (Quote market) = Some quoteInfo
                /\ calcQuoteQuant (pot_Quant txn) (ti_Decimals quoteInfo) (pot_Price txn)
                     OrderPriceDecimals (ti_Decimals baseInfo) = Ok pendingQuant
                /\ (pendingQuant = 0
                    \/ bal_Available (Account_Balance acc (Quote market)) < pendingQuant))).
Proof.
  intros market Hacc. unfold placeOrder. fold market.
  destruct (MarketSymbol_Valid market) eqn:Hvalid; simpl; [|by split; [left|]].
  destruct (Z.ltb_spec 0 (pot_ExpireRound txn)) as [Hexp|Hexp];
    destruct (Z.leb_spec (pot_ExpireRound txn) round) as [Hrnd|Hrnd]; simpl;
    try (by split; [right; left|]).
  all: destruct (TokenCache_Info (tokenCache t) (Base market)) as [bi|] eqn:Hbi;
    [|by split; [right; right; left|]].
  all: destruct (TokenCache_Info (tokenCache t) (Quote market)) as [qi|] eqn:Hqi;
    [|by split; [right; right; right; left|]].
  all: unfold placeOrder_reserve; fold market.
  all: destruct (pot_SellSide txn) eqn:Hside.
  all: destruct (Z.eqb_spec (pot_Quant txn) 0) as [Hz|Hz]; simpl;
    [by split; [do 4 right; left|]|].
  all: rewrite ?(deref_Some _ _ _ Hacc); simpl.
  (* sell *)
  1,3,5:
    destruct (Z.ltb_spec (bal_Available (Account_Balance acc (Base market)))
                (pot_Quant txn)) as [Hlow|Hok]; simpl;
    [by split; [do 5 right; left|]|];
    (split;
     [ intros Hrun; exfalso;
       repeat match type of Hrun with
              | context [mbind _ ?m] => destruct m; simpl in Hrun; [|done]
              | context [let '(_, _) := ?p in _] => destruct p; simpl in Hrun
              end; done
     | intros [?|[?|[?|[?|[?|[[_ ?]|[? _]]]]]]]; try done; lia ]).
  (* buy *)
  all: destruct (calcQuoteQuant (pot_Quant txn) (ti_Decimals qi) (pot_Price txn)
                   OrderPriceDecimals (ti_Decimals bi)) as [pq|] eqn:Hpq; simpl.
  2,4,6: split; [done|];
    intros [?|[?|[?|[?|[?|[[? _]|[_ (bi' & qi' & pq' & [= <-] & [= <-] & Hpq' & _)]]]]]]];
    try done; try lia; congruence.
  all: destruct (Z.eqb_spec pq 0) as [Hpz|Hpz]; simpl;
    [split; [|done]; intros _; do 6 right; split; [done|];
     exists bi, qi, pq; by repeat split; try left|].
  all: rewrite ?(deref_Some _ _ _ Hacc); simpl.
  all: destruct (Z.ltb_spec (bal_Available (Account_Balance acc (Quote market))) pq)
         as [Hlow|Hok]; simpl;
    [split; [|done]; intros _; do 6 right; split; [done|];
     exists bi, qi, pq; by repeat split; try right|].
  all: split;
     [ intros Hrun; exfalso;
       repeat match type of Hrun with
              | context [mbind _ ?m] => destruct m; simpl in Hrun; [|done]
              | context [let '(_, _) := ?p in _] => destruct p; simpl in Hrun
              end; done
     | intros [?|[?|[?|[?|[?|[[? _]|[_ (bi' & qi' & pq' & [= <-] & [= <-] & Hpq' & Hor)]]]]]]];
       try done; try lia;
       rewrite Hpq in Hpq'; injection Hpq' as <-; lia ].
Qed.

Lemma placeOrder_reserve_frame (t t' : Transition) (owner : Z) (txn : PlaceOrderTxn)
    (bi qi : TokenInfo) :
  placeOrder_reserve t owner txn bi qi = Ok (Some t') -> onlyAccounts t t'.
Proof.
  unfold placeOrder_reserve. intros Hrun.
  repeat match type of Hrun with
         | context [mbind _ ?m] => destruct m; simpl in Hrun; [|try done]
         | context [if ?c then _ else _] => destruct c; simpl in Hrun; try done
         end.
  all: injection Hrun as <-.
  all: apply onlyAccounts_store, onlyAccounts_refl.
Qed.

Lemma placeOrder_reserve_PK (t t' : Transition) (owner : Z) (txn : PlaceOrderTxn)
    (bi qi : TokenInfo) (acc acc' : Account) :
  State_Account (state t) owner = Some acc ->
  placeOrder_reserve t owner txn bi qi = Ok (Some t') ->
  State_Account (state t') owner = Some acc' ->
  acc_PK acc' = acc_PK acc.
Proof.
  unfold placeOrder_reserve. intros Hacc Hrun Hacc'.
  rewrite (deref_Some _ _ _ Hacc) in Hrun. simpl in Hrun.
  repeat match type of Hrun with
         | context [mbind _ ?m] => destruct m; simpl in Hrun; [|try done]
         | context [if ?c then _ else _] => destruct c; simpl in Hrun; try done
         end.
  all: injection Hrun as <-.
  all: rewrite Account_store_eq in Hacc'; by injection Hacc' as <-.
Qed.

(** X6. What a successful [placeOrder] stages, whatever the matching
    does: the book of the market held by the transition is the book
    [Limit] leaves behind, starting from the loaded (or saved, or new)
    book; the market is marked dirty; an order with an expire round is
    appended to the staged expirations of that round under the id [Limit]
    assigned, an order without one stages nothing; the accepted
    transactions, the staged tokens, the token cache and everything the
    state persists but the accounts are not touched. *)
Theorem placeOrder_stages (t t' : Transition) (owner : Z) (txn : PlaceOrderTxn)
    (round : Z) (acc : Account) :
  let market := pot_Market txn in
  let order := {| ord_Owner := pk_addr (acc_PK acc);
                  ord_SellSide := pot_SellSide txn; ord_Quant := pot_Quant txn;
                  ord_Price := pot_Price txn; ord_ExpireRound := pot_ExpireRound txn |} in
  let limit := Limit (getOrderBook t market).2 order in
  let id := {| oid_ID := limit.1.1; oid_Market := market |} in
  State_Account (state t) owner = Some acc ->
  placeOrder t owner txn round = Ok (t', true) ->
  orderBooks t' = <[market := limit.2]> (orderBooks t)
  /\ dirtyOrderBooks t' = <[market := true]> (dirtyOrderBooks t)
  /\ expirations t'
     = (if 0 <? pot_ExpireRound txn
        then <[pot_ExpireRound txn :=
                 default [] (expirations t !! pot_ExpireRound txn)
                   ++ [{| oe_ID := id; oe_Owner := pk_addr (acc_PK acc) |}]]>
               (expirations t)
        else expirations t)
  /\ txns t' = txns t /\ tokenCreations t' = tokenCreations t
  /\ tokenCache t' = tokenCache t
  /\ set_st_accounts (state t') (st_accounts (state t)) = state t.
Proof.
  intros market order limit id Hacc. unfold placeOrder. fold market.
  destruct (negb (MarketSymbol_Valid market)); [done|].
  destruct (_ && _); [done|].
  destruct (TokenCache_Info (tokenCache t) (Base market)) as [bi|]; [|done].
  destruct (TokenCache_Info (tokenCache t) (Quote market)) as [qi|]; [|done].
  destruct (placeOrder_reserve t owner txn bi qi) as [[t1|]|] eqn:Hres; simpl; [|done|done].
  pose proof (placeOrder_reserve_frame _ _ _ _ _ _ Hres) as Hfr.
  destruct (deref t1 owner) as [acc1|] eqn:Hacc1; simpl; [|done].
  apply deref_Ok in Hacc1.
  rewrite (placeOrder_reserve_PK _ _ _ _ _ _ _ _ Hacc Hres Hacc1).
  assert (getOrderBook t1 market
          = (set_orderBooks t1 (<[market := (getOrderBook t market).2]> (orderBooks t1)),
             (getOrderBook t market).2)
          \/ (getOrderBook t1 market = (t1, (getOrderBook t market).2)
              /\ orderBooks t !! market = Some (getOrderBook t market).2)) as Hgb.
  { rewrite Hfr. unfold getOrderBook. simpl.
    destruct (orderBooks t !! market); [by right|by left]. }
  assert (orderBooks t1 = orderBooks t) as Hob by (by rewrite Hfr).
  fold order.
  destruct Hgb as [-> | [-> Hin]]; fold limit;
    destruct limit as [[oid execs] book'] eqn:Hlim; simpl;
    (destruct (forEach _ execs _) as [t2|] eqn:Hloop; simpl; [|done]);
    intros [= <-];
    apply (forEach_frame _ _ (placeOrder_execution_frame _ _ _ _)) in Hloop;
    rewrite Hloop; rewrite Hfr in *; simpl;
    destruct (0 <? pot_ExpireRound txn); simpl;
    rewrite ?insert_insert_eq;
    (split; [done|]); (split; [done|]); (split; [done|]); (split; [done|]);
    (split; [done|]); (split; [done|]);
    by destruct t as [? ? ? ? ? ? [? ? ? ? ?] ? ? ?].
Qed.

End PlaceFacts.

(** ** More on cancelling and expiring *)

Section CancelExpireFacts.
Context `{Ambient} `{OrderBookOps}.

Lemma refundAfterCancel_shape (t t' : Transition) (owner : Z) (acc : Account)
    (cancel : PendingOrder) (market : MarketSymbol) :
  State_Account (state t) owner = Some acc ->
  refundAfterCancel t owner cancel market = Ok t' ->
  let token := if ord_SellSide (po_Order cancel) then Base market else Quote market in
  exists amount,
    0 <= amount < two64
    /\ amount <= bal_Pending (Account_Balance acc token)
    /\ t' = store t owner
              (Account_UpdateBalance acc token
                 (set_bal_Available
                    (set_bal_Pending (Account_Balance acc token)
                       (wrap64 (bal_Pending (Account_Balance acc token) - amount)))
                    (wrap64 (bal_Available (Account_Balance acc token) + amount)))).
Proof.
  intros Hacc Hrun. unfold refundAfterCancel in Hrun.
  destruct (_ <=? _); [done|].
  rewrite (deref_Some _ _ _ Hacc) in Hrun.
  destruct (ord_SellSide (po_Order cancel)); simpl in *.
  - destruct (Z.ltb_spec (bal_Pending (Account_Balance acc (Base market)))
                (wrap64 (ord_Quant (po_Order cancel) - po_Executed cancel))); [done|].
    injection Hrun as <-. eexists. split; [apply wrap64_range|]. by split.
  - destruct (idToInfo (tokenCache t) !! Quote market) as [qi|]; [|done].
    destruct (idToInfo (tokenCache t) !! Base market) as [bi|]; [|done].
    destruct (calcQuoteQuant _ _ _ _ _) as [pq|] eqn:Hpq; simpl in Hrun; [|done].
    destruct (Z.ltb_spec (bal_Pending (Account_Balance acc (Quote market))) pq); [done|].
    injection Hrun as <-. exists pq.
    split; [by eapply calcQuoteQuant_range|]. by split.
Qed.

(** X7. A refund moves funds between two buckets of one balance and
    nothing else: when the remaining quantity of the order is not
    positive the code panics; when [refundAfterCancel] returns, on a
    balance whose buckets are non-negative and sum up within 64 bits,
    only the owner's balance of one token (base for a sell, quote for a
    buy) has changed, its holdings are what they were, its pending part
    is no larger, its frozen list is the same, and it is still well
    formed. *)
Theorem refundAfterCancel_conserves (t : Transition) (owner : Z) (acc : Account)
    (cancel : PendingOrder) (market : MarketSymbol) :
  let token := if ord_SellSide (po_Order cancel) then Base market else Quote market in
  State_Account (state t) owner = Some acc ->
  wellFormed (Account_Balance acc token) ->
  (ord_Quant (po_Order cancel) <= po_Executed cancel ->
   refundAfterCancel t owner cancel market = Panic)
  /\ (forall t', refundAfterCancel t owner cancel market = Ok t' ->
      exists b',
        t' = store t owner (Account_UpdateBalance acc token b')
        /\ holdings b' = holdings (Account_Balance acc token)
        /\ bal_Pending b' <= bal_Pending (Account_Balance acc token)
        /\ bal_Frozen b' = bal_Frozen (Account_Balance acc token)
        /\ wellFormed b').
Proof.
  intros token Hacc (HA & HP & HF & Hfit). split.
  - intros Hle. unfold refundAfterCancel.
    by destruct (Z.leb_spec (ord_Quant (po_Order cancel)) (po_Executed cancel)); [|lia].
  - intros t' Hrun.
    destruct (refundAfterCancel_shape _ _ _ _ _ _ Hacc Hrun) as (amount & Hrange & Hle & ->).
    fold token in Hle |- *.
    assert (0 <= frozenTotal (bal_Frozen (Account_Balance acc token))) as Hfz.
    { clear -HF. induction HF; simpl; lia. }
    unfold holdings in *. clear Hrun.
    set (b := Account_Balance acc token) in *.
    assert (wrap64 (bal_Available b + amount) = bal_Available b + amount) as Ea
      by (apply wrap64_small; unfold is_uint64; lia).
    assert (wrap64 (bal_Pending b - amount) = bal_Pending b - amount) as Ep
      by (apply wrap64_small; unfold is_uint64; lia).
    eexists. split; [done|]. unfold wellFormed, holdings.
    cbn [bal_Available bal_Pending bal_Frozen set_bal_Available set_bal_Pending].
    rewrite Ea, Ep.
    split; [lia|]. split; [lia|]. split; [done|].
    split; [lia|]. split; [lia|]. split; [done|]. lia.
Qed.

Lemma refundAfterCancel_frame (t t' : Transition) (owner : Z) (c : PendingOrder)
    (m : MarketSymbol) :
  refundAfterCancel t owner c m = Ok t' -> onlyAccounts t t'.
Proof.
  intros Hrun. destruct (State_Account (state t) owner) as [acc|] eqn:Hacc.
  - destruct (refundAfterCancel_shape _ _ _ _ _ _ Hacc Hrun) as (? & _ & _ & ->).
    apply onlyAccounts_store, onlyAccounts_refl.
  - unfold refundAfterCancel, deref in Hrun. rewrite Hacc in Hrun.
    by repeat (destruct (_ : bool) in Hrun; try done).
Qed.

(** X8. [cancelOrder] works on the book, the dirty mark and the owner's
    account only: whatever it returns, the staged expirations, the
    persisted expiration schedule, the saved books, the freeze schedule,
    the filled orders and the accepted transactions are what they were.
    An order cancelled before its expire round stays listed for
    expiration. *)
Theorem cancelOrder_keeps_schedules (t t' : Transition) (owner : Z)
    (txn : CancelOrderTxn) (b : bool) :
  cancelOrder t owner txn = Ok (t', b) ->
  expirations t' = expirations t
  /\ st_orderExpirations (state t') = st_orderExpirations (state t)
  /\ st_orderBooks (state t') = st_orderBooks (state t)
  /\ st_freezeTokens (state t') = st_freezeTokens (state t)
  /\ filledOrders t' = filledOrders t
  /\ txns t' = txns t.
Proof.
  unfold cancelOrder. intros Hrun.
  destruct (deref t owner) as [acc|]; simpl in Hrun; [|done].
  destruct (Account_PendingOrder acc (cot_ID txn)); [|by injection Hrun as <- <-].
  destruct (getOrderBook t (oid_Market (cot_ID txn))) as [t1 book] eqn:Hgb.
  assert (expirations t1 = expirations t /\ state t1 = state t
          /\ filledOrders t1 = filledOrders t /\ txns t1 = txns t) as (He & Hs & Hf & Ht).
  { unfold getOrderBook in Hgb. destruct (orderBooks t !! _); by injection Hgb as <- <-. }
  simpl in Hrun.
  destruct (deref _ owner) as [acc1|]; simpl in Hrun; [|done].
  destruct (refundAfterCancel _ _ _ _) as [t2|] eqn:Hrf; simpl in Hrun; [|done].
  injection Hrun as <- <-.
  apply refundAfterCancel_frame in Hrf. rewrite Hrf. simpl. by rewrite Hs.
Qed.

Lemma expireOrders_entry_stale (t : Transition) (o : orderExpiration) :
  notPending t (oe_Owner o) (oe_ID o) -> expireOrders_entry t o = Panic.
Proof.
  intros Hstale. unfold expireOrders_entry.
  destruct (getOrderBook_state t (oid_Market (oe_ID o))) as [Hst _].
  destruct (getOrderBook t (oid_Market (oe_ID o))) as [t1 book]. simpl in *.
  unfold deref. simpl. rewrite Hst.
  destruct (State_Account (state t) (oe_Owner o)) as [acc|] eqn:Hacc; simpl; [|done].
  by rewrite (Hstale acc Hacc).
Qed.

Lemma expireOrders_entry_keeps_stale (t t' : Transition) (e : orderExpiration)
    (p : Z) (id : OrderID) :
  notPending t p id -> expireOrders_entry t e = Ok t' -> notPending t' p id.
Proof.
  intros Hstale Hrun. unfold expireOrders_entry in Hrun.
  destruct (getOrderBook_state t (oid_Market (oe_ID e))) as [Hst _].
  destruct (getOrderBook t (oid_Market (oe_ID e))) as [t1 book]. simpl in *.
  unfold deref in Hrun. simpl in Hrun. rewrite Hst in Hrun.
  destruct (State_Account (state t) (oe_Owner e)) as [acc|] eqn:Hacc; simpl in Hrun; [|done].
  destruct (Account_PendingOrder acc (oe_ID e)) as [order|]; [|done].
  match type of Hrun with
  | refundAfterCancel ?t2 _ _ _ = _ =>
      destruct (refundAfterCancel_shape t2 t' (oe_Owner e)
                  (Account_RemovePendingOrder acc (oe_ID e)) order
                  (oid_Market (oe_ID e)) (Account_store_eq _ _ _) Hrun)
        as (amount & _ & _ & ->)
  end.
  intros acc' Hacc'. destruct (decide (oe_Owner e = p)) as [<-|Hne].
  - rewrite Account_store_eq in Hacc'. injection Hacc' as <-.
    unfold Account_PendingOrder. simpl.
    destruct (decide (oe_ID e = id)) as [->|Hid]; [apply lookup_delete_eq|].
    rewrite lookup_delete_ne by done. by apply Hstale.
  - rewrite !Account_store_ne in Hacc' by done. simpl in Hacc'.
    apply Hstale. unfold State_Account in *. by rewrite <- Hst.
Qed.

(** An expiration scheduled at round + 1 for an order that is not in its
    owner's pending set (or whose owner has no account) makes
    [expireOrders] panic, wherever the entry stands in the schedule: the
    entries before it either panic themselves or leave the order out of
    the pending set. *)
Lemma expireOrders_stale_panics (t : Transition) (o : orderExpiration) :
  o ∈ State_GetOrderExpirations (state t) (wrap64 (round t + 1)) ->
  notPending t (oe_Owner o) (oe_ID o) ->
  expireOrders t = Panic.
Proof.
  unfold expireOrders.
  generalize (State_GetOrderExpirations (state t) (wrap64 (round t + 1))).
  intros l. revert t. induction l as [|e l IH]; intros t Hin Hstale.
  - by apply elem_of_nil in Hin.
  - simpl. apply elem_of_cons in Hin as [<-|Hin].
    + by rewrite expireOrders_entry_stale.
    + destruct (expireOrders_entry t e) as [t1|] eqn:He; simpl; [|done].
      apply IH; [done|]. by eapply expireOrders_entry_keeps_stale.
Qed.

End CancelExpireFacts.

(** ** More on sending and freezing tokens *)

Section SendFreezeFacts.
Context `{Ambient} `{OrderBookOps}.

(** X10. [sendToken] returns false, the transition as it was, exactly
    when the quant is 0 or exceeds the sender's available balance.
    Otherwise, for a recipient other than the sender, it returns true:
    the sender's available balance goes down by the quant, the
    recipient's goes up by it ([uint64] addition), an account being
    created for the recipient's key when the state has none at its
    address; the pending and frozen parts of both balances, the other
    tokens and the other accounts are not touched. *)
Theorem sendToken_transfers (t : Transition) (owner : Z) (txn : SendTokenTxn)
    (acc : Account) :
  let id := stt_TokenID txn in
  let toAddr := pk_addr (stt_To txn) in
  let b := Account_Balance acc id in
  let toAcc := default (newAccount (stt_To txn)) (State_Account (state t) toAddr) in
  State_Account (state t) owner = Some acc ->
  is_uint64 (bal_Available b) -> 0 <= stt_Quant txn ->
  (sendToken t owner txn = Ok (t, false)
   <-> stt_Quant txn = 0 \/ bal_Available b < stt_Quant txn)
  /\ (stt_Quant txn ≠ 0 -> stt_Quant txn <= bal_Available b -> toAddr ≠ owner ->
      sendToken t owner txn
      = Ok (store
              (store t owner
                 (Account_UpdateBalance acc id
                    (set_bal_Available b (bal_Available b - stt_Quant txn))))
              toAddr
              (Account_UpdateBalance toAcc id
                 (set_bal_Available (Account_Balance toAcc id)
                    (wrap64 (bal_Available (Account_Balance toAcc id) + stt_Quant txn)))),
            true)).
Proof.
  intros id toAddr b toAcc Hacc Hty Hq. unfold sendToken. fold id toAddr.
  destruct (Z.eqb_spec (stt_Quant txn) 0) as [Hz|Hz]; [by split; [split; [left|]|]|].
  rewrite (deref_Some _ _ _ Hacc). simpl. fold b.
  destruct (Z.ltb_spec (bal_Available b) (stt_Quant txn)) as [Hlow|Hok];
    [by split; [split; [right|]|lia]|].
  assert (wrap64 (bal_Available b - stt_Quant txn) = bal_Available b - stt_Quant txn) as ->
    by (apply wrap64_small; unfold is_uint64 in *; lia).
  split.
  - split; [|lia]. intros Hrun. exfalso.
    destruct (State_Account (state t) toAddr); simpl in Hrun;
      repeat match type of Hrun with
             | context [mbind _ ?m] => destruct m; simpl in Hrun; [|done]
             end; done.
  - intros _ _ Hne. unfold toAcc.
    destruct (State_Account (state t) toAddr) as [a|] eqn:Hto; simpl.
    + rewrite (deref_Some _ _ _ Hacc). simpl.
      unfold deref. rewrite Account_store_ne by done. by rewrite Hto.
    + unfold deref. simpl. unfold State_NewAccount, State_Account. simpl. fold toAddr.
      rewrite lookup_insert_ne by done.
      unfold State_Account in Hacc. rewrite Hacc. simpl.
      rewrite lookup_insert_ne by done. rewrite lookup_insert_eq. simpl.
      unfold store. simpl. do 3 f_equal. unfold set_state, set_st_accounts. simpl.
      f_equal. rewrite (insert_insert_ne _ owner toAddr) by done.
      by rewrite insert_insert_eq.
Qed.

Lemma frozenTotal_app (l1 l2 : list Frozen) :
  frozenTotal (l1 ++ l2) = frozenTotal l1 + frozenTotal l2.
Proof. induction l1 as [|f l1 IH]; simpl; [done|]. rewrite IH. lia. Qed.

(** X11. [freezeToken] returns false, the transition as it was, exactly
    when the quant is 0, the release round is not after the current
    round, or the quant exceeds the available balance. Otherwise it
    returns true: the quant leaves the available balance and is appended
    to the frozen list with its release round, the holdings of the token
    staying the same, and the thaw is appended to the freeze schedule of
    the release round under the address of the account's key. *)
Theorem freezeToken_locks (t : Transition) (acc : Z) (txn : FreezeTokenTxn)
    (a : Account) :
  let id := ftt_TokenID txn in
  let b := Account_Balance a id in
  let b' := set_bal_Frozen
              (set_bal_Available b (bal_Available b - ftt_Quant txn))
              (bal_Frozen b ++ [{| fz_AvailableRound := ftt_AvailableRound txn;
                                   fz_Quant := ftt_Quant txn |}]) in
  State_Account (state t) acc = Some a ->
  is_uint64 (bal_Available b) -> 0 <= ftt_Quant txn ->
  (freezeToken t acc txn = Ok (t, false)
   <-> ftt_Quant txn = 0 \/ ftt_AvailableRound txn <= round t
       \/ bal_Available b < ftt_Quant txn)
  /\ (ftt_Quant txn ≠ 0 -> round t < ftt_AvailableRound txn ->
      ftt_Quant txn <= bal_Available b ->
      holdings b' = holdings b
      /\ freezeToken t acc txn
         = Ok (set_state (store t acc (Account_UpdateBalance a id b'))
                 (State_FreezeToken (state (store t acc (Account_UpdateBalance a id b')))
                    (ftt_AvailableRound txn)
                    {| ft_Addr := pk_addr (acc_PK a); ft_TokenID := id;
                       ft_Quant := ftt_Quant txn |}),
               true)).
Proof.
  intros id b b' Hacc Hty Hq. unfold freezeToken. fold id.
  destruct (Z.eqb_spec (ftt_Quant txn) 0) as [Hz|Hz]; [by split; [split; [left|]|]|].
  destruct (Z.leb_spec (ftt_AvailableRound txn) (round t)) as [Hr|Hr];
    [by split; [split; [right; left|]|lia]|].
  rewrite (deref_Some _ _ _ Hacc). simpl. fold b.
  destruct (Z.ltb_spec (bal_Available b) (ftt_Quant txn)) as [Hlow|Hok];
    [by split; [split; [right; right|]|lia]|].
  assert (wrap64 (bal_Available b - ftt_Quant txn) = bal_Available b - ftt_Quant txn) as ->
    by (apply wrap64_small; unfold is_uint64 in *; lia).
  split; [split; [done|lia]|].
  intros _ _ _. split; [|done].
  unfold b', holdings. simpl. rewrite frozenTotal_app. simpl. lia.
Qed.

(** X12. Freezing and thawing, composed: right after a successful
    [freezeToken] of an account held under the address of its key, the
    thaw step for the entry it scheduled returns. When no element frozen
    before has the same quant, the balance of the token is back to what
    it was before the freeze. When one has, that earlier element is the
    one released, whatever its own release round, and the element just
    frozen stays. *)
Theorem freeze_then_release (t t' : Transition) (acc : Z) (txn : FreezeTokenTxn)
    (a : Account) :
  let id := ftt_TokenID txn in
  let b := Account_Balance a id in
  let new := {| fz_AvailableRound := ftt_AvailableRound txn; fz_Quant := ftt_Quant txn |} in
  let thaw := {| ft_Addr := acc; ft_TokenID := id; ft_Quant := ftt_Quant txn |} in
  State_Account (state t) acc = Some a ->
  pk_addr (acc_PK a) = acc ->
  is_uint64 (bal_Available b) ->
  freezeToken t acc txn = Ok (t', true) ->
  State_GetFreezeTokens (state t') (ftt_AvailableRound txn)
  = State_GetFreezeTokens (state t) (ftt_AvailableRound txn) ++ [thaw]
  /\ (Forall (fun g => fz_Quant g ≠ ftt_Quant txn) (bal_Frozen b) ->
      exists t'' a'',
        releaseTokens_entry t' thaw = Ok t''
        /\ State_Account (state t'') acc = Some a''
        /\ Account_Balance a'' id = b)
  /\ (forall l1 f l2,
        bal_Frozen b = l1 ++ f :: l2 ->
        Forall (fun g => fz_Quant g ≠ ftt_Quant txn) l1 ->
        fz_Quant f = ftt_Quant txn ->
        exists t'' a'',
          releaseTokens_entry t' thaw = Ok t''
          /\ State_Account (state t'') acc = Some a''
          /\ bal_Frozen (Account_Balance a'' id) = l1 ++ l2 ++ [new]
          /\ bal_Available (Account_Balance a'' id) = bal_Available b).
Proof.
  intros id b new thaw Hacc Hown Hty Hrun.
  unfold freezeToken in Hrun. fold id in Hrun.
  destruct (ftt_Quant txn =? 0); [done|].
  destruct (ftt_AvailableRound txn <=? round t); [done|].
  rewrite (deref_Some _ _ _ Hacc) in Hrun. simpl in Hrun. fold b in Hrun.
  destruct (Z.ltb_spec (bal_Available b) (ftt_Quant txn)) as [Hlow|Hok]; [done|].
  injection Hrun as <-. rewrite Hown. fold thaw new.
  set (b1 := set_bal_Frozen _ _).
  set (a1 := Account_UpdateBalance a id b1).
  assert (wrap64 (wrap64 (bal_Available b - ftt_Quant txn) + ftt_Quant txn)
          = bal_Available b) as Hback.
  { rewrite wrap64_add_l.
    replace (bal_Available b - ftt_Quant txn + ftt_Quant txn) with (bal_Available b) by lia.
    by apply wrap64_small. }
  assert (Account_Balance a1 id = b1) as Hb1 by (unfold a1; apply Balance_update_eq).
  set (t1 := set_state (store t acc a1) _).
  assert (State_Account (state t1) acc = Some a1) as Hacc1.
  { unfold t1, State_Account. simpl. apply lookup_insert_eq. }
  split.
  { unfold t1, State_GetFreezeTokens at 1. simpl. by rewrite lookup_insert_eq. }
  split.
  - intros Hnone.
    assert (releaseTokens_entry t1 thaw
            = Ok (store t1 acc
                    (Account_UpdateBalance a1 id
                       {| bal_Available := wrap64 (bal_Available b1 + ftt_Quant txn);
                          bal_Pending := bal_Pending b1;
                          bal_Frozen := bal_Frozen b ++ [] |}))) as ->.
    { rewrite <- Hb1.
      apply (releaseTokens_entry_first t1 thaw a1 (bal_Frozen b) [] new);
        [done| |done|done].
      change (ft_TokenID thaw) with id. by rewrite Hb1. }
    eexists _, _. split; [done|]. split; [apply Account_store_eq|].
    rewrite Balance_update_eq. simpl. rewrite Hback, app_nil_r. by destruct b.
  - intros l1 f l2 Hfr Hl1 Hf.
    assert (releaseTokens_entry t1 thaw
            = Ok (store t1 acc
                    (Account_UpdateBalance a1 id
                       {| bal_Available := wrap64 (bal_Available b1 + ftt_Quant txn);
                          bal_Pending := bal_Pending b1;
                          bal_Frozen := l1 ++ l2 ++ [new] |}))) as ->.
    { rewrite <- Hb1.
      apply (releaseTokens_entry_first t1 thaw a1 l1 (l2 ++ [new]) f);
        [done| |done|done].
      change (ft_TokenID thaw) with id. rewrite Hb1. simpl. rewrite Hfr.
      by rewrite <- app_assoc. }
    eexists _, _. split; [done|]. split; [apply Account_store_eq|].
    rewrite Balance_update_eq. simpl. by rewrite Hback.
Qed.

(** X13. A thaw at the head of the schedule of round + 1 that nothing
    matches makes [releaseTokens] panic: when the state has no account at
    the entry's address, and when no element of the account's frozen list
    has exactly the entry's quant (the list is then indexed at -1). *)
Theorem releaseTokens_unmatched_panics (t : Transition) (token : freezeTokenEntry)
    (rest : list freezeTokenEntry) :
  State_GetFreezeTokens (state t) (wrap64 (round t + 1)) = token :: rest ->
  match State_Account (state t) (ft_Addr token) with
  | None => True
  | Some acc =>
      Forall (fun g => fz_Quant g ≠ ft_Quant token)
        (bal_Frozen (Account_Balance acc (ft_TokenID token)))
  end ->
  releaseTokens t = Panic.
Proof.
  intros Hsched Hno. unfold releaseTokens. rewrite Hsched. simpl.
  destruct (State_Account (state t) (ft_Addr token)) as [acc|] eqn:Hacc.
  - by rewrite (releaseTokens_entry_no_match t token acc).
  - unfold releaseTokens_entry, deref. by rewrite Hacc.
Qed.

End SendFreezeFacts.

(** ** More on the finalization of a round *)

Section FinalizeMoreFacts.
Context `{Ambient} `{OrderBookOps}.

Lemma rangeMap_forwards {K} `{Countable K} {A S : Type} (ro : RangeOrder)
    (m : gmap K A) (body : S -> K * A -> S) (s : S) :
  RangeOrder_lawful ro ->
  (forall s x y, x.1 ≠ y.1 -> body (body s x) y = body (body s y) x) ->
  rangeMap ro m body s = fold_left body (map_to_list m) s.
Proof.
  intros Hl Hcomm.
  rewrite (rangeMap_any_order ro {| range_order := fun K A l => l |} m body s); try done.
  intros ? ? l. reflexivity.
Qed.

(** What a loop that appends to the persisted schedule leaves, entry list
    by entry list. *)
Lemma record_fold (l : list (Z * list orderExpiration)) (t : Transition) :
  NoDup l.*1 ->
  let t' := fold_left
              (fun t '(expireRound, ids) =>
                 set_state t (State_AddOrderExpirations (state t) expireRound ids))
              l t in
  t' = set_state t (set_st_orderExpirations (state t) (st_orderExpirations (state t')))
  /\ forall r,
       st_orderExpirations (state t') !! r
       = match (list_to_map l : gmap Z (list orderExpiration)) !! r with
         | Some ids => Some (State_GetOrderExpirations (state t) r ++ ids)
         | None => st_orderExpirations (state t) !! r
         end.
Proof.
  revert t. induction l as [|[k v] l IH]; intros t Hnd.
  - simpl. split; [by destruct t as [? ? ? ? ? ? [? ? ? ? ?] ? ? ?]|]. intros r.
    by rewrite lookup_empty.
  - rewrite fmap_cons in Hnd. apply NoDup_cons in Hnd as [Hk Hnd].
    cbn [fold_left list_to_map foldr uncurry fst snd] in *.
    destruct (IH (set_state t (State_AddOrderExpirations (state t) k v)) Hnd)
      as [Hframe Hlook].
    split.
    + rewrite Hframe at 1. by destruct t as [? ? ? ? ? ? [? ? ? ? ?] ? ? ?].
    + intros r. rewrite Hlook. simpl.
      destruct (decide (k = r)) as [<-|Hne].
      * rewrite (not_elem_of_list_to_map_1 _ _ Hk). simpl.
        by rewrite !lookup_insert_eq.
      * rewrite (lookup_insert_ne _ k r) by done.
        unfold State_GetOrderExpirations. simpl.
        by rewrite !lookup_insert_ne by done.
Qed.

Lemma save_fold (l : list (MarketSymbol * orderBook)) (t : Transition) :
  NoDup l.*1 ->
  let t' := fold_left
              (fun t '(m, b) =>
                 if default false (dirtyOrderBooks t !! m)
                 then set_state t (State_saveOrderBook (state t) m b)
                 else t)
              l t in
  t' = set_state t
         {| st_accounts := st_accounts (state t); st_tokens := st_tokens (state t);
            st_orderBooks := st_orderBooks (state t');
            st_orderExpirations := st_orderExpirations (state t);
            st_freezeTokens := st_freezeTokens (state t) |}
  /\ forall m,
       st_orderBooks (state t') !! m
       = match (list_to_map l : gmap MarketSymbol orderBook) !! m with
         | Some b => if default false (dirtyOrderBooks t !! m) then Some b
                     else st_orderBooks (state t) !! m
         | None => st_orderBooks (state t) !! m
         end.
Proof.
  revert t. induction l as [|[k v] l IH]; intros t Hnd.
  - simpl. split; [by destruct t as [? ? ? ? ? ? [? ? ? ? ?] ? ? ?]|]. intros r.
    by rewrite lookup_empty.
  - rewrite fmap_cons in Hnd. apply NoDup_cons in Hnd as [Hk Hnd].
    cbn [fold_left list_to_map foldr uncurry fst snd] in *.
    set (t1 := if default false (dirtyOrderBooks t !! k)
               then set_state t (State_saveOrderBook (state t) k v) else t).
    destruct (IH t1 Hnd) as [Hframe Hlook].
    assert (dirtyOrderBooks t1 = dirtyOrderBooks t) as Hd
      by (unfold t1; by destruct (default false _)).
    split.
    + rewrite Hframe at 1. unfold t1.
      destruct (default false _); by destruct t as [? ? ? ? ? ? [? ? ? ? ?] ? ? ?].
    + intros m. rewrite Hlook, Hd. simpl.
      destruct (decide (k = m)) as [<-|Hne].
      * rewrite (not_elem_of_list_to_map_1 _ _ Hk). unfold t1.
        destruct (default false _); simpl; by rewrite !lookup_insert_eq.
      * rewrite (lookup_insert_ne _ k m) by done.
        assert (st_orderBooks (state t1) !! m = st_orderBooks (state t) !! m) as ->.
        { unfold t1. destruct (default false _); simpl; [|done].
          by rewrite lookup_insert_ne. }
        done.
Qed.

Lemma countFilled_app (l : list PendingOrder) (o : PendingOrder) :
  countFilled (l ++ [o])
  = (if ord_ExpireRound (po_Order o) =? 0 then countFilled l
     else (<[ord_ExpireRound (po_Order o) :=
               default 0 ((countFilled l).1 !! ord_ExpireRound (po_Order o)) + 1]>
             (countFilled l).1,
           <[po_ID o := true]> (countFilled l).2)).
Proof.
  unfold countFilled. rewrite fold_left_app. simpl.
  by destruct (fold_left _ l _) as [rounds filled].
Qed.

Lemma countFilled_rounds (l : list PendingOrder) (r : Z) :
  is_Some ((countFilled l).1 !! r) <-> expiresAt l r = true.
Proof.
  induction l as [|o l IH] using rev_ind.
  - simpl. split; [by intros [? ?]|done].
  - rewrite countFilled_app. unfold expiresAt in *. rewrite existsb_app. simpl.
    rewrite orb_false_r, orb_true_iff, <- IH, andb_true_iff, negb_true_iff.
    destruct (Z.eqb_spec (ord_ExpireRound (po_Order o)) 0) as [Hz|Hz].
    + split; [by left|]. intros [?|[?%Z.eqb_eq ?%Z.eqb_neq]]; [done|lia].
    + simpl. rewrite lookup_insert. case_decide as Hr.
      * split; [|by eexists]. intros _. right.
        split; [by apply Z.eqb_eq|apply Z.eqb_neq; lia].
      * split; [by left|]. intros [?|[?%Z.eqb_eq ?]]; [done|lia].
Qed.

Lemma countFilled_filled (l : list PendingOrder) (id : OrderID) :
  isFilled (countFilled l).2 id = filledWithExpiry l id.
Proof.
  induction l as [|o l IH] using rev_ind; [done|].
  rewrite countFilled_app. unfold filledWithExpiry in *. rewrite existsb_app. simpl.
  rewrite orb_false_r, <- IH.
  destruct (Z.eqb_spec (ord_ExpireRound (po_Order o)) 0) as [Hz|Hz]; simpl.
  - by rewrite andb_false_r, orb_false_r.
  - rewrite andb_true_r. unfold isFilled. simpl. rewrite lookup_insert.
    case_decide as Hid.
    + rewrite bool_decide_eq_true_2 by done. simpl. by rewrite orb_true_r.
    + rewrite bool_decide_eq_false_2 by done. by rewrite orb_false_r.
Qed.

(** What the second loop of [removeFilledOrderFromExpiration] leaves,
    round by round. *)
Lemma removeFilled_fold (filled : gmap OrderID bool) (l : list (Z * Z)) (t : Transition) :
  NoDup l.*1 -> Forall (fun e => 0 < e.2) l ->
  let t' := fold_left (removeFilled_round filled) l t in
  t' = set_expirations
         (set_state t (set_st_orderExpirations (state t) (st_orderExpirations (state t'))))
         (expirations t')
  /\ forall r,
       (expirations t' !! r
        = match (list_to_map l : gmap Z Z) !! r with
          | Some _ => Some (keepUnfilled filled (default [] (expirations t !! r)))
          | None => expirations t !! r
          end)
       /\ (st_orderExpirations (state t') !! r
           = match (list_to_map l : gmap Z Z) !! r with
             | Some _ => Some (keepUnfilled filled (State_GetOrderExpirations (state t) r))
             | None => st_orderExpirations (state t) !! r
             end).
Proof.
  revert t. induction l as [|[k n] l IH]; intros t Hnd Hpos.
  - simpl. split; [by destruct t as [? ? ? ? ? ? [? ? ? ? ?] ? ? ?]|]. intros r.
    by rewrite lookup_empty.
  - rewrite fmap_cons in Hnd. apply NoDup_cons in Hnd as [Hk Hnd].
    apply Forall_cons in Hpos as [Hn Hpos]. simpl in Hn.
    cbn [fold_left list_to_map foldr uncurry fst snd] in *.
    set (t1 := removeFilled_round filled t (k, n)).
    assert (t1 = set_expirations
                   (set_state t (State_RemoveOrderExpirations (state t) k filled))
                   (<[k := keepUnfilled filled (default [] (expirations t !! k))]>
                      (expirations t))) as Ht1.
    { unfold t1, removeFilled_round.
      assert (skipsPersisted (default [] (expirations t !! k))
                (keepUnfilled filled (default [] (expirations t !! k))) n = false) as ->; [|done].
      unfold skipsPersisted, keepUnfilled. apply Z.eqb_neq.
      pose proof (filter_length_le (fun exp => negb (isFilled filled (oe_ID exp)))
                    (default [] (expirations t !! k))). lia. }
    destruct (IH t1 Hnd Hpos) as [Hframe Hlook].
    split.
    + rewrite Hframe at 1. rewrite Ht1.
      by destruct t as [? ? ? ? ? ? [? ? ? ? ?] ? ? ?].
    + intros r. destruct (Hlook r) as [-> ->]. rewrite Ht1.
      destruct (decide (k = r)) as [<-|Hne].
      * rewrite (not_elem_of_list_to_map_1 _ _ Hk). simpl.
        by rewrite !lookup_insert_eq.
      * rewrite (lookup_insert_ne _ k r) by done.
        unfold State_GetOrderExpirations. simpl.
        by rewrite !lookup_insert_ne by done.
Qed.

Lemma removeFilled_lookup (ro : RangeOrder) (t : Transition) :
  RangeOrder_lawful ro ->
  let t' := removeFilledOrderFromExpiration ro t in
  let unfilled := List.filter (fun e => negb (filledWithExpiry (filledOrders t) (oe_ID e))) in
  t' = set_expirations
         (set_state t (set_st_orderExpirations (state t) (st_orderExpirations (state t'))))
         (expirations t')
  /\ forall r,
       (expirations t' !! r
        = if expiresAt (filledOrders t) r
          then Some (unfilled (default [] (expirations t !! r)))
          else expirations t !! r)
       /\ (st_orderExpirations (state t') !! r
           = if expiresAt (filledOrders t) r
             then Some (unfilled (State_GetOrderExpirations (state t) r))
             else st_orderExpirations (state t) !! r).
Proof.
  intros Hl. cbn zeta. unfold removeFilledOrderFromExpiration.
  pose proof (countFilled_rounds (filledOrders t)) as Hrounds.
  pose proof (countFilled_filled (filledOrders t)) as Hfilled.
  pose proof (countFilled_positive (filledOrders t)) as Hpos.
  destruct (countFilled (filledOrders t)) as [rounds filled]. simpl in *.
  rewrite rangeMap_forwards; [|done|by intros; apply removeFilled_round_comm].
  destruct (removeFilled_fold filled (map_to_list rounds) t) as [Hframe Hlook].
  { exact (NoDup_fst_map_to_list rounds). }
  { apply Forall_forall. intros [r n] Hin%elem_of_map_to_list. by eapply Hpos. }
  split; [done|]. intros r. destruct (Hlook r) as [-> ->].
  rewrite list_to_map_to_list.
  assert (forall l, keepUnfilled filled l
          = List.filter (fun e => negb (filledWithExpiry (filledOrders t) (oe_ID e))) l) as Hk.
  { intros l. unfold keepUnfilled. apply filter_ext. intros e. by rewrite Hfilled. }
  rewrite !Hk.
  specialize (Hrounds r).
  destruct (expiresAt (filledOrders t) r).
  - by destruct (proj2 Hrounds eq_refl) as [n ->].
  - destruct (rounds !! r) as [n|] eqn:Hr; [|done].
    assert (is_Some (Some n)) as Hs by (by eexists).
    by apply Hrounds in Hs.
Qed.

Lemma record_lookup (ro : RangeOrder) (t : Transition) :
  RangeOrder_lawful ro ->
  let t' := recordOrderExpirations ro t in
  t' = set_state t (set_st_orderExpirations (state t) (st_orderExpirations (state t')))
  /\ forall r,
       st_orderExpirations (state t') !! r
       = match expirations t !! r with
         | Some ids => Some (State_GetOrderExpirations (state t) r ++ ids)
         | None => st_orderExpirations (state t) !! r
         end.
Proof.
  intros Hl. cbn zeta.
  rewrite (recordOrderExpirations_any_order ro {| range_order := fun K A l => l |});
    [|done|by intros ? ? ?].
  unfold recordOrderExpirations, rangeMap. simpl.
  destruct (record_fold (map_to_list (expirations t)) t) as [Hframe Hlook];
    [apply NoDup_fst_map_to_list|].
  split; [done|]. intros r. rewrite Hlook. by rewrite list_to_map_to_list.
Qed.

Lemma save_lookup (ro : RangeOrder) (t : Transition) :
  RangeOrder_lawful ro ->
  let t' := saveDirtyOrderBooks ro t in
  t' = set_state t
         {| st_accounts := st_accounts (state t); st_tokens := st_tokens (state t);
            st_orderBooks := st_orderBooks (state t');
            st_orderExpirations := st_orderExpirations (state t);
            st_freezeTokens := st_freezeTokens (state t) |}
  /\ forall m,
       st_orderBooks (state t') !! m
       = match orderBooks t !! m with
         | Some b => if default false (dirtyOrderBooks t !! m) then Some b
                     else st_orderBooks (state t) !! m
         | None => st_orderBooks (state t) !! m
         end.
Proof.
  intros Hl. cbn zeta.
  rewrite (saveDirtyOrderBooks_any_order ro {| range_order := fun K A l => l |});
    [|done|by intros ? ? ?].
  unfold saveDirtyOrderBooks, rangeMap. simpl.
  destruct (save_fold (map_to_list (orderBooks t)) t) as [Hframe Hlook];
    [apply NoDup_fst_map_to_list|].
  split; [done|]. intros r. rewrite Hlook. by rewrite list_to_map_to_list.
Qed.

(** X14. [removeFilledOrderFromExpiration], whatever the order of the
    visit: at every round at which some filled order expires (orders
    without an expire round do not count), the staged list becomes the
    staged entries whose order is not filled, a round without a staged
    list getting an empty one, and the persisted schedule of the round is
    purged of filled orders likewise; at every other round the staged
    list and the persisted schedule are what they were. Accounts, books
    and the freeze schedule are not touched. *)
Theorem removeFilledOrderFromExpiration_filters (ro : RangeOrder) (t : Transition) :
  RangeOrder_lawful ro ->
  let t' := removeFilledOrderFromExpiration ro t in
  let unfilled := List.filter (fun e => negb (filledWithExpiry (filledOrders t) (oe_ID e))) in
  (forall r,
     (expirations t' !! r
      = if expiresAt (filledOrders t) r
        then Some (unfilled (default [] (expirations t !! r)))
        else expirations t !! r)
     /\ (st_orderExpirations (state t') !! r
         = if expiresAt (filledOrders t) r
           then Some (unfilled (State_GetOrderExpirations (state t) r))
           else st_orderExpirations (state t) !! r))
  /\ st_accounts (state t') = st_accounts (state t)
  /\ st_orderBooks (state t') = st_orderBooks (state t)
  /\ st_freezeTokens (state t') = st_freezeTokens (state t)
  /\ orderBooks t' = orderBooks t /\ dirtyOrderBooks t' = dirtyOrderBooks t
  /\ filledOrders t' = filledOrders t.
Proof.
  intros Hl. destruct (removeFilled_lookup ro t Hl) as [Hframe Hlook].
  cbn zeta. split; [done|]. by rewrite Hframe.
Qed.

(** X15. [recordOrderExpirations], whatever the order of the visit: the
    persisted schedule of every round that has a staged list is that
    schedule followed by the staged entries, in their staged order; the
    schedule of every other round, and everything else in the transition
    and the state, is what it was. *)
Theorem recordOrderExpirations_appends (ro : RangeOrder) (t : Transition) :
  RangeOrder_lawful ro ->
  let t' := recordOrderExpirations ro t in
  (forall r,
     State_GetOrderExpirations (state t') r
     = State_GetOrderExpirations (state t) r ++ default [] (expirations t !! r))
  /\ (forall r, expirations t !! r = None ->
        st_orderExpirations (state t') !! r = st_orderExpirations (state t) !! r)
  /\ t' = set_state t (set_st_orderExpirations (state t) (st_orderExpirations (state t'))).
Proof.
  intros Hl. destruct (record_lookup ro t Hl) as [Hframe Hlook].
  cbn zeta. split; [|split; [|done]].
  - intros r. unfold State_GetOrderExpirations at 1. rewrite Hlook.
    destruct (expirations t !! r); simpl; [done|]. by rewrite app_nil_r.
  - intros r Hr. by rewrite Hlook, Hr.
Qed.

(** X16. [saveDirtyOrderBooks], whatever the order of the visit: the
    saved book of a market becomes the book the transition holds exactly
    when the transition holds one and the market is marked dirty; a book
    that was loaded but not marked, and a market the transition never
    loaded, keep the saved book they had. Nothing else changes. *)
Theorem saveDirtyOrderBooks_saves (ro : RangeOrder) (t : Transition) :
  RangeOrder_lawful ro ->
  let t' := saveDirtyOrderBooks ro t in
  (forall m b, orderBooks t !! m = Some b -> dirtyOrderBooks t !! m = Some true ->
     State_loadOrderBook (state t') m = Some b)
  /\ (forall m, orderBooks t !! m = None \/ default false (dirtyOrderBooks t !! m) = false ->
       State_loadOrderBook (state t') m = State_loadOrderBook (state t) m)
  /\ st_accounts (state t') = st_accounts (state t)
  /\ st_orderExpirations (state t') = st_orderExpirations (state t)
  /\ st_freezeTokens (state t') = st_freezeTokens (state t)
  /\ orderBooks t' = orderBooks t /\ expirations t' = expirations t.
Proof.
  intros Hl. destruct (save_lookup ro t Hl) as [Hframe Hlook].
  cbn zeta. unfold State_loadOrderBook. split; [|split].
  - intros m b Hb Hd. by rewrite Hlook, Hb, Hd.
  - intros m [Hn|Hd]; rewrite Hlook.
    + by rewrite Hn.
    + rewrite Hd. by destruct (orderBooks t !! m).
  - by rewrite Hframe.
Qed.

(** X17. [finalizeState] runs once: a call that returns leaves the
    transition finalized, a further call (with any round argument and any
    order of visit) returns that same transition, [StateHash] asked again
    gives the same hash, and [Transition.Record] on it panics. *)
Theorem finalizeState_once (validateNonce : State -> Txn -> Z * bool * bool)
    (State_Hash : State -> list Z) (ro ro' : RangeOrder) (t t' : Transition) (r r' : Z) :
  finalizeState ro t r = Ok t' ->
  finalized t' = true
  /\ finalizeState ro' t' r' = Ok t'
  /\ StateHash State_Hash ro' t' = Ok (t', State_Hash (state t'))
  /\ (forall txn, Transition_Record validateNonce t' txn = Panic).
Proof.
  intros Hrun.
  assert (finalized t' = true) as Hfin.
  { unfold finalizeState in Hrun. destruct (finalized t) eqn:Hf.
    - by injection Hrun as <-.
    - destruct (expireOrders _) as [t1|]; simpl in Hrun; [|done].
      destruct (releaseTokens _) as [t2|]; simpl in Hrun; [|done].
      by injection Hrun as <-. }
  assert (forall x, finalizeState ro' t' x = Ok t') as Hagain.
  { intros x. unfold finalizeState. by rewrite Hfin. }
  split; [done|]. split; [done|]. split.
  - unfold StateHash. by rewrite Hagain.
  - intros txn. unfold Transition_Record. by rewrite Hfin.
Qed.

Lemma unfilled_keeps (orders : list PendingOrder) (l : list orderExpiration)
    (o : orderExpiration) :
  o ∈ l -> filledWithExpiry orders (oe_ID o) = false ->
  o ∈ List.filter (fun e => negb (filledWithExpiry orders (oe_ID e))) l.
Proof.
  intros Hin Hno. apply list_elem_of_In, filter_In.
  split; [by apply list_elem_of_In|]. by rewrite Hno.
Qed.

(** X9. An order that is listed for expiration at round + 1, in the
    staged expirations or in the persisted schedule, and that is neither
    filled nor in its owner's pending set any more, makes the
    finalization of the round panic, whatever the order of visit. Since
    [cancelOrder] leaves both lists as they are, the finalization of the
    round before the expire round of a cancelled order does not return. *)
Theorem finalizeState_stale_expiration_panics (ro : RangeOrder) (t : Transition)
    (r : Z) (o : orderExpiration) :
  let next := wrap64 (round t + 1) in
  RangeOrder_lawful ro ->
  finalized t = false ->
  o ∈ default [] (expirations t !! next)
  \/ o ∈ State_GetOrderExpirations (state t) next ->
  filledWithExpiry (filledOrders t) (oe_ID o) = false ->
  notPending t (oe_Owner o) (oe_ID o) ->
  finalizeState ro t r = Panic.
Proof.
  intros next Hl Hfin Hin Hno Hstale. unfold finalizeState. rewrite Hfin.
  destruct (removeFilled_lookup ro t Hl) as [Hf1 Hlook1].
  set (t1 := removeFilledOrderFromExpiration ro t) in *.
  destruct (record_lookup ro t1 Hl) as [Hf2 Hlook2].
  set (t2 := recordOrderExpirations ro t1) in *.
  assert (round t2 = round t /\ st_accounts (state t2) = st_accounts (state t))
    as [Hround Haccs].
  { rewrite Hf2. simpl. by rewrite Hf1. }
  assert (o ∈ State_GetOrderExpirations (state t2) (wrap64 (round t2 + 1))) as Hin2.
  { rewrite Hround. fold next. unfold State_GetOrderExpirations at 1.
    rewrite Hlook2. destruct (Hlook1 next) as [Hs Hp].
    assert (o ∈ default [] (expirations t1 !! next)
            \/ o ∈ State_GetOrderExpirations (state t1) next) as Hin1.
    { unfold State_GetOrderExpirations at 1. rewrite Hs, Hp.
      destruct (expiresAt (filledOrders t) next); simpl; [|done].
      destruct Hin; [left|right]; by apply unfilled_keeps. }
    destruct (expirations t1 !! next) as [ids|]; simpl in *.
    - apply elem_of_app. tauto.
    - destruct Hin1 as [Hin1|Hin1]; [by apply elem_of_nil in Hin1|done]. }
  rewrite (expireOrders_stale_panics t2 o Hin2); [done|].
  intros acc Hacc. apply Hstale. unfold State_Account in *. by rewrite <- Haccs.
Qed.

Lemma rangeMap_empty {K} `{Countable K} {A S : Type} (ro : RangeOrder)
    (body : S -> K * A -> S) (s : S) :
  RangeOrder_lawful ro -> rangeMap ro (∅ : gmap K A) body s = s.
Proof.
  intros Hl. unfold rangeMap. rewrite map_to_list_empty.
  pose proof (Hl K A []) as Hp. apply Permutation_nil_r in Hp. by rewrite Hp.
Qed.

(** X18. A round without transactions on a state with nothing scheduled
    at round + 1: the finalization of the fresh transition returns, and
    the state it commits is the prior state, so that the state hash of
    the round is the hash of the prior state. *)
Theorem finalizeState_fresh (State_Hash : State -> list Z) (ro : RangeOrder)
    (prior : State) (r r' : Z) :
  RangeOrder_lawful ro ->
  State_GetOrderExpirations prior (wrap64 (r + 1)) = [] ->
  State_GetFreezeTokens prior (wrap64 (r + 1)) = [] ->
  finalizeState ro (newTransition prior r) r'
  = Ok (set_finalized (newTransition prior r) true)
  /\ StateHash State_Hash ro (newTransition prior r)
     = Ok (set_finalized (newTransition prior r) true, State_Hash prior).
Proof.
  intros Hl Hexp Hfrz.
  assert (finalizeState ro (newTransition prior r) r'
          = Ok (set_finalized (newTransition prior r) true)
          /\ finalizeState ro (newTransition prior r) r
             = Ok (set_finalized (newTransition prior r) true)) as [H1 H2].
  { assert (removeFilledOrderFromExpiration ro (newTransition prior r)
            = newTransition prior r) as E1.
    { unfold removeFilledOrderFromExpiration. simpl. by apply rangeMap_empty. }
    assert (recordOrderExpirations ro (newTransition prior r)
            = newTransition prior r) as E2.
    { unfold recordOrderExpirations. simpl. by apply rangeMap_empty. }
    assert (expireOrders (newTransition prior r) = Ok (newTransition prior r)) as E3.
    { unfold expireOrders. cbn [newTransition state round]. by rewrite Hexp. }
    assert (saveDirtyOrderBooks ro (newTransition prior r)
            = newTransition prior r) as E4.
    { unfold saveDirtyOrderBooks. simpl. by apply rangeMap_empty. }
    assert (releaseTokens (newTransition prior r) = Ok (newTransition prior r)) as E5.
    { unfold releaseTokens. cbn [newTransition state round]. by rewrite Hfrz. }
    unfold finalizeState. cbn [newTransition finalized].
    fold (newTransition prior r). rewrite E1, E2, E3. simpl.
    fold (newTransition prior r). rewrite E4, E5. done. }
  split; [done|]. unfold StateHash. simpl. by rewrite H2.
Qed.

End FinalizeMoreFacts.

(** ** Batches, the book cache, block validation *)

Section BatchFacts.
Context `{Ambient} `{OrderBookOps}.
Context (validateNonce : State -> Txn -> Z * bool * bool).

(** The two ways [Transition.Record] returns. *)
Lemma Record_shape (t t' : Transition) (txn : Txn) (valid success : bool) :
  Transition_Record validateNonce t txn = Ok (t', (valid, success)) ->
  (valid = true /\ success = true /\ txns t' = txns t ++ [txn])
  \/ ((valid = false \/ success = false) /\ t' = t).
Proof.
  unfold Transition_Record. intros Hrun.
  destruct (finalized t); [done|].
  destruct (validateNonce (state t) txn) as [[acc ready] nonceValid].
  destruct nonceValid; simpl in Hrun; [|injection Hrun as <- <- <-; right; auto].
  destruct ready; simpl in Hrun; [|injection Hrun as <- <- <-; right; auto].
  match type of Hrun with
  | context [mbind _ ?m] => destruct m as [[t1 ok]|] eqn:Hop; simpl in Hrun
  end; [|done].
  destruct ok; simpl in Hrun; injection Hrun as <- <- <-.
  - left. apply dispatch_txns in Hop. simpl. by rewrite Hop.
  - right. apply dispatch_false in Hop. auto.
Qed.

(** X19. A batch is recorded up to its first transaction that is not
    accepted. When the loop of [RecordSerialized] reports (valid,
    success) = (true, true), the count has grown by the length of the
    batch and the whole batch, in its order, has been appended to the
    accepted transactions. Otherwise the count reported is 0, yet the
    transition is not rolled back: it is the transition reached by
    recording the transactions before the offending one, which stay
    appended, and the flags are those [Record] gave for the offending
    transaction, which itself left the transition as it was. *)
Theorem RecordTxns_all_or_prefix (t t' : Transition) (batch : list Txn)
    (count n : Z) (valid success : bool) :
  RecordTxns validateNonce t batch count = Ok (t', (n, valid, success)) ->
  (valid = true /\ success = true
   /\ n = count + Z.of_nat (length batch)
   /\ txns t' = txns t ++ batch)
  \/ ((valid = false \/ success = false) /\ n = 0
      /\ exists recorded txn rest,
           batch = recorded ++ txn :: rest
           /\ txns t' = txns t ++ recorded
           /\ RecordTxns validateNonce t recorded count
              = Ok (t', (count + Z.of_nat (length recorded), true, true))
           /\ Transition_Record validateNonce t' txn = Ok (t', (valid, success))).
Proof.
  revert t count. induction batch as [|txn rest IH]; intros t count Hrun.
  - simpl in Hrun. injection Hrun as <- <- <- <-. left.
    split; [done|]. split; [done|]. split; [simpl; lia|]. by rewrite app_nil_r.
  - simpl in Hrun.
    destruct (Transition_Record validateNonce t txn) as [[t1 [v s]]|] eqn:Hrec;
      simpl in Hrun; [|done].
    destruct (Record_shape _ _ _ _ _ Hrec) as [(-> & -> & Htx)|[Hbad ->]].
    + simpl in Hrun. destruct (IH _ _ Hrun) as
        [(-> & -> & -> & Hall)|(Hbad & -> & recorded & bad & rest' & -> & Hpre & Hrun' & Hbad')].
      * left. split; [done|]. split; [done|]. split.
        { rewrite length_cons. lia. }
        by rewrite Hall, Htx, <- app_assoc.
      * right. split; [done|]. split; [done|].
        exists (txn :: recorded), bad, rest'. split; [done|]. split.
        { by rewrite Hpre, Htx, <- app_assoc. }
        split; [|done]. simpl. rewrite Hrec. simpl. rewrite Hrun'.
        by replace (count + Z.of_nat (S (length recorded)))
          with (count + 1 + Z.of_nat (length recorded)) by lia.
    + assert (negb v || negb s = true) as Hstop.
      { destruct Hbad as [-> | ->]; [done|by destruct v]. }
      rewrite Hstop in Hrun. injection Hrun as <- <- <- <-.
      right. split; [done|]. split; [done|].
      exists [], txn, rest. split; [done|]. split; [by rewrite app_nil_r|].
      split; [|done]. simpl. by rewrite Z.add_0_r.
Qed.

(** X20. [getOrderBook] loads a book once. The book it returns is the
    one the transition already holds for the market, else the saved book
    of the state, else a new book; after the call the transition holds
    that book for the market, so that a second call returns the same book
    and changes nothing. The books of the other markets, the dirty marks
    and the state are not touched: loading a book does not mark it. *)
Theorem getOrderBook_caches (t : Transition) (m : MarketSymbol) :
  let t1 := (getOrderBook t m).1 in
  let book := (getOrderBook t m).2 in
  book = default (default newOrderBook (State_loadOrderBook (state t) m))
           (orderBooks t !! m)
  /\ orderBooks t1 !! m = Some book
  /\ getOrderBook t1 m = (t1, book)
  /\ (forall m', m' <> m -> orderBooks t1 !! m' = orderBooks t !! m')
  /\ dirtyOrderBooks t1 = dirtyOrderBooks t
  /\ state t1 = state t.
Proof.
  unfold getOrderBook. destruct (orderBooks t !! m) as [b|] eqn:Hb; simpl.
  - rewrite Hb. by repeat split.
  - rewrite lookup_insert_eq. split; [by destruct (State_loadOrderBook _ _)|].
    split; [done|]. split; [done|]. split; [|done].
    intros m' Hne. by rewrite lookup_insert_ne.
Qed.

End BatchFacts.

Section BlockFacts.
Import Consensus.
Context `{Crypto}.

(** X21. The three outcomes of [ValidateBlock], with nothing assumed of
    the beacon. It accepts exactly when the round is not above the depth,
    the signature deserializes, the notarization committee is the index
    of a group, the signature verifies under that group's key and [Rank]
    gives a rank >= 0 without an error; the weight is then 0.5^rank. It
    panics exactly when round and signature pass and either the committee
    index is outside [groups] (whatever the signature) or everything
    passes but [Rank] gives a negative rank without an error. Every
    rejection carries the weight 0. *)
Theorem ValidateBlock_outcomes (v : validator) (b : Block) :
  let rb := chain_RandomBeacon (chain v) in
  let nt := (Committees rb (blk_Round b)).2 in
  (forall w, ValidateBlock v (Some b) = Ok (w, true) <->
     blk_Round b <= Depth rb
     /\ exists sign g rank,
          Deserialize (blk_NotarizationSig b) = Some sign
          /\ groupAt rb nt = Ok g
          /\ Verify sign (grp_PK g) (Encode b false) = true
          /\ Rank rb (blk_Owner b) (blk_Round b) = (rank, false)
          /\ 0 <= rank /\ w = WeightHalfPow rank)
  /\ (ValidateBlock v (Some b) = Panic <->
      blk_Round b <= Depth rb
      /\ exists sign,
           Deserialize (blk_NotarizationSig b) = Some sign
           /\ (groupAt rb nt = Panic
               \/ exists g rank,
                    groupAt rb nt = Ok g
                    /\ Verify sign (grp_PK g) (Encode b false) = true
                    /\ Rank rb (blk_Owner b) (blk_Round b) = (rank, false)
                    /\ rank < 0))
  /\ (forall w, ValidateBlock v (Some b) = Ok (w, false) -> w = WeightZero).
Proof.
  intros rb nt. unfold ValidateBlock. fold rb. cbn [load mbind outcome_bind].
  destruct (Z.ltb_spec (Depth rb) (blk_Round b)) as [Hd|Hd].
  { split; [|split].
    - intros w. split; [done|]. intros [? _]. lia.
    - split; [done|]. intros [? _]. lia.
    - by intros w [= <-]. }
  destruct (Deserialize (blk_NotarizationSig b)) as [sign|] eqn:Hsig.
  2:{ split; [|split].
      - intros w. split; [done|]. by intros (_ & ? & ? & ? & ? & _).
      - split; [done|]. by intros (_ & ? & ? & _).
      - by intros w [= <-]. }
  subst nt. destruct (Committees rb (blk_Round b)) as [[c1 c2] nt] eqn:Hc. simpl.
  destruct (groupAt rb nt) as [g|] eqn:Hg; simpl.
  2:{ split; [|split].
      - intros w. split; [done|]. by intros (_ & ? & ? & ? & _ & ? & _).
      - split; [|done]. intros _. split; [done|]. exists sign. split; [done|]. by left.
      - done. }
  destruct (Verify sign (grp_PK g) (Encode b false)) eqn:Hv; simpl.
  2:{ split; [|split].
      - intros w. split; [done|].
        intros (_ & s' & g' & r' & [= <-] & [= <-] & Hv' & _). congruence.
      - split; [done|].
        intros (_ & s' & [= <-] & [?|(g' & r' & [= <-] & Hv' & _)]); congruence.
      - by intros w [= <-]. }
  destruct (Rank rb (blk_Owner b) (blk_Round b)) as [rank err] eqn:Hr.
  destruct err.
  { split; [|split].
    - intros w. split; [done|].
      by intros (_ & s' & g' & r' & _ & _ & _ & ? & _).
    - split; [done|].
      intros (_ & s' & _ & [?|(g' & r' & _ & _ & ? & _)]); congruence.
    - by intros w [= <-]. }
  unfold rankToWeight. destruct (Z.ltb_spec rank 0) as [Hneg|Hnn]; simpl.
  - split; [|split].
    + intros w. split; [done|].
      intros (_ & s' & g' & r' & _ & _ & _ & [= <-] & ? & _). lia.
    + split; [|done]. intros _. split; [done|]. exists sign. split; [done|].
      right. by exists g, rank.
    + done.
  - split; [|split].
    + intros w. split.
      * intros [= <-]. split; [done|]. by exists sign, g, rank.
      * intros (_ & s' & g' & r' & _ & _ & _ & [= <-] & _ & ->). done.
    + split; [done|].
      intros (_ & s' & _ & [?|(g' & r' & _ & _ & [= <-] & ?)]); [congruence|lia].
    + done.
Qed.

End BlockFacts.

(** ** Tokens staged in a round *)

Section StagedTokenFacts.
Context `{Ambient} `{OrderBookOps}.
Context (validateNonce : State -> Txn -> Z * bool * bool).

Ltac step_outcome :=
  match goal with
  | Hrun : context [mbind _ ?m] |- _ => destruct m eqn:?; simpl in Hrun
  | Hrun : context [let '(_, _) := ?p in _] |- _ => destruct p eqn:?; simpl in Hrun
  end.
Ltac walk := repeat first [progress simplify_eq/= | case_match | step_outcome].

Lemma sameTokens_refl (t : Transition) : sameTokens t t.
Proof. done. Qed.

Lemma sameTokens_trans (t t' t'' : Transition) :
  sameTokens t t' -> sameTokens t' t'' -> sameTokens t t''.
Proof. unfold sameTokens. intros (-> & -> & ->) (-> & -> & ->). done. Qed.

Lemma onlyAccounts_sameTokens (t t' : Transition) :
  onlyAccounts t t' -> sameTokens t t'.
Proof. unfold onlyAccounts. by intros ->. Qed.

Lemma onlyAccountsAndFilled_sameTokens (t t' : Transition) :
  onlyAccountsAndFilled t t' -> sameTokens t t'.
Proof. unfold onlyAccountsAndFilled. by intros ->. Qed.

Lemma getOrderBook_sameTokens (t : Transition) (m : MarketSymbol) :
  sameTokens t (getOrderBook t m).1.
Proof. unfold getOrderBook. by destruct (orderBooks t !! m). Qed.

Lemma placeOrder_sameTokens (t t' : Transition) (owner : Z) (txn : PlaceOrderTxn)
    (r : Z) (b : bool) :
  placeOrder t owner txn r = Ok (t', b) -> sameTokens t t'.
Proof.
  unfold placeOrder. intros Hrun. walk; try done.
  all: match goal with
       | Hloop : forEach _ _ _ = Ok _ |- _ =>
           apply (forEach_frame _ _ (placeOrder_execution_frame _ _ _ _)) in Hloop;
             apply onlyAccountsAndFilled_sameTokens in Hloop
       end.
  all: match goal with
       | Hgb : getOrderBook ?t0 ?m = _ |- _ =>
           pose proof (getOrderBook_sameTokens t0 m) as Hb; rewrite Hgb in Hb
       end.
  all: match goal with
       | Hres : placeOrder_reserve _ _ _ _ _ = Ok _ |- _ =>
           apply placeOrder_reserve_frame, onlyAccounts_sameTokens in Hres
       end.
  all: unfold sameTokens in *; simpl in *; destruct_and?.
  all: split; [|split]; congruence.
Qed.

Lemma cancelOrder_sameTokens (t t' : Transition) (owner : Z) (txn : CancelOrderTxn)
    (b : bool) :
  cancelOrder t owner txn = Ok (t', b) -> sameTokens t t'.
Proof.
  unfold cancelOrder. intros Hrun. walk; try done.
  match goal with
  | Hrf : refundAfterCancel _ _ _ _ = Ok _ |- _ =>
      apply refundAfterCancel_frame, onlyAccounts_sameTokens in Hrf
  end.
  match goal with
  | Hgb : getOrderBook ?t0 ?m = _ |- _ =>
      pose proof (getOrderBook_sameTokens t0 m) as Hb; rewrite Hgb in Hb
  end.
  unfold sameTokens in *; simpl in *; destruct_and?.
  split; [|split]; congruence.
Qed.

Lemma sendToken_sameTokens (t t' : Transition) (owner : Z) (txn : SendTokenTxn)
    (b : bool) :
  sendToken t owner txn = Ok (t', b) -> sameTokens t t'.
Proof. unfold sendToken. intros Hrun. walk; done. Qed.

Lemma freezeToken_sameTokens (t t' : Transition) (owner : Z) (txn : FreezeTokenTxn)
    (b : bool) :
  freezeToken t owner txn = Ok (t', b) -> sameTokens t t'.
Proof. unfold freezeToken. intros Hrun. walk; done. Qed.

Lemma stagedApart_sameTokens (t t' : Transition) :
  sameTokens t t' -> stagedApart t -> stagedApart t'.
Proof. unfold sameTokens, stagedApart. intros (-> & -> & ->). done. Qed.

Lemma issueToken_stagedApart (t t' : Transition) (owner : Z) (txn : IssueTokenTxn)
    (b : bool) :
  stagedApart t -> issueToken t owner txn = Ok (t', b) -> stagedApart t'.
Proof.
  intros (Hid & Hsym & Hcache). unfold issueToken.
  destruct (TokenCache_Exists _ _) eqn:Hex; [by intros [= <- <-]|].
  destruct (existsb _ _) eqn:Hst; [by intros [= <- <-]|].
  set (id := TokenCache_Size (tokenCache t) + Z.of_nat (length (tokenCreations t))).
  set (token := {| tk_ID := id; tk_Info := itt_Info txn |}).
  destruct (deref _ owner) as [acc|]; simpl; [|done]. intros [= <- <-].
  assert (forall v, v ∈ tokenCreations t ->
            ToUpper (ti_Symbol (itt_Info txn)) <> ToUpper (ti_Symbol (tk_Info v))) as Hnew.
  { intros v Hv Heq. apply not_true_iff_false in Hst. apply Hst.
    apply staged_collision_true. by exists v. }
  unfold stagedApart. cbn -[TokenCache_Exists TokenCache_Size].
  split; [|split].
  - intros k v Hk. apply lookup_app_Some in Hk as [Hk|[Hlen Hk]].
    + destruct (Hid _ _ Hk) as [Hv Hs]. split; [done|].
      rewrite lookup_insert_ne; [done|]. apply lookup_lt_Some in Hk.
      rewrite Hv. unfold id. lia.
    + destruct (k - length (tokenCreations t))%nat eqn:Hd; simpl in Hk; [|done].
      injection Hk as <-. simpl. split; [unfold id; f_equal; lia|].
      apply lookup_insert_eq.
  - intros j k v w Hj Hk Heq.
    apply lookup_app_Some in Hj as [Hj|[Hjl Hj]];
      apply lookup_app_Some in Hk as [Hk|[Hkl Hk]].
    + by eapply Hsym.
    + destruct (k - length (tokenCreations t))%nat; simpl in Hk; [|done].
      injection Hk as <-. destruct (Hnew v); [by eapply list_elem_of_lookup_2|done].
    + destruct (j - length (tokenCreations t))%nat; simpl in Hj; [|done].
      injection Hj as <-. destruct (Hnew w); [by eapply list_elem_of_lookup_2|done].
    + destruct (j - length (tokenCreations t))%nat eqn:Hdj; simpl in Hj; [|done].
      destruct (k - length (tokenCreations t))%nat eqn:Hdk; simpl in Hk; [|done].
      lia.
  - intros v Hv. apply elem_of_app in Hv as [Hv|Hv]; [by apply Hcache|].
    apply list_elem_of_singleton in Hv as ->. done.
Qed.

Lemma Record_stagedApart (t t' : Transition) (txn : Txn) (res : bool * bool) :
  stagedApart t -> Transition_Record validateNonce t txn = Ok (t', res) ->
  stagedApart t'.
Proof.
  intros Hinv. unfold Transition_Record.
  destruct (finalized t); [done|].
  destruct (validateNonce (state t) txn) as [[acc ready] nonceValid].
  destruct nonceValid; simpl; [|by intros [= <- <-]].
  destruct ready; simpl; [|by intros [= <- <-]].
  destruct (txn_Decoded txn) as [tx|tx|tx|tx|tx|].
  all: match goal with
       | |- context [mbind _ ?m] => destruct m as [[t1 ok]|] eqn:Hop; simpl; [|done]
       end.
  all: assert (stagedApart t1) as Hinv1;
    [|by destruct ok; simpl; intros [= <- <-]].
  - eapply stagedApart_sameTokens; [by eapply placeOrder_sameTokens|done].
  - eapply stagedApart_sameTokens; [by eapply cancelOrder_sameTokens|done].
  - by eapply issueToken_stagedApart.
  - eapply stagedApart_sameTokens; [by eapply sendToken_sameTokens|done].
  - eapply stagedApart_sameTokens; [by eapply freezeToken_sameTokens|done].
  - by injection Hop as <- <-.
Qed.

(** X22. Tokens issued in one round never collide. A fresh transition
    stages no token; from a transition whose staged tokens are apart
    (numbered consecutively from the size of the token cache, each held
    by the state under its id, with symbols that differ up to case from
    each other and from those of the cache), whatever batch is recorded
    and whether or not it is accepted to its end, the staged tokens of
    the transition reached are apart again. *)
Theorem RecordTxns_stagedApart (t t' : Transition) (batch : list Txn) (count : Z)
    (res : Z * bool * bool) :
  (forall s r, stagedApart (newTransition s r))
  /\ (stagedApart t ->
      RecordTxns validateNonce t batch count = Ok (t', res) ->
      stagedApart t').
Proof.
  split.
  { intros s r. unfold stagedApart. simpl. split; [done|]. split; [done|].
    intros v Hv. by apply elem_of_nil in Hv. }
  revert t count. induction batch as [|txn rest IH]; intros t count Hinv Hrun.
  - simpl in Hrun. by injection Hrun as <- <-.
  - simpl in Hrun.
    destruct (Transition_Record validateNonce t txn) as [[t1 [v s]]|] eqn:Hrec;
      simpl in Hrun; [|done].
    pose proof (Record_stagedApart _ _ _ _ Hinv Hrec) as Hinv1.
    destruct (negb v || negb s).
    + by injection Hrun as <- <-.
    + by eapply IH.
Qed.

End StagedTokenFacts.

(** ** An order placed and cancelled *)

Section RoundTripFacts.
Context `{Ambient} `{OrderBookOps}.

Lemma frozenTotal_nonneg (l : list Frozen) :
  Forall (fun f => 0 <= fz_Quant f) l -> 0 <= frozenTotal l.
Proof. induction 1; simpl; lia. Qed.

(** The account a reservation and its refund leave behind. *)
Lemma reserve_refund (acc : Account) (token amount : Z) (id : OrderID)
    (po : PendingOrder) (b : Balance) :
  acc_balances acc !! token = Some b ->
  Account_PendingOrder acc id = None ->
  wellFormed b -> 0 <= amount <= bal_Available b ->
  po_ID po = id ->
  let reserved :=
    set_bal_Pending (set_bal_Available b (wrap64 (bal_Available b - amount)))
      (wrap64 (bal_Pending b + amount)) in
  let acc1 := Account_UpdatePendingOrder (Account_UpdateBalance acc token reserved) po in
  let held := Account_Balance (Account_RemovePendingOrder acc1 id) token in
  held = reserved
  /\ bal_Pending reserved = bal_Pending b + amount
  /\ Account_UpdateBalance (Account_RemovePendingOrder acc1 id) token
       (set_bal_Available
          (set_bal_Pending held (wrap64 (bal_Pending held - amount)))
          (wrap64 (bal_Available held + amount)))
     = acc.
Proof.
  intros Hb Hid (HA & HP & HF & Hfit) Hamount Hpo reserved acc1 held.
  pose proof (frozenTotal_nonneg _ HF) as Hfz. unfold holdings in Hfit.
  assert (held = reserved) as ->.
  { unfold held, acc1, Account_Balance. simpl. by rewrite lookup_insert_eq. }
  assert (wrap64 (bal_Available b - amount) = bal_Available b - amount) as Ea
    by (apply wrap64_small; unfold is_uint64; lia).
  assert (wrap64 (bal_Pending b + amount) = bal_Pending b + amount) as Ep
    by (apply wrap64_small; unfold is_uint64; lia).
  split; [done|]. split; [done|].
  unfold reserved, acc1, Account_UpdateBalance, Account_RemovePendingOrder,
    Account_UpdatePendingOrder, set_bal_Available, set_bal_Pending. simpl.
  rewrite Ea, Ep, Hpo.
  replace (bal_Pending b + amount - amount) with (bal_Pending b) by lia.
  replace (bal_Available b - amount + amount) with (bal_Available b) by lia.
  rewrite !wrap64_small by (unfold is_uint64; lia).
  rewrite insert_insert_eq, delete_insert_id by done.
  rewrite insert_id; [by destruct acc|]. rewrite Hb. by destruct b.
Qed.

(** X23. An order that rests and is cancelled. When [placeOrder]
    succeeds for an owner whose balance of the reserved token (base for a
    sell, quote for a buy) is well formed, [Limit] matches nothing and
    gives the order an id that is not pending for the owner, then
    [cancelOrder] of that id succeeds and the accounts of the state are
    exactly what they were before the order was placed: the reserved
    amount is back in the available balance. What stays is in the
    transition: the book of the market is [Cancel] of the book [Limit]
    left, it is marked dirty, and the expiration staged for the order is
    still staged. *)
Theorem place_then_cancel (t t1 : Transition) (owner : Z) (txn : PlaceOrderTxn)
    (round : Z) (acc : Account) :
  let market := pot_Market txn in
  let order := {| ord_Owner := pk_addr (acc_PK acc);
                  ord_SellSide := pot_SellSide txn; ord_Quant := pot_Quant txn;
                  ord_Price := pot_Price txn; ord_ExpireRound := pot_ExpireRound txn |} in
  let limit := Limit (getOrderBook t market).2 order in
  let id := {| oid_ID := limit.1.1; oid_Market := market |} in
  let token := if pot_SellSide txn then Base market else Quote market in
  State_Account (state t) owner = Some acc ->
  wellFormed (Account_Balance acc token) ->
  is_uint64 (pot_Quant txn) ->
  Account_PendingOrder acc id = None ->
  limit.1.2 = [] ->
  placeOrder t owner txn round = Ok (t1, true) ->
  exists t2,
    cancelOrder t1 owner {| cot_ID := id |} = Ok (t2, true)
    /\ st_accounts (state t2) = st_accounts (state t)
    /\ orderBooks t2 = <[market := Cancel limit.2 limit.1.1]> (orderBooks t)
    /\ dirtyOrderBooks t2 !! market = Some true
    /\ expirations t2 = expirations t1
    /\ (0 < pot_ExpireRound txn ->
        {| oe_ID := id; oe_Owner := pk_addr (acc_PK acc) |}
        ∈ default [] (expirations t2 !! pot_ExpireRound txn)).
Proof.
  intros market order limit id token Hacc Hwf Hq Hfresh Hnone.
  unfold placeOrder. fold market.
  destruct (negb (MarketSymbol_Valid market)); [done|].
  destruct (_ && _); [done|].
  destruct (TokenCache_Info (tokenCache t) (Base market)) as [bi|] eqn:Hbi; [|done].
  destruct (TokenCache_Info (tokenCache t) (Quote market)) as [qi|] eqn:Hqi; [|done].
  (* the reservation *)
  assert ((exists amount b,
             acc_balances acc !! token = Some b
             /\ 0 < amount <= bal_Available b /\ 0 < pot_Quant txn
             /\ (if pot_SellSide txn then amount = pot_Quant txn
                 else calcQuoteQuant (pot_Quant txn) (ti_Decimals qi) (pot_Price txn)
                        OrderPriceDecimals (ti_Decimals bi) = Ok amount)
             /\ placeOrder_reserve t owner txn bi qi
                = Ok (Some (store t owner
                     (Account_UpdateBalance acc token
                        (set_bal_Pending
                           (set_bal_Available b (wrap64 (bal_Available b - amount)))
                           (wrap64 (bal_Pending b + amount)))))))
          \/ (forall t', placeOrder_reserve t owner txn bi qi <> Ok (Some t'))) as Hres.
  { unfold placeOrder_reserve. fold market. rewrite (deref_Some _ _ _ Hacc).
    unfold token in *. destruct Hwf as (HA & _). unfold is_uint64 in Hq.
    destruct (pot_SellSide txn); simpl.
    - destruct (Z.eqb_spec (pot_Quant txn) 0); [by right|].
      destruct (Z.ltb_spec (bal_Available (Account_Balance acc (Base market)))
                  (pot_Quant txn)); [by right|].
      left. exists (pot_Quant txn), (Account_Balance acc (Base market)).
      split; [|split; [lia|split; [lia|split; done]]].
      unfold Account_Balance in *.
      destruct (acc_balances acc !! Base market); [done|]. simpl in *.
      lia.
    - destruct (Z.eqb_spec (pot_Quant txn) 0); [by right|].
      destruct (calcQuoteQuant _ _ _ _ _) as [pq|] eqn:Hpq; simpl; [|by right].
      destruct (Z.eqb_spec pq 0); [by right|].
      destruct (Z.ltb_spec (bal_Available (Account_Balance acc (Quote market))) pq);
        [by right|].
      pose proof (calcQuoteQuant_range _ _ _ _ _ _ Hpq) as Hrange.
      left. exists pq, (Account_Balance acc (Quote market)).
      split; [|split; [lia|split; [lia|split; done]]].
      unfold Account_Balance in *.
      destruct (acc_balances acc !! Quote market); [done|]. simpl in *. lia. }
  destruct Hres as [(amount & b & Hb & Hamount & Hpos & Hkind & ->)|Hno].
  2:{ destruct (placeOrder_reserve t owner txn bi qi) as [[t0|]|]; simpl; try done.
      by destruct (Hno t0). }
  assert (Account_Balance acc token = b) as Hbal.
  { unfold Account_Balance. by rewrite Hb. }
  rewrite Hbal in Hwf.
  set (reserved := set_bal_Pending _ _).
  cbn [mbind outcome_bind].
  rewrite (deref_Some _ _ _ (Account_store_eq t owner _)).
  cbn [mbind outcome_bind acc_PK Account_UpdateBalance]. fold order.
  set (pending := {| po_ID := id; po_Order := order; po_Executed := 0 |}).
  destruct (reserve_refund acc token amount id pending b Hb Hfresh Hwf
              ltac:(lia) eq_refl) as (Hheld & Hpend & Hback).
  fold reserved in Hheld, Hpend, Hback.
  (* the book *)
  assert (exists books,
             getOrderBook (store t owner (Account_UpdateBalance acc token reserved)) market
             = (set_orderBooks (store t owner (Account_UpdateBalance acc token reserved)) books,
                (getOrderBook t market).2)
             /\ <[market := limit.2]> books = <[market := limit.2]> (orderBooks t))
    as (books & -> & Hbooks).
  { unfold getOrderBook. simpl. destruct (orderBooks t !! market) as [bk|] eqn:Hbk.
    - exists (orderBooks t). split; [|done].
      by destruct t as [? ? ? ? ? ? [? ? ? ? ?] ? ? ?].
    - eexists. split; [done|]. by rewrite insert_insert_eq. }
  fold limit. destruct limit as [[oid execs] book'] eqn:Hlim.
  simpl in Hnone, Hbooks. subst execs. simpl. rewrite Hbooks.
  intros [= <-].
  (* the cancellation *)
  match goal with
  | |- context [cancelOrder ?x _ _] => set (t1 := x)
  end.
  set (acc1 := Account_UpdatePendingOrder (Account_UpdateBalance acc token reserved)
                 {| po_ID := {| oid_ID := oid; oid_Market := market |};
                    po_Order := order; po_Executed := 0 |}) in *.
  assert (st_accounts (state t1)
          = <[owner := acc1]>
              (<[owner := Account_UpdateBalance acc token reserved]>
                 (st_accounts (state t)))
          /\ orderBooks t1 = <[market := book']> (orderBooks t)
          /\ dirtyOrderBooks t1 = <[market := true]> (dirtyOrderBooks t)
          /\ tokenCache t1 = tokenCache t
          /\ (0 < pot_ExpireRound txn ->
              {| oe_ID := id; oe_Owner := pk_addr (acc_PK acc) |}
              ∈ default [] (expirations t1 !! pot_ExpireRound txn)))
    as (Haccs & Hob & Hdirty & Hcache & Hexp).
  { unfold t1. destruct (Z.ltb_spec 0 (pot_ExpireRound txn)); simpl.
    - split; [done|]. split; [done|]. split; [done|]. split; [done|].
      intros _. rewrite lookup_insert_eq. simpl. apply elem_of_app. right.
      by apply list_elem_of_singleton.
    - split; [done|]. split; [done|]. split; [done|]. split; [done|]. lia. }
  clearbody t1.
  assert (State_Account (state t1) owner = Some acc1) as Hacc1.
  { unfold State_Account. rewrite Haccs. apply lookup_insert_eq. }
  unfold cancelOrder. rewrite (deref_Some _ _ _ Hacc1).
  cbn [mbind outcome_bind cot_ID].
  assert (Account_PendingOrder acc1 id = Some pending) as ->.
  { unfold Account_PendingOrder, acc1. simpl. apply lookup_insert_eq. }
  cbn [oid_Market id oid_ID].
  assert (getOrderBook t1 market = (t1, book')) as ->.
  { unfold getOrderBook. by rewrite Hob, lookup_insert_eq. }
  set (t3 := set_dirtyOrderBooks _ _).
  assert (State_Account (state t3) owner = Some acc1) as Hacc3 by done.
  rewrite (deref_Some _ _ _ Hacc3). cbn [mbind outcome_bind].
  set (t4 := store t3 owner _).
  assert (State_Account (state t4) owner
          = Some (Account_RemovePendingOrder acc1 id)) as Hacc4
    by apply Account_store_eq.
  assert (0 <= bal_Pending b) as HP0 by apply Hwf.
  assert (refundAfterCancel t4 owner pending market
          = Ok (store t4 owner acc)) as ->.
  { unfold refundAfterCancel. cbn [pending po_Order po_Executed order ord_Quant
                                   ord_SellSide ord_Price].
    destruct (Z.leb_spec (pot_Quant txn) 0) as [Hle|_]; [lia|].
    rewrite Z.sub_0_r, (wrap64_small _ Hq), (deref_Some _ _ _ Hacc4).
    cbn [mbind outcome_bind]. unfold token in *.
    destruct (pot_SellSide txn).
    - subst amount.
      set (held := Account_Balance _ _).
      assert (held = reserved) as Hh by exact Hheld.
      destruct (Z.ltb_spec (bal_Pending held) (pot_Quant txn)) as [Hlt|_].
      { rewrite Hh in Hlt. lia. }
      do 2 f_equal. exact Hback.
    - assert (tokenCache t4 = tokenCache t) as -> by (by rewrite <- Hcache).
      unfold TokenCache_Info in Hbi, Hqi. rewrite Hqi, Hbi, Hkind.
      cbn [mbind outcome_bind].
      set (held := Account_Balance _ _).
      assert (held = reserved) as Hh by exact Hheld.
      destruct (Z.ltb_spec (bal_Pending held) amount) as [Hlt|_].
      { rewrite Hh in Hlt. lia. }
      do 2 f_equal. exact Hback. }
  cbn [mbind outcome_bind]. eexists. split; [done|].
  split; [|split; [|split; [|split; [done|by apply Hexp]]]].
  - unfold t4, t3. simpl. rewrite Haccs, !insert_insert_eq.
    by apply insert_id.
  - unfold t4, t3. simpl. by rewrite Hob, insert_insert_eq.
  - unfold t4, t3. simpl. apply lookup_insert_eq.
Qed.

End RoundTripFacts.

(** ** Expiry and cancellation *)

Section ExpiryFacts.
Context `{Ambient} `{OrderBookOps}.

(** X24. To expire an order is to cancel it. For an order that is pending
    for its owner, the step of [expireOrders] on its entry leaves the
    transition exactly as [cancelOrder] of the same id by the owner does
    (the book entry cancelled, the market marked dirty, the order removed
    from the pending set, the remainder refunded) and panics when the
    cancellation does; where [cancelOrder] returns false, on an order
    that is not pending, the step panics. *)
Theorem expiry_is_cancellation (t : Transition) (owner : Z) (id : OrderID)
    (acc : Account) :
  State_Account (state t) owner = Some acc ->
  let entry := {| oe_ID := id; oe_Owner := owner |} in
  let cancel := cancelOrder t owner {| cot_ID := id |} in
  match Account_PendingOrder acc id with
  | Some _ =>
      match cancel with
      | Ok (t', ok) => ok = true /\ expireOrders_entry t entry = Ok t'
      | Panic => expireOrders_entry t entry = Panic
      end
  | None => cancel = Ok (t, false) /\ expireOrders_entry t entry = Panic
  end.
Proof.
  intros Hacc entry cancel. unfold cancel, cancelOrder, expireOrders_entry.
  rewrite (deref_Some _ _ _ Hacc). cbn [mbind outcome_bind cot_ID oe_ID oe_Owner entry].
  assert (State_Account (state (getOrderBook t (oid_Market id)).1) owner = Some acc)
    as Hacc1.
  { unfold getOrderBook. by destruct (orderBooks t !! oid_Market id). }
  destruct (getOrderBook t (oid_Market id)) as [t1 book] eqn:Hgb. simpl in Hacc1.
  set (t2 := set_dirtyOrderBooks _ _).
  assert (State_Account (state t2) owner = Some acc) as Hacc2 by done.
  rewrite (deref_Some _ _ _ Hacc2). cbn [mbind outcome_bind].
  destruct (Account_PendingOrder acc id) as [order|]; [|done].
  by destruct (refundAfterCancel _ owner order (oid_Market id)).
Qed.

End ExpiryFacts.

(** * The further scenarios, run *)

Section FurtherScenarios.
Import Scenario Cases.
#[local] Existing Instance ambient8.
#[local] Existing Instance SimpleBook.ops.

Ltac evaluate := vm_compute; first [reflexivity | discriminate].
Ltac from_fact Hfact := etransitivity; [exact Hfact | evaluate].
Ltac in_range :=
  first [ apply is_uint64_dec; evaluate
        | apply Z.leb_le; evaluate
        | apply Z.ltb_lt; evaluate
        | split; apply Z.leb_le; evaluate ].
Ltac differ := vm_compute; intros ?; discriminate.

Lemma wellFormed_check (b : Balance) :
  (0 <=? bal_Available b) && (0 <=? bal_Pending b)
  && forallb (fun f => 0 <=? fz_Quant f) (bal_Frozen b)
  && (holdings b <? two64) = true ->
  wellFormed b.
Proof.
  intros Hb. repeat (apply andb_true_iff in Hb as [Hb ?]).
  unfold wellFormed. split; [lia|]. split; [lia|]. split; [|lia].
  apply Forall_forall. intros f Hf.
  match goal with
  | Hall : forallb _ _ = true |- _ =>
      rewrite forallb_forall in Hall; apply list_elem_of_In, Hall in Hf
  end. lia.
Qed.

Lemma notPending_check (t : Transition) (addr : Z) (id : OrderID) :
  match State_Account (state t) addr with
  | Some acc => Account_PendingOrder acc id
  | None => None
  end = None ->
  notPending t addr id.
Proof. intros Hc acc Hacc. by rewrite Hacc in Hc. Qed.

(** 5 units at 10^8 convert to 5, 7 units at 2 * 10^8 to 14. *)
Lemma calcQuoteQuant_monotone_witness : 5 <= 14.
Proof.
  apply (calcQuoteQuant_monotone 5 7 0 100000000 200000000 8 8 0 5 14);
    first [evaluate | in_range].
Defined.

(** At price 1.5 a unit converts to 1, two units to 3. *)
Lemma calcQuoteQuant_split_witness : 1 + 1 <= 3.
Proof.
  apply (calcQuoteQuant_split 1 1 0 150000000 8 0 1 1 3);
    first [evaluate | in_range].
Defined.

(** The resting sell of A filled at its price: 5 base units leave the
    pending balance, 5 quote units arrive. *)
Lemma placeOrder_execution_sell_witness :
  exists t' acc',
    placeOrder_execution market (token "T1" 0 10) (token "T2" 0 10) 7 beforeSale sale = Ok t'
    /\ State_Account (state t') 1 = Some acc'
    /\ bal_Pending (Account_Balance acc' 0) = 0
    /\ bal_Available (Account_Balance acc' 1) = 5.
Proof.
  destruct (placeOrder_execution_sell market (token "T1" 0 10) (token "T2" 0 10) 7
              beforeSale sale sellerReserved sellOrder 5)
    as [_ Hfill]; [evaluate | evaluate | evaluate | evaluate | evaluate
                  | in_range | in_range | ].
  destruct Hfill as (t' & acc' & Hrun & Hacc & Hbase & Hquote); [in_range|].
  exists t', acc'. split; [exact Hrun|]. split; [exact Hacc|].
  split; [from_fact (f_equal bal_Pending Hbase)|from_fact (f_equal bal_Available Hquote)].
Defined.

(** The buy order of B is filled by one execution: it leaves the pending
    set and joins the filled orders. *)
Lemma placeOrder_execution_bookkeeping_witness :
  exists acc',
    State_Account (state afterFill) 2 = Some acc'
    /\ length (acc_executionReports acc') = 1%nat
    /\ onlyAccountsAndFilled beforeFill afterFill.
Proof.
  destruct (placeOrder_execution_bookkeeping market (token "T1" 0 10) (token "T2" 0 10) 7
              beforeFill afterFill fill buyerReserved buyOrder)
    as (acc' & Hacc & Hrep & _ & _ & _ & Hframe);
    [evaluate | evaluate | evaluate | evaluate | ].
  exists acc'. split; [exact Hacc|]. split; [by rewrite Hrep|exact Hframe].
Defined.

(** An order without quantity is refused. *)
Lemma placeOrder_rejects_witness :
  placeOrder start 1 emptyTxn 7 = Ok (start, false).
Proof.
  apply (placeOrder_rejects start 1 emptyTxn 7 (holding 1 0 10)); [evaluate|].
  do 4 right. left. reflexivity.
Defined.

(** The order of A rests: its market is marked dirty, no transaction is
    appended by [placeOrder] itself. *)
Lemma placeOrder_stages_witness :
  dirtyOrderBooks rested = <[market := true]> ∅ /\ txns rested = [].
Proof.
  destruct (placeOrder_stages start rested 1 restTxn 7 (holding 1 0 10))
    as (_ & Hdirty & _ & Htxns & _); [evaluate | evaluate | ].
  split; [exact Hdirty|exact Htxns].
Defined.

(** Nothing remains of the order: the refund panics. *)
Lemma refundAfterCancel_conserves_witness :
  refundAfterCancel partlyFilled 1 exhausted market = Panic.
Proof.
  apply (refundAfterCancel_conserves partlyFilled 1 (accountOf partlyFilled 1)
           exhausted market);
    [evaluate | apply wellFormed_check; evaluate | simpl; lia].
Defined.

(** The cancellation of the remainder leaves the staged expirations and
    the accepted transactions as they were. *)
Lemma cancelOrder_keeps_schedules_witness :
  expirations cancelled = expirations partlyFilled
  /\ txns cancelled = txns partlyFilled.
Proof.
  destruct (cancelOrder_keeps_schedules partlyFilled cancelled 1 cancelA true)
    as (Hexp & _ & _ & _ & _ & Htxns); [evaluate|].
  split; [exact Hexp|exact Htxns].
Defined.

(** The order placed and cancelled in round 7 was to expire at round 8:
    the round cannot be finalized. *)
Lemma finalizeState_stale_expiration_panics_witness :
  finalizeState forwards placedThenCancelled 7 = Panic.
Proof.
  apply (finalizeState_stale_expiration_panics forwards placedThenCancelled 7 staleEntry).
  - exact forwards_lawful.
  - evaluate.
  - left. assert (default [] (expirations placedThenCancelled
                                !! wrap64 (round placedThenCancelled + 1))
                  = [staleEntry]) as -> by evaluate.
    by apply list_elem_of_singleton.
  - evaluate.
  - apply notPending_check. evaluate.
Defined.

(** A sends 3 of its 10 units to B. *)
Lemma sendToken_transfers_witness :
  match sendToken start 1 sendToB with
  | Ok (t', ok) =>
      ok = true
      /\ bal_Available (Account_Balance (accountOf t' 1) 0) = 7
      /\ bal_Available (Account_Balance (accountOf t' 2) 0) = 3
  | Panic => False
  end.
Proof.
  destruct (sendToken_transfers start 1 sendToB (holding 1 0 10)) as [_ Hsend];
    [evaluate | in_range | in_range | ].
  rewrite Hsend; [|differ|in_range|differ].
  vm_compute. repeat split.
Defined.

(** A freezes 4 of its 10 units until round 10. *)
Lemma freezeToken_locks_witness :
  match freezeToken start 1 freeze4 with
  | Ok (t', ok) =>
      ok = true
      /\ Account_Balance (accountOf t' 1) 0
         = {| bal_Available := 6; bal_Pending := 0;
              bal_Frozen := [{| fz_AvailableRound := 10; fz_Quant := 4 |}] |}
  | Panic => False
  end.
Proof.
  destruct (freezeToken_locks start 1 freeze4 (holding 1 0 10)) as [_ Hfreeze];
    [evaluate | in_range | in_range | ].
  destruct Hfreeze as [_ Hrun]; [differ|in_range|in_range|].
  rewrite Hrun. vm_compute. repeat split.
Defined.

(** The freeze of A is scheduled for round 10, and its thaw gives A its
    balance back. *)
Lemma freeze_then_release_witness :
  State_GetFreezeTokens (state frozen4) 10
  = [{| ft_Addr := 1; ft_TokenID := 0; ft_Quant := 4 |}]
  /\ exists t'' a'',
       releaseTokens_entry frozen4 {| ft_Addr := 1; ft_TokenID := 0; ft_Quant := 4 |}
       = Ok t''
       /\ State_Account (state t'') 1 = Some a''
       /\ Account_Balance a'' 0 = Account_Balance (holding 1 0 10) 0.
Proof.
  destruct (freeze_then_release start frozen4 1 freeze4 (holding 1 0 10))
    as (Hsched & Hback & _); [evaluate | evaluate | in_range | evaluate | ].
  split; [from_fact Hsched|].
  destruct Hback as (t'' & a'' & Hrun & Hacc & Hbal); [constructor|].
  exists t'', a''. split; [exact Hrun|]. split; [exact Hacc|exact Hbal].
Defined.

(** No frozen entry of the holder has the quantity 70. *)
Lemma releaseTokens_unmatched_panics_witness :
  releaseTokens beforeBadThaw = Panic.
Proof.
  apply (releaseTokens_unmatched_panics beforeBadThaw thaw70 []); [evaluate|].
  vm_compute. repeat (apply List.Forall_cons; [discriminate|]). apply List.Forall_nil.
Defined.

(** Both orders of the crossed batch are filled; the one order that was
    to expire at round 9 is dropped from the staged expirations. *)
Lemma removeFilledOrderFromExpiration_filters_witness :
  expirations (removeFilledOrderFromExpiration forwards (after crossed)) !! 9 = Some [].
Proof.
  destruct (removeFilledOrderFromExpiration_filters forwards (after crossed)
              forwards_lawful) as [Hlook _].
  destruct (Hlook 9) as [Hstaged _]. from_fact Hstaged.
Defined.

(** The order of A that expires at round 12 is persisted at round 12. *)
Lemma recordOrderExpirations_appends_witness :
  length (State_GetOrderExpirations
            (state (recordOrderExpirations forwards (after resting))) 12) = 1%nat.
Proof.
  destruct (recordOrderExpirations_appends forwards (after resting) forwards_lawful)
    as [Hlook _].
  rewrite (Hlook 12). evaluate.
Defined.

(** The book of the market of the resting orders is saved. *)
Lemma saveDirtyOrderBooks_saves_witness :
  State_loadOrderBook (state (saveDirtyOrderBooks forwards (after resting))) market
  = Some (getOrderBook (after resting) market).2.
Proof.
  destruct (saveDirtyOrderBooks_saves forwards (after resting) forwards_lawful)
    as [Hsaved _].
  apply Hsaved; evaluate.
Defined.

(** The finalized round refuses a further transaction and keeps its
    hash. *)
Lemma finalizeState_once_witness :
  Transition_Record validateNonce0 finalizedRound (place 1 true 1 100000000 0) = Panic
  /\ finalizeState backwards finalizedRound 8 = Ok finalizedRound.
Proof.
  destruct (finalizeState_once validateNonce0 stateHash0 forwards backwards
              (after resting) finalizedRound 7 8) as (_ & Hagain & _ & Hrec);
    [evaluate|].
  split; [apply Hrec|exact Hagain].
Defined.

(** Round 7 without transactions: the hash is the hash of the prior
    state. *)
Lemma finalizeState_fresh_witness :
  StateHash stateHash0 forwards (newTransition prior 7)
  = Ok (set_finalized (newTransition prior 7) true, stateHash0 prior).
Proof.
  apply (finalizeState_fresh stateHash0 forwards prior 7 7 forwards_lawful); evaluate.
Defined.

(** The batch stops at its second transaction: the count is 0, the first
    transaction stays recorded. *)
Lemma RecordTxns_all_or_prefix_witness :
  exists recorded txn rest,
    brokenBatch = recorded ++ txn :: rest
    /\ txns (after brokenBatch) = recorded
    /\ length recorded = 1%nat.
Proof.
  destruct (RecordTxns_all_or_prefix validateNonce0 start (after brokenBatch)
              brokenBatch 0 0 false false)
    as [(Hv & _)|(_ & _ & recorded & txn & rest & Hsplit & Hpre & _ & _)];
    [evaluate | discriminate Hv | ].
  exists recorded, txn, rest. split; [exact Hsplit|]. split; [exact Hpre|].
  etransitivity; [symmetry; exact (f_equal length Hpre)|evaluate].
Defined.

(** The tokens staged by the issue-and-send batch are apart. *)
Lemma RecordTxns_stagedApart_witness :
  stagedApart (after issueAndSend).
Proof.
  destruct (RecordTxns_stagedApart validateNonce0 start (after issueAndSend)
              issueAndSend 0 (2, true, true)) as [Hstart Hkeep].
  apply Hkeep; [apply Hstart|evaluate].
Defined.

(** The resting order of A, cancelled: the accounts are those of the
    prior state. *)
Lemma place_then_cancel_witness :
  exists t2,
    cancelOrder rested 1 cancelA = Ok (t2, true)
    /\ st_accounts (state t2) = st_accounts prior.
Proof.
  destruct (place_then_cancel start rested 1 restTxn 7 (holding 1 0 10))
    as (t2 & Hrun & Haccs & _);
    [evaluate | apply wellFormed_check; evaluate | in_range | evaluate | evaluate
    | evaluate | ].
  exists t2. split; [|exact Haccs].
  etransitivity; [|exact Hrun]. f_equal.
Defined.

(** The remainder of the partly filled order of A expires as it would be
    cancelled. *)
Lemma expiry_is_cancellation_witness :
  expireOrders_entry partlyFilled staleEntry = Ok cancelled.
Proof.
  pose proof (expiry_is_cancellation partlyFilled 1 (cot_ID cancelA)
                (accountOf partlyFilled 1) ltac:(evaluate)) as Hsame.
  cbv zeta in Hsame.
  assert (Account_PendingOrder (accountOf partlyFilled 1) (cot_ID cancelA)
          = Some remainder) as Hpending by evaluate.
  assert (cancelOrder partlyFilled 1 {| cot_ID := cot_ID cancelA |}
          = Ok (cancelled, true)) as Hcancel by evaluate.
  rewrite Hpending, Hcancel in Hsame. exact (proj2 Hsame).
Defined.

End FurtherScenarios.
